(** * Voice activity detector: a shallow embedding of
      [src/lib/voice-activity-detector.ts] and the properties of its
      feature extraction, adaptive threshold, confidence score and
      speech state machine. *)

From Stdlib Require Import Reals ZArith List Bool Lia Lra.
Import ListNotations.

Local Open Scope R_scope.

(** ** JavaScript numbers

    A JavaScript number is an IEEE-754 double.  The embedding keeps the
    special values that the detector can produce (the two infinities and
    NaN) and idealises every finite double as a real number, so rounding
    and the sign of zero are not modelled: a division by zero is a
    division by [+0]. *)
Module Js.

Inductive number : Type :=
| Fin (x : R)
| PosInf
| NegInf
| NaN.

Definition ofZ (z : Z) : number := Fin (IZR z).

Definition Rltb (x y : R) : bool := if Rlt_dec x y then true else false.
Definition Reqb (x y : R) : bool := if Req_dec_T x y then true else false.

(** The infinity whose sign is that of [x]; NaN for [x = 0]. *)
Definition signedInf (x : R) : number :=
  if Rltb 0 x then PosInf else if Rltb x 0 then NegInf else NaN.

Definition neg (a : number) : number :=
  match a with
  | Fin x => Fin (- x)
  | PosInf => NegInf
  | NegInf => PosInf
  | NaN => NaN
  end.

(** [a + b] *)
Definition add (a b : number) : number :=
  match a, b with
  | NaN, _ | _, NaN => NaN
  | Fin x, Fin y => Fin (x + y)
  | PosInf, NegInf | NegInf, PosInf => NaN
  | PosInf, _ | _, PosInf => PosInf
  | NegInf, _ | _, NegInf => NegInf
  end.

(** [a - b] *)
Definition sub (a b : number) : number := add a (neg b).

(** [a * b] *)
Definition mul (a b : number) : number :=
  match a, b with
  | NaN, _ | _, NaN => NaN
  | Fin x, Fin y => Fin (x * y)
  | Fin x, PosInf | PosInf, Fin x => signedInf x
  | Fin x, NegInf | NegInf, Fin x => signedInf (- x)
  | PosInf, PosInf | NegInf, NegInf => PosInf
  | PosInf, NegInf | NegInf, PosInf => NegInf
  end.

(** [a / b] *)
Definition div (a b : number) : number :=
  match a, b with
  | NaN, _ | _, NaN => NaN
  | Fin x, Fin y => if Reqb y 0 then signedInf x else Fin (x / y)
  | Fin _, (PosInf | NegInf) => Fin 0
  | PosInf, Fin y => if Rltb y 0 then NegInf else PosInf
  | NegInf, Fin y => if Rltb y 0 then PosInf else NegInf
  | (PosInf | NegInf), (PosInf | NegInf) => NaN
  end.

(** [a < b]; every comparison with NaN is false. *)
Definition lt (a b : number) : bool :=
  match a, b with
  | NaN, _ | _, NaN => false
  | Fin x, Fin y => Rltb x y
  | NegInf, (Fin _ | PosInf) => true
  | Fin _, PosInf => true
  | _, _ => false
  end.

(** [a > b] *)
Definition gt (a b : number) : bool := lt b a.

(** [Math.min(a, b)] *)
Definition min (a b : number) : number :=
  match a, b with
  | NaN, _ | _, NaN => NaN
  | _, _ => if lt b a then b else a
  end.

(** [Math.max(a, b)] *)
Definition max (a b : number) : number :=
  match a, b with
  | NaN, _ | _, NaN => NaN
  | _, _ => if lt a b then b else a
  end.

(** [Math.sqrt(a)] *)
Definition sqrt (a : number) : number :=
  match a with
  | Fin x => if Rltb x 0 then NaN else Fin (R_sqrt.sqrt x)
  | PosInf => PosInf
  | NegInf | NaN => NaN
  end.

(** [Math.floor(a)] *)
Definition floor (a : number) : number :=
  match a with
  | Fin x => ofZ (Zfloor x)
  | _ => a
  end.

Definition isFinite (a : number) : Prop :=
  match a with Fin _ => True | _ => False end.

End Js.

Import Js.

Local Open Scope Z_scope.

(** ** Data model *)

(** [VoiceActivityConfig].  Thresholds and frequencies are finite
    numbers; the two debounce durations are whole milliseconds, like the
    timestamps of [Date.now()] they are compared with. *)
Record VoiceActivityConfig : Type := mkConfig {
  energyThreshold : R;
  zeroCrossingThreshold : R;
  minSpeechDuration : Z;
  minSilenceDuration : Z;
  fftSize : R;
  voiceFrequencyMin : R;
  voiceFrequencyMax : R
}.

(** [Partial<VoiceActivityConfig>]: every field may be absent. *)
Record PartialConfig : Type := mkPartial {
  p_energyThreshold : option R;
  p_zeroCrossingThreshold : option R;
  p_minSpeechDuration : option Z;
  p_minSilenceDuration : option Z;
  p_fftSize : option R;
  p_voiceFrequencyMin : option R;
  p_voiceFrequencyMax : option R
}.

Definition noChange : PartialConfig :=
  mkPartial None None None None None None None.

Inductive EventType : Type :=
| speech_start
| speech_end
| speech_active
| noise.

Record VoiceActivityEvent : Type := mkEvent {
  type : EventType;
  timestamp : Z;
  energy : number;
  confidence : number;
  duration : option Z
}.

Definition DEFAULT_CONFIG : VoiceActivityConfig :=
  {| energyThreshold := 0.02;
     zeroCrossingThreshold := 0.3;
     minSpeechDuration := 300;
     minSilenceDuration := 800;
     fftSize := 2048;
     voiceFrequencyMin := 85;
     voiceFrequencyMax := 3400 |}.

(** The Web Audio objects the detector holds.  Only what the detector
    reads from them is kept. *)
Record AudioContext : Type := { sampleRate : positive }.
Record AnalyserNode : Type :=
  { node_fftSize : R; smoothingTimeConstant : R }.
Inductive MediaStreamAudioSourceNode : Type := ConnectedSource.

(** The fields of [class VoiceActivityDetector].  [onActivityCallback]
    records whether a callback is registered. *)
Record Detector : Type := mkDetector {
  audioContext : option AudioContext;
  analyser : option AnalyserNode;
  sourceNode : option MediaStreamAudioSourceNode;
  animationFrame : option Z;
  config : VoiceActivityConfig;
  isSpeaking : bool;
  speechStartTime : Z;
  lastSpeechTime : Z;
  silenceStartTime : Z;
  energyHistory : list number;
  onActivityCallback : bool
}.

Definition energyHistorySize : nat := 10.

(** Field assignments [this.f = v]. *)
Definition set_resources (ctx : option AudioContext) (an : option AnalyserNode)
    (src : option MediaStreamAudioSourceNode) (d : Detector) : Detector :=
  mkDetector ctx an src (animationFrame d) (config d) (isSpeaking d)
    (speechStartTime d) (lastSpeechTime d) (silenceStartTime d)
    (energyHistory d) (onActivityCallback d).

Definition set_animationFrame (v : option Z) (d : Detector) : Detector :=
  mkDetector (audioContext d) (analyser d) (sourceNode d) v (config d)
    (isSpeaking d) (speechStartTime d) (lastSpeechTime d) (silenceStartTime d)
    (energyHistory d) (onActivityCallback d).

Definition set_config (v : VoiceActivityConfig) (d : Detector) : Detector :=
  mkDetector (audioContext d) (analyser d) (sourceNode d) (animationFrame d) v
    (isSpeaking d) (speechStartTime d) (lastSpeechTime d) (silenceStartTime d)
    (energyHistory d) (onActivityCallback d).

Definition set_isSpeaking (v : bool) (d : Detector) : Detector :=
  mkDetector (audioContext d) (analyser d) (sourceNode d) (animationFrame d)
    (config d) v (speechStartTime d) (lastSpeechTime d) (silenceStartTime d)
    (energyHistory d) (onActivityCallback d).

Definition set_speechStartTime (v : Z) (d : Detector) : Detector :=
  mkDetector (audioContext d) (analyser d) (sourceNode d) (animationFrame d)
    (config d) (isSpeaking d) v (lastSpeechTime d) (silenceStartTime d)
    (energyHistory d) (onActivityCallback d).

Definition set_lastSpeechTime (v : Z) (d : Detector) : Detector :=
  mkDetector (audioContext d) (analyser d) (sourceNode d) (animationFrame d)
    (config d) (isSpeaking d) (speechStartTime d) v (silenceStartTime d)
    (energyHistory d) (onActivityCallback d).

Definition set_silenceStartTime (v : Z) (d : Detector) : Detector :=
  mkDetector (audioContext d) (analyser d) (sourceNode d) (animationFrame d)
    (config d) (isSpeaking d) (speechStartTime d) (lastSpeechTime d) v
    (energyHistory d) (onActivityCallback d).

Definition set_energyHistory (v : list number) (d : Detector) : Detector :=
  mkDetector (audioContext d) (analyser d) (sourceNode d) (animationFrame d)
    (config d) (isSpeaking d) (speechStartTime d) (lastSpeechTime d)
    (silenceStartTime d) v (onActivityCallback d).

Definition set_onActivityCallback (v : bool) (d : Detector) : Detector :=
  mkDetector (audioContext d) (analyser d) (sourceNode d) (animationFrame d)
    (config d) (isSpeaking d) (speechStartTime d) (lastSpeechTime d)
    (silenceStartTime d) (energyHistory d) v.

(** [{ ...base, ...p }] *)
Definition merge (base : VoiceActivityConfig) (p : PartialConfig)
    : VoiceActivityConfig :=
  {| energyThreshold :=
       match p_energyThreshold p with Some v => v | None => energyThreshold base end;
     zeroCrossingThreshold :=
       match p_zeroCrossingThreshold p with
       | Some v => v | None => zeroCrossingThreshold base end;
     minSpeechDuration :=
       match p_minSpeechDuration p with
       | Some v => v | None => minSpeechDuration base end;
     minSilenceDuration :=
       match p_minSilenceDuration p with
       | Some v => v | None => minSilenceDuration base end;
     fftSize := match p_fftSize p with Some v => v | None => fftSize base end;
     voiceFrequencyMin :=
       match p_voiceFrequencyMin p with
       | Some v => v | None => voiceFrequencyMin base end;
     voiceFrequencyMax :=
       match p_voiceFrequencyMax p with
       | Some v => v | None => voiceFrequencyMax base end |}.

(** [new VoiceActivityDetector(config)] *)
Definition newDetector (p : PartialConfig) : Detector :=
  {| audioContext := None;
     analyser := None;
     sourceNode := None;
     animationFrame := None;
     config := merge DEFAULT_CONFIG p;
     isSpeaking := false;
     speechStartTime := 0;
     lastSpeechTime := 0;
     silenceStartTime := 0;
     energyHistory := [];
     onActivityCallback := false |}.

(** ** Feature extraction

    A [Uint8Array] is a list of bytes, each an integer in 0..255. *)

(** [calculateEnergy] *)
Definition calculateEnergy (data : list Z) : number :=
  let sum :=
    fold_left
      (fun sum b =>
         let normalized := div (sub (ofZ b) (ofZ 128)) (ofZ 128) in
         add sum (mul normalized normalized))
      data (Fin 0) in
  sqrt (div sum (ofZ (Z.of_nat (length data)))).

(** [data[i]] as an operand of arithmetic: an index outside the array
    reads [undefined], which arithmetic turns into NaN. *)
Definition byteAt (data : list Z) (i : Z) : number :=
  if (0 <=? i) && (i <? Z.of_nat (length data))
  then ofZ (nth (Z.to_nat i) data 0)
  else NaN.

(** The body of the [for] loop of [calculateVoiceEnergy], run [steps]
    times from index [i]. *)
Fixpoint voiceBandLoop (frequencyData : list Z) (steps : nat) (i : Z)
    (sum : number) (count : Z) : number * Z :=
  match steps with
  | O => (sum, count)
  | S k =>
      voiceBandLoop frequencyData k (i + 1)
        (add sum (div (byteAt frequencyData i) (ofZ 255))) (count + 1)
  end.

(** [Math.floor(freq / binSize)] as a loop bound.  The result of
    [Math.floor] is finite here (see [bin_finite]), so it is an integer. *)
Definition binOf (binSize : number) (freq : R) : Z :=
  match floor (div (Fin freq) binSize) with
  | Fin x => Zfloor x
  | _ => 0
  end.

(** [calculateVoiceEnergy] *)
Definition calculateVoiceEnergy (d : Detector) (frequencyData : list Z)
    : number :=
  match audioContext d with
  | None => Fin 0
  | Some ctx =>
      let binSize :=
        div (Fin (IZR (Zpos (sampleRate ctx)))) (Fin (fftSize (config d))) in
      let minBin := binOf binSize (voiceFrequencyMin (config d)) in
      let maxBin := binOf binSize (voiceFrequencyMax (config d)) in
      (* i runs from minBin while i < maxBin && i < frequencyData.length *)
      let stop := Z.min maxBin (Z.of_nat (length frequencyData)) in
      let '(sum, count) :=
        voiceBandLoop frequencyData (Z.to_nat (stop - minBin)) minBin (Fin 0) 0 in
      if 0 <? count then div sum (ofZ count) else Fin 0
  end.

(** Whether the signal crosses the midpoint between two consecutive
    samples: the condition of the [if] in [calculateZeroCrossingRate]. *)
Definition crosses (prev cur : Z) : bool :=
  ((cur >=? 128) && (prev <? 128)) || ((cur <? 128) && (prev >=? 128)).

(** The loop of [calculateZeroCrossingRate] from the sample after [prev]. *)
Fixpoint crossingsFrom (prev : Z) (rest : list Z) : Z :=
  match rest with
  | [] => 0
  | cur :: tl => (if crosses prev cur then 1 else 0) + crossingsFrom cur tl
  end.

(** [calculateZeroCrossingRate] *)
Definition calculateZeroCrossingRate (data : list Z) : number :=
  let crossings :=
    match data with
    | [] => 0
    | first :: rest => crossingsFrom first rest
    end in
  div (ofZ crossings) (ofZ (Z.of_nat (length data))).

(** ** The detection loop *)

(** What the host supplies to one run of [detect]: the value of
    [Date.now()], the two arrays the analyser fills, and the id that
    [requestAnimationFrame] returns for the next run. *)
Record Tick : Type := mkTick {
  now : Z;
  timeDomainData : list Z;
  frequencyData : list Z;
  requestId : Z
}.

(** [emitEvent]: the events handed to the callback. *)
Definition emitEvent (d : Detector) (event : VoiceActivityEvent)
    : list VoiceActivityEvent :=
  if onActivityCallback d then [event] else [].

(** [this.energyHistory.push(energy)] followed by the conditional
    [shift()]. *)
Definition pushEnergy (history : list number) (energy : number) : list number :=
  let history := history ++ [energy] in
  if (energyHistorySize <? length history)%nat then tl history else history.

(** [this.energyHistory.reduce((a, b) => a + b, 0)] *)
Definition sumEnergy (history : list number) : number :=
  fold_left add history (Fin 0).

(** [adaptiveThreshold], from the updated history. *)
Definition adaptiveThreshold (cfg : VoiceActivityConfig) (history : list number)
    : number :=
  let avgEnergy := div (sumEnergy history) (ofZ (Z.of_nat (length history))) in
  max (Fin (energyThreshold cfg)) (mul avgEnergy (Fin 1.5)).

(** [confidence], from the three measurements and the adaptive threshold. *)
Definition confidenceScore (cfg : VoiceActivityConfig)
    (energy voiceEnergy zeroCrossingRate threshold : number) : number :=
  let energyScore := min (Fin 1) (div energy threshold) in
  let voiceScore := min (Fin 1) (div voiceEnergy threshold) in
  let zcrScore :=
    if lt zeroCrossingRate (Fin (zeroCrossingThreshold cfg)) then Fin 1 else Fin 0 in
  add (add (mul energyScore (Fin 0.4)) (mul voiceScore (Fin 0.5)))
      (mul zcrScore (Fin 0.1)).

(** [isVoicePresent] *)
Definition voicePresent (confidence : number) : bool := gt confidence (Fin 0.6).

(** The state machine of [detect] (the [if (isVoicePresent)] statement). *)
Definition speechStateMachine (d : Detector) (now : Z)
    (energy confidence : number) (isVoicePresent : bool)
    : Detector * list VoiceActivityEvent :=
  if isVoicePresent then
    let d := set_lastSpeechTime now d in
    if negb (isSpeaking d) then
      (* Potential speech start *)
      if speechStartTime d =? 0 then (set_speechStartTime now d, [])
      else if now - speechStartTime d >=? minSpeechDuration (config d) then
        (* Confirmed speech start *)
        let d := set_silenceStartTime 0 (set_isSpeaking true d) in
        (d, emitEvent d (mkEvent speech_start now energy confidence None))
      else (d, [])
    else
      (* Ongoing speech *)
      (d, emitEvent d (mkEvent speech_active now energy confidence None))
  else
    (* No voice detected *)
    if isSpeaking d then
      (* Potential speech end *)
      if silenceStartTime d =? 0 then (set_silenceStartTime now d, [])
      else if now - silenceStartTime d >=? minSilenceDuration (config d) then
        (* Confirmed speech end *)
        let duration := now - lastSpeechTime d + minSilenceDuration (config d) in
        let d :=
          set_silenceStartTime 0 (set_speechStartTime 0 (set_isSpeaking false d)) in
        (d, emitEvent d (mkEvent speech_end now energy confidence (Some duration)))
      else (d, [])
    else
      (* Reset speech start if not enough duration *)
      let d :=
        if negb (speechStartTime d =? 0)
           && (now - speechStartTime d <? minSpeechDuration (config d))
        then set_speechStartTime 0 d
        else d in
      (* Emit noise events occasionally *)
      if gt energy (mul (Fin (energyThreshold (config d))) (Fin 0.5))
      then (d, emitEvent d (mkEvent noise now energy confidence None))
      else (d, []).

(** The measurements of one frame in detector state [d]: the energy and
    the confidence that [detect] computes, after pushing the energy on
    the history. *)
Definition frameEnergy (tk : Tick) : number :=
  calculateEnergy (timeDomainData tk).

Definition frameThreshold (d : Detector) (tk : Tick) : number :=
  adaptiveThreshold (config d) (pushEnergy (energyHistory d) (frameEnergy tk)).

Definition frameConfidence (d : Detector) (tk : Tick) : number :=
  confidenceScore (config d) (frameEnergy tk)
    (calculateVoiceEnergy d (frequencyData tk))
    (calculateZeroCrossingRate (timeDomainData tk))
    (frameThreshold d tk).

(** One run of the closure [detect] of [startDetection]. *)
Definition detect (d : Detector) (tk : Tick)
    : Detector * list VoiceActivityEvent :=
  match analyser d with
  | None => (d, [])
  | Some _ =>
      let energy := frameEnergy tk in
      let confidence := frameConfidence d tk in
      let isVoicePresent := voicePresent confidence in
      let d := set_energyHistory (pushEnergy (energyHistory d) energy) d in
      let '(d, events) :=
        speechStateMachine d (now tk) energy confidence isVoicePresent in
      (set_animationFrame (Some (requestId tk)) d, events)
  end.

(** The assignments of [init], when every Web Audio call succeeds:
    the callback (or none), the audio context at 16 kHz, the analyser
    and the connected source.  [onActivity] tells whether a callback was
    passed. *)
Definition connect (d : Detector) (onActivity : bool) : Detector :=
  let d := set_onActivityCallback onActivity d in
  set_resources (Some {| sampleRate := 16000 |})
    (Some {| node_fftSize := fftSize (config d); smoothingTimeConstant := 0.2 |})
    (Some ConnectedSource) d.

(** [init]: after the assignments, [startDetection] runs [detect] at
    once, on the frame of [tk]. *)
Definition init (d : Detector) (onActivity : bool) (tk : Tick)
    : Detector * list VoiceActivityEvent :=
  detect (connect d onActivity) tk.

(** The object that [getState] returns. *)
Record StateSnapshot : Type := {
  snap_isSpeaking : bool;
  snap_lastSpeechTime : Z;
  timeSinceLastSpeech : Z
}.

(** [getState], read when [Date.now()] is [now]. *)
Definition getState (d : Detector) (now : Z) : StateSnapshot :=
  {| snap_isSpeaking := isSpeaking d;
     snap_lastSpeechTime := lastSpeechTime d;
     timeSinceLastSpeech := now - lastSpeechTime d |}.

(** [updateConfig] *)
Definition updateConfig (d : Detector) (p : PartialConfig) : Detector :=
  set_config (merge (config d) p) d.

(** The calls that [stop] makes on the host. *)
Inductive Release : Type :=
| CancelAnimationFrame (id : Z)
| DisconnectSource
| CloseAudioContext.

(** [if (this.animationFrame)]: [null] and the number 0 are falsy. *)
Definition scheduled (d : Detector) : option Z :=
  match animationFrame d with
  | Some id => if id =? 0 then None else Some id
  | None => None
  end.

(** [stop]: the detector afterwards and the host calls made, in order. *)
Definition stop (d : Detector) : Detector * list Release :=
  let '(d, r1) :=
    match scheduled d with
    | Some id => (set_animationFrame None d, [CancelAnimationFrame id])
    | None => (d, [])
    end in
  let '(d, r2) :=
    match sourceNode d with
    | Some _ => (set_resources (audioContext d) (analyser d) None d, [DisconnectSource])
    | None => (d, [])
    end in
  let '(d, r3) :=
    match audioContext d with
    | Some _ => (set_resources None (analyser d) (sourceNode d) d, [CloseAudioContext])
    | None => (d, [])
    end in
  let d := set_resources (audioContext d) None (sourceNode d) d in
  let d := set_isSpeaking false d in
  let d := set_speechStartTime 0 d in
  let d := set_lastSpeechTime 0 d in
  let d := set_silenceStartTime 0 d in
  (d, r1 ++ r2 ++ r3).

(** [getAnalyser] *)
Definition getAnalyser (d : Detector) : option AnalyserNode := analyser d.

(** ** Runs of the detector *)

(** Successive runs of [detect], one per tick, with the events in the
    order the callback receives them. *)
Fixpoint polls (d : Detector) (ticks : list Tick)
    : Detector * list VoiceActivityEvent :=
  match ticks with
  | [] => (d, [])
  | tk :: rest =>
      let '(d1, ev1) := detect d tk in
      let '(d2, ev2) := polls d1 rest in
      (d2, ev1 ++ ev2)
  end.

(** What can happen to a detector: a run of [detect], or a call of a
    public method. *)
Inductive Op : Type :=
| Poll (tk : Tick)
| Init (onActivity : bool) (tk : Tick)
| UpdateConfig (p : PartialConfig)
| Stop.

Definition exec (d : Detector) (op : Op) : Detector * list VoiceActivityEvent :=
  match op with
  | Poll tk => detect d tk
  | Init onActivity tk => init d onActivity tk
  | UpdateConfig p => (updateConfig d p, [])
  | Stop => (fst (stop d), [])
  end.

Fixpoint execs (d : Detector) (ops : list Op)
    : Detector * list VoiceActivityEvent :=
  match ops with
  | [] => (d, [])
  | op :: rest =>
      let '(d1, ev1) := exec d op in
      let '(d2, ev2) := execs d1 rest in
      (d2, ev1 ++ ev2)
  end.

(** ** Predicates on detector states *)

(** The detector is not counting toward a speech end unless it is
    speaking. *)
Definition endDebounceOnlyWhenSpeaking (d : Detector) : Prop :=
  silenceStartTime d <> 0 -> isSpeaking d = true.

(** The ticks that a list of operations feeds to [detect], in order. *)
Definition opTicks (ops : list Op) : list Tick :=
  flat_map (fun op =>
              match op with
              | Poll tk | Init _ tk => [tk]
              | UpdateConfig _ | Stop => []
              end) ops.

(** [subsequence l1 l2]: [l1] is [l2] with some elements left out, the
    others in the same order. *)
Inductive subsequence {A : Type} : list A -> list A -> Prop :=
| subsequence_nil : subsequence [] []
| subsequence_skip x l1 l2 : subsequence l1 l2 -> subsequence l1 (x :: l2)
| subsequence_keep x l1 l2 : subsequence l1 l2 -> subsequence (x :: l1) (x :: l2).

(** Reading a list of event types from a state where [speaking] tells
    whether a speech is open: every [speech_start] opens one and every
    [speech_end] closes one. *)
Fixpoint alternates (speaking : bool) (kinds : list EventType) : Prop :=
  match kinds with
  | [] => True
  | speech_start :: rest => speaking = false /\ alternates true rest
  | speech_end :: rest => speaking = true /\ alternates false rest
  | _ :: rest => alternates speaking rest
  end.

Fixpoint speakingAfter (speaking : bool) (kinds : list EventType) : bool :=
  match kinds with
  | [] => speaking
  | speech_start :: rest => speakingAfter true rest
  | speech_end :: rest => speakingAfter false rest
  | _ :: rest => speakingAfter speaking rest
  end.

(** The operations of one run state: runs of [detect] and configuration
    updates.  [init] starts a run state and [stop] discards it. *)
Definition inSession (op : Op) : Prop :=
  match op with
  | Poll _ | UpdateConfig _ => True
  | Init _ _ | Stop => False
  end.

(** One run of the state machine emits at most one event, stamped with
    the time of the run.  With a callback registered it emits
    [speech_start] exactly when it starts speaking and [speech_end]
    exactly when it stops; with none it emits nothing. *)
Definition stepFacts (d : Detector) (times : list Z)
    (r : Detector * list VoiceActivityEvent) : Prop :=
  let kinds := map type (snd r) in
  subsequence (map timestamp (snd r)) times
  /\ onActivityCallback (fst r) = onActivityCallback d
  /\ (onActivityCallback d = true ->
      alternates (isSpeaking d) kinds
      /\ isSpeaking (fst r) = speakingAfter (isSpeaking d) kinds)
  /\ (onActivityCallback d = false -> snd r = []).

(** ** The debounce timers on their own

    The state machine of [detect] reads two facts of a frame: whether
    voice is present and whether the energy is above half the static
    threshold.  [timerStep] is that state machine over the four timer
    fields alone, with the two facts as booleans and every event reduced
    to its type, timestamp and duration ([speechStateMachine_timers]
    proves that [speechStateMachine] agrees with it). *)
Record Timers : Type := mkTimers {
  speaking : bool;
  speechStart : Z;
  lastSpeech : Z;
  silenceStart : Z
}.

Definition timersOf (d : Detector) : Timers :=
  mkTimers (isSpeaking d) (speechStartTime d) (lastSpeechTime d)
    (silenceStartTime d).

Definition Signal : Type := EventType * Z * option Z.

Definition signalOf (event : VoiceActivityEvent) : Signal :=
  (type event, timestamp event, duration event).

Definition timerStep (minSpeech minSilence : Z) (s : Timers) (now : Z)
    (voice noisy : bool) : Timers * list Signal :=
  if voice then
    if negb (speaking s) then
      if speechStart s =? 0 then (mkTimers false now now (silenceStart s), [])
      else if now - speechStart s >=? minSpeech then
        (mkTimers true (speechStart s) now 0, [(speech_start, now, None)])
      else (mkTimers false (speechStart s) now (silenceStart s), [])
    else
      (mkTimers true (speechStart s) now (silenceStart s),
       [(speech_active, now, None)])
  else
    if speaking s then
      if silenceStart s =? 0 then
        (mkTimers true (speechStart s) (lastSpeech s) now, [])
      else if now - silenceStart s >=? minSilence then
        (mkTimers false 0 (lastSpeech s) 0,
         [(speech_end, now, Some (now - lastSpeech s + minSilence))])
      else (s, [])
    else
      let s' :=
        if negb (speechStart s =? 0) && (now - speechStart s <? minSpeech)
        then mkTimers false 0 (lastSpeech s) (silenceStart s)
        else s in
      (s', if noisy then [(noise, now, None)] else []).

(** [timerStep] over a schedule of [(now, voice, noisy)]. *)
Fixpoint runTimers (minSpeech minSilence : Z) (s : Timers)
    (schedule : list (Z * bool * bool)) : Timers * list Signal :=
  match schedule with
  | [] => (s, [])
  | (now, voice, noisy) :: rest =>
      let '(s1, ev1) := timerStep minSpeech minSilence s now voice noisy in
      let '(s2, ev2) := runTimers minSpeech minSilence s1 rest in
      (s2, ev1 ++ ev2)
  end.

(** Whether [detect] in state [d] takes the frame of [tk] as voice, and
    whether it takes it as noise when it is not voice. *)
Definition heard (d : Detector) (tk : Tick) : bool :=
  voicePresent (frameConfidence d tk).

Definition noisy (d : Detector) (tk : Tick) : bool :=
  gt (frameEnergy tk) (mul (Fin (energyThreshold (config d))) (Fin 0.5)).

(** ** Vocabulary of the statements *)

(** The last [n] elements of a list (all of it when it is shorter). *)
Definition lastN {A : Type} (n : nat) (l : list A) : list A :=
  skipn (length l - n) l.

(** Sum and mean of real numbers. *)
Definition Rsum (xs : list R) : R := fold_left Rplus xs 0%R.

Definition mean (xs : list R) : R := (Rsum xs / IZR (Z.of_nat (length xs)))%R.

(** The energies that the runs of [detect] among [ops] push on the
    history, in order, when the operations start in state [d].  A run
    with no analyser returns before it measures anything. *)
Fixpoint polledEnergies (d : Detector) (ops : list Op) : list number :=
  match ops with
  | [] => []
  | op :: rest =>
      match op with
      | Poll tk =>
          match analyser d with Some _ => [frameEnergy tk] | None => [] end
      | Init _ tk => [frameEnergy tk]
      | UpdateConfig _ | Stop => []
      end ++ polledEnergies (fst (exec d op)) rest
  end.

(** ** Two reference frames

    The analyser of a detector with the default [fftSize] of 2048 fills
    arrays of 1024 bytes.  [voicedTick] is such a frame with every
    sample and every magnitude at full scale, [silentTick] one with
    every sample at rest and every magnitude at zero.  With the default
    thresholds the first is heard as voice and the second is not (see
    [voicedTick_present] and [silentTick_absent]). *)
Definition frameLength : nat := 1024.

Definition voicedTick (t : Z) : Tick :=
  mkTick t (repeat 255 frameLength) (repeat 255 frameLength) 1.

Definition silentTick (t : Z) : Tick :=
  mkTick t (repeat 128 frameLength) (repeat 0 frameLength) 1.

(** A detector that [init] has started at 16 kHz, with the default
    thresholds, band and FFT size (the two durations are free) and a
    history of energies between 0 and that of [voicedTick]. *)
Definition defaultListening (d : Detector) : Prop :=
  analyser d <> None
  /\ audioContext d = Some {| sampleRate := 16000 |}
  /\ energyThreshold (config d) = 0.02%R
  /\ zeroCrossingThreshold (config d) = 0.3%R
  /\ fftSize (config d) = 2048%R
  /\ voiceFrequencyMin (config d) = 85%R
  /\ voiceFrequencyMax (config d) = 3400%R
  /\ exists xs,
       energyHistory d = map Fin xs
       /\ Forall (fun x => 0 <= x <= 127 / 128)%R xs.

(** ** Runs of [detect] inside a list of operations *)

(** The run of [detect] that an operation makes, if it makes one: the
    state the run starts in and its tick.  [detect] returns at once
    when there is no analyser. *)
Definition running (d : Detector) (op : Op) : option (Detector * Tick) :=
  match op with
  | Poll tk => match analyser d with Some _ => Some (d, tk) | None => None end
  | Init onActivity tk => Some (connect d onActivity, tk)
  | UpdateConfig _ | Stop => None
  end.

(** The time of the frame, when [op] polls a frame that counts as voice. *)
Definition voiceAt (d : Detector) (op : Op) : option Z :=
  match running d op with
  | Some (d', tk) => if heard d' tk then Some (now tk) else None
  | None => None
  end.

(** [P] holds of every operation of [ops] and the state it starts in,
    when [ops] run from [d]. *)
Fixpoint alongRun (P : Detector -> Op -> Prop) (d : Detector) (ops : list Op)
    : Prop :=
  match ops with
  | [] => True
  | op :: rest => P d op /\ alongRun P (fst (exec d op)) rest
  end.

(** [op] polls no frame that counts as voice. *)
Definition voiceless (d : Detector) (op : Op) : Prop := voiceAt d op = None.

(** If [op] polls a frame without voice, it does so at least
    [minSpeechDuration] after [t0]. *)
Definition lateIfSilent (t0 : Z) (d : Detector) (op : Op) : Prop :=
  match running d op with
  | Some (d', tk) =>
      heard d' tk = false -> now tk - t0 >= minSpeechDuration (config d')
  | None => True
  end.

(** A schedule of flickers: groups of frames, each group within a
    window shorter than [minSpeechDuration] and closed by a frame that
    does not count as voice.  A voice pulse of 250 ms followed by a
    silent frame less than 300 ms after its first frame is such a group
    when [minSpeechDuration] is 300. *)
Inductive flickering : Detector -> list Tick -> Prop :=
| flickering_done d : flickering d []
| flickering_group d pulse silent rest t0 :
    (forall tk, In tk (pulse ++ [silent]) ->
                t0 <= now tk < t0 + minSpeechDuration (config d)) ->
    heard (fst (polls d pulse)) silent = false ->
    flickering (fst (polls d (pulse ++ [silent]))) rest ->
    flickering d (pulse ++ silent :: rest).

(** ** Reference sessions

    A script lists the frames of a session as [(now, voice)]:
    [voicedTick now] where [voice] is true, [silentTick now] where it is
    false.  The session starts a detector with [init], a callback and
    the first frame, and polls the others. *)
Definition tickOf (x : Z * bool) : Tick :=
  if snd x then voicedTick (fst x) else silentTick (fst x).

Definition referenceSession (script : list (Z * bool)) : list Op :=
  match script with
  | [] => []
  | x :: rest => Init true (tickOf x) :: map (fun y => Poll (tickOf y)) rest
  end.

Definition scheduleOf (script : list (Z * bool)) : list (Z * bool * bool) :=
  map (fun x => (fst x, snd x, false)) script.

(** ** Example inputs *)

(** A detector built with the default configuration and started with a
    callback, before its first frame. *)
Definition listeningDetector : Detector := connect (newDetector noChange) true.


(** Two utterances: voice from 1000 to 1400, silence until 2800, voice
    again from 3000. *)
Definition twoUtterances : list (Z * bool) :=
  [(1000, true); (1300, true); (1400, true); (2000, false); (2800, false);
   (3000, true); (3300, true)].

(** Two voice pulses of 250 ms, each followed by a silent frame 10 ms
    after its last frame. *)
Definition twoShortPulses : list (Z * bool) :=
  [(1000, true); (1250, true); (1260, false);
   (5000, true); (5250, true); (5260, false)].

(** ** Vocabulary of the further properties *)

(** The contents of a [Uint8Array]: every element is a byte. *)
Definition validBytes (data : list Z) : Prop :=
  Forall (fun b => 0 <= b <= 255) data.

(** Every frame of [ticks] counts as voice ([voice] true), or none does
    ([voice] false), in the state [detect] finds it in when the ticks
    are polled from [d]. *)
Fixpoint heardThroughout (voice : bool) (d : Detector) (ticks : list Tick)
    : Prop :=
  match ticks with
  | [] => True
  | tk :: rest =>
      heard d tk = voice /\ heardThroughout voice (fst (detect d tk)) rest
  end.

(** [op] leaves the detector speaking: it neither ends the speech nor
    stops the detector. *)
Definition staysSpeaking (d : Detector) (op : Op) : Prop :=
  isSpeaking (fst (exec d op)) = true.

(** The times of the frames that count as voice, in order, when [ops]
    run from [d]. *)
Fixpoint voiceTimes (d : Detector) (ops : list Op) : list Z :=
  match ops with
  | [] => []
  | op :: rest =>
      match voiceAt d op with Some t => [t] | None => [] end
      ++ voiceTimes (fst (exec d op)) rest
  end.

(** The operations that leave the registered callback alone: all but
    [init]. *)
Definition keepsCallback (op : Op) : Prop :=
  match op with
  | Init _ _ => False
  | Poll _ | UpdateConfig _ | Stop => True
  end.

(** [{ ...p, ...q }] on partial configurations. *)
Definition overlay (p q : PartialConfig) : PartialConfig :=
  let pick {A : Type} (x y : option A) := match y with Some _ => y | None => x end in
  {| p_energyThreshold := pick (p_energyThreshold p) (p_energyThreshold q);
     p_zeroCrossingThreshold :=
       pick (p_zeroCrossingThreshold p) (p_zeroCrossingThreshold q);
     p_minSpeechDuration := pick (p_minSpeechDuration p) (p_minSpeechDuration q);
     p_minSilenceDuration := pick (p_minSilenceDuration p) (p_minSilenceDuration q);
     p_fftSize := pick (p_fftSize p) (p_fftSize q);
     p_voiceFrequencyMin := pick (p_voiceFrequencyMin p) (p_voiceFrequencyMin q);
     p_voiceFrequencyMax := pick (p_voiceFrequencyMax p) (p_voiceFrequencyMax q) |}.

(** A threshold that is NaN, plus infinity or a positive number: what
    the adaptive threshold can be when the configured one is positive. *)
Definition usableThreshold (a : number) : Prop :=
  match a with
  | Fin x => (0 < x)%R
  | NegInf => False
  | PosInf | NaN => True
  end.

(** The energy of a frame: NaN or a number that is not negative. *)
Definition energyValue (e : number) : Prop :=
  match e with
  | Fin x => (0 <= x)%R
  | NaN => True
  | PosInf | NegInf => False
  end.

(** ** The component that listens

    [IntelligentAnalyzer] builds a detector and passes
    [handleVoiceActivity] to [init].  Of the component, the model keeps
    what the handler reads and writes: the two pieces of state that the
    panel shows and the handle of the pending analysis timer. *)
Record Component : Type := mkComponent {
  isUserSpeaking : bool;
  speechConfidence : number;
  speechEndTimer : option Z
}.

(** [useState(false)], [useState(0)] and [useRef(null)]. *)
Definition initialComponent : Component := mkComponent false (Fin 0) None.

(** The timer calls that the handler makes on the host. *)
Inductive TimerCall : Type :=
| ClearTimeout (id : Z)
| SetTimeout (id : Z) (delay : Z).

(** [handleVoiceActivity].  [timer] is the handle that [setTimeout]
    returns if the handler calls it; like [null], the handle 0 is
    falsy. *)
Definition handleVoiceActivity (c : Component) (event : VoiceActivityEvent)
    (timer : Z) : Component * list TimerCall :=
  match type event with
  | speech_start =>
      let c := mkComponent true (confidence event) (speechEndTimer c) in
      (* Clear any pending speech end timer *)
      match speechEndTimer c with
      | Some id =>
          if id =? 0 then (c, [])
          else (mkComponent (isUserSpeaking c) (speechConfidence c) None,
                [ClearTimeout id])
      | None => (c, [])
      end
  | speech_active =>
      (mkComponent (isUserSpeaking c) (confidence event) (speechEndTimer c), [])
  | speech_end =>
      (mkComponent false (Fin 0) (Some timer), [SetTimeout timer 500])
  | noise => (c, [])
  end.

(** What happens to the component: the detector calls the handler, or
    the analysis timer fires, whose callback ends with
    [speechEndTimerRef.current = null]. *)
Inductive Happening : Type :=
| Heard (event : VoiceActivityEvent) (timer : Z)
| TimerFired.

Definition happen (c : Component) (h : Happening) : Component :=
  match h with
  | Heard event timer => fst (handleVoiceActivity c event timer)
  | TimerFired => mkComponent (isUserSpeaking c) (speechConfidence c) None
  end.

(** The events among the happenings, in order. *)
Definition eventsOf (feed : list Happening) : list VoiceActivityEvent :=
  flat_map (fun h => match h with Heard event _ => [event] | TimerFired => [] end)
    feed.

(** What the panel may show: SPEAKING with a confidence above 0.6, or
    SILENT with confidence 0. *)
Definition coherent (c : Component) : Prop :=
  if isUserSpeaking c then voicePresent (speechConfidence c) = true
  else speechConfidence c = Fin 0.

(** A list of events that a detector in state [speaking] can emit:
    starts and ends alternate, [speech_active] only comes while
    speaking and noise only while not, and a start or an active event
    carries a confidence above 0.6. *)
Fixpoint displayable (speaking : bool) (events : list VoiceActivityEvent)
    : Prop :=
  match events with
  | [] => True
  | event :: rest =>
      match type event with
      | speech_start =>
          speaking = false /\ voicePresent (confidence event) = true
          /\ displayable true rest
      | speech_active =>
          speaking = true /\ voicePresent (confidence event) = true
          /\ displayable speaking rest
      | speech_end => speaking = true /\ displayable false rest
      | noise => speaking = false /\ displayable speaking rest
      end
  end.

(** * Properties *)

(** ** Evaluating comparisons of real numbers *)

Lemma Rltb_true (x y : R) : (x < y)%R -> Rltb x y = true.
Proof. intros H; unfold Rltb; destruct (Rlt_dec x y); [reflexivity | contradiction]. Qed.

Lemma Rltb_false (x y : R) : (y <= x)%R -> Rltb x y = false.
Proof. intros H; unfold Rltb; destruct (Rlt_dec x y); [lra | reflexivity]. Qed.

Lemma Rltb_spec (x y : R) : Rltb x y = true <-> (x < y)%R.
Proof. unfold Rltb; destruct (Rlt_dec x y); split; intros; (easy || lra). Qed.

Lemma Reqb_true (x y : R) : x = y -> Reqb x y = true.
Proof. intros H; unfold Reqb; destruct (Req_dec_T x y); [reflexivity | contradiction]. Qed.

Lemma Reqb_false (x y : R) : x <> y -> Reqb x y = false.
Proof. intros H; unfold Reqb; destruct (Req_dec_T x y); [contradiction | reflexivity]. Qed.

(** Settles every comparison of the goal that linear arithmetic decides. *)
Ltac decide_R :=
  repeat match goal with
  | |- context [Rltb ?x ?y] =>
      first [ rewrite (Rltb_true x y) by lra | rewrite (Rltb_false x y) by lra ]
  | |- context [Reqb ?x ?y] =>
      first [ rewrite (Reqb_true x y) by lra | rewrite (Reqb_false x y) by lra ]
  end.

(** ** Arithmetic on finite numbers *)

Lemma div_Fin (x y : R) : y <> 0%R -> div (Fin x) (Fin y) = Fin (x / y).
Proof. intros H; cbn. now rewrite Reqb_false. Qed.

Lemma min_Fin (x y : R) : min (Fin x) (Fin y) = Fin (Rmin x y).
Proof.
  cbn. unfold Rltb, Rmin.
  destruct (Rlt_dec y x), (Rle_dec x y); try reflexivity; f_equal; lra.
Qed.

Lemma max_Fin (x y : R) : max (Fin x) (Fin y) = Fin (Rmax x y).
Proof.
  cbn. unfold Rltb, Rmax.
  destruct (Rlt_dec x y), (Rle_dec x y); try reflexivity; f_equal; lra.
Qed.

Lemma div_ge (k x a : R) : (0 < a -> k * a <= x -> k <= x / a)%R.
Proof.
  intros Ha H. apply Rmult_le_reg_r with a; [lra|].
  replace (x / a * a)%R with x by (field; lra). lra.
Qed.

Lemma div_le (k x a : R) : (0 < a -> x <= k * a -> x / a <= k)%R.
Proof.
  intros Ha H. apply Rmult_le_reg_r with a; [lra|].
  replace (x / a * a)%R with x by (field; lra). lra.
Qed.

Lemma Rmin_unit (x : R) : (0 <= x -> 0 <= Rmin 1 x <= 1)%R.
Proof. intros H. unfold Rmin. destruct (Rle_dec 1 x); lra. Qed.

Lemma isFinite_map_Fin (l : list number) :
  Forall isFinite l <-> exists xs, l = map Fin xs.
Proof.
  split.
  - induction 1 as [|a l Ha _ [xs ->]]; [now exists []|].
    destruct a; try contradiction. now exists (x :: xs).
  - intros [xs ->]. induction xs; constructor; cbn; auto.
Qed.

Lemma fold_add_Fin (xs : list R) : forall acc,
  fold_left add (map Fin xs) (Fin acc) = Fin (fold_left Rplus xs acc).
Proof. induction xs as [|x xs IH]; intros acc; cbn; [reflexivity | apply IH]. Qed.

Lemma sumEnergy_Fin (xs : list R) : sumEnergy (map Fin xs) = Fin (Rsum xs).
Proof. apply fold_add_Fin. Qed.

Lemma length_pos_IZR {A : Type} (l : list A) :
  l <> [] -> (0 < IZR (Z.of_nat (length l)))%R.
Proof.
  intros H. apply IZR_lt. destruct l; [congruence | cbn; lia].
Qed.

(** The adaptive threshold over a history of finite energies. *)
Lemma adaptiveThreshold_Fin cfg (xs : list R) :
  xs <> [] ->
  adaptiveThreshold cfg (map Fin xs) =
  Fin (Rmax (energyThreshold cfg) (mean xs * 1.5)).
Proof.
  intros Hne. unfold adaptiveThreshold, mean.
  rewrite sumEnergy_Fin, length_map. unfold ofZ.
  rewrite div_Fin by (apply Rgt_not_eq, Rlt_gt, length_pos_IZR, Hne).
  cbn [mul]. apply max_Fin.
Qed.

(** The confidence on finite measurements with a non-zero threshold. *)
Lemma confidenceScore_Fin cfg (e v a : R) (zcr : number) :
  a <> 0%R ->
  confidenceScore cfg (Fin e) (Fin v) zcr (Fin a) =
  Fin (Rmin 1 (e / a) * 0.4 + Rmin 1 (v / a) * 0.5
       + (if lt zcr (Fin (zeroCrossingThreshold cfg)) then 1 else 0) * 0.1).
Proof.
  intros Ha. unfold confidenceScore.
  rewrite !div_Fin, !min_Fin by assumption.
  destruct (lt zcr _); reflexivity.
Qed.

Lemma Rsum_bounds (M : R) (xs : list R) : forall acc : R,
  Forall (fun x => 0 <= x <= M)%R xs ->
  (acc <= fold_left Rplus xs acc <= acc + IZR (Z.of_nat (length xs)) * M)%R.
Proof.
  induction xs as [|x xs IH]; intros acc H.
  - cbn. lra.
  - inversion H as [|? ? Hx Hrest]; subst. cbn [fold_left length].
    specialize (IH (acc + x)%R Hrest).
    rewrite Nat2Z.inj_succ, succ_IZR. lra.
Qed.

Lemma mean_bounds (M : R) (xs : list R) :
  xs <> [] -> Forall (fun x => 0 <= x <= M)%R xs -> (0 <= mean xs <= M)%R.
Proof.
  intros Hne H. unfold mean, Rsum.
  pose proof (length_pos_IZR xs Hne) as Hlen.
  pose proof (Rsum_bounds M xs 0 H) as [Hlo Hhi].
  split.
  - apply div_ge; lra.
  - apply div_le; lra.
Qed.

(** ** Arithmetic on NaN *)





(** ** Feature extraction *)

Lemma calculateEnergy_empty : calculateEnergy [] = NaN.
Proof.
  unfold calculateEnergy; simpl. unfold signedInf. decide_R. reflexivity.
Qed.


Lemma normalized_Fin (b : Z) :
  div (sub (ofZ b) (ofZ 128)) (ofZ 128) = Fin ((IZR b - 128) / 128).
Proof.
  unfold sub, ofZ; cbn. rewrite Reqb_false by lra. f_equal; lra.
Qed.

Lemma energy_sum_constant (b : Z) (n : nat) : forall acc : R,
  fold_left
    (fun sum b =>
       let normalized := div (sub (ofZ b) (ofZ 128)) (ofZ 128) in
       add sum (mul normalized normalized))
    (repeat b n) (Fin acc)
  = Fin (acc + IZR (Z.of_nat n) * (((IZR b - 128) / 128) * ((IZR b - 128) / 128))).
Proof.
  induction n as [|n IH]; intros acc.
  - cbn. f_equal; lra.
  - cbn [repeat fold_left]. rewrite normalized_Fin. cbn [mul add].
    rewrite IH, Nat2Z.inj_succ, succ_IZR. f_equal; lra.
Qed.

(** A frame whose samples all have the value [b] has energy
    [|b - 128| / 128]. *)
Lemma calculateEnergy_constant (b : Z) (n : nat) :
  (0 < n)%nat ->
  calculateEnergy (repeat b n) = Fin (Rabs ((IZR b - 128) / 128)).
Proof.
  intros Hn. unfold calculateEnergy. rewrite energy_sum_constant, repeat_length.
  assert (Hpos : (0 < IZR (Z.of_nat n))%R) by (apply IZR_lt; lia).
  unfold ofZ. rewrite div_Fin by lra. cbn [sqrt].
  set (x := ((IZR b - 128) / 128)%R).
  replace ((0 + IZR (Z.of_nat n) * (x * x)) / IZR (Z.of_nat n))%R with (Rsqr x)
    by (unfold Rsqr; field; lra).
  rewrite Rltb_false by apply Rle_0_sqr.
  now rewrite sqrt_Rsqr_abs.
Qed.

Lemma energy_sum_finite (data : list Z) : forall acc : R,
  (0 <= acc)%R ->
  exists s,
    fold_left
      (fun sum b =>
         let normalized := div (sub (ofZ b) (ofZ 128)) (ofZ 128) in
         add sum (mul normalized normalized))
      data (Fin acc) = Fin s /\ (0 <= s)%R.
Proof.
  induction data as [|b data IH]; intros acc Hacc; cbn [fold_left].
  - now exists acc.
  - rewrite normalized_Fin. cbn [mul add]. apply IH.
    pose proof (Rle_0_sqr ((IZR b - 128) / 128)) as Hsq. unfold Rsqr in Hsq. lra.
Qed.

(** The energy of a frame with at least one sample is a finite,
    non-negative number. *)
Lemma calculateEnergy_finite (data : list Z) :
  data <> [] -> exists e, calculateEnergy data = Fin e /\ (0 <= e)%R.
Proof.
  intros Hne. unfold calculateEnergy.
  destruct (energy_sum_finite data 0 (Rle_refl 0)) as (s & Hsum & Hs).
  cbv zeta in *. rewrite Hsum.
  pose proof (length_pos_IZR data Hne) as Hlen.
  unfold ofZ. rewrite div_Fin by lra. cbn [sqrt].
  assert (Hq : (0 <= s / IZR (Z.of_nat (length data)))%R) by (apply div_ge; lra).
  rewrite Rltb_false by assumption.
  eexists; split; [reflexivity | apply sqrt_pos].
Qed.

Lemma crossingsFrom_constant (b : Z) (n : nat) : crossingsFrom b (repeat b n) = 0.
Proof.
  induction n as [|n IH]; cbn; [reflexivity|]. rewrite IH.
  unfold crosses. destruct (Z.geb_spec b 128), (Z.ltb_spec b 128); cbn; lia.
Qed.

(** A constant frame never crosses the midpoint. *)
Lemma calculateZeroCrossingRate_constant (b : Z) (n : nat) :
  (0 < n)%nat -> calculateZeroCrossingRate (repeat b n) = Fin 0.
Proof.
  intros Hn. unfold calculateZeroCrossingRate.
  destruct n as [|n]; [lia|]. cbn [repeat].
  rewrite crossingsFrom_constant. change (b :: repeat b n) with (repeat b (S n)).
  rewrite repeat_length. unfold ofZ.
  rewrite div_Fin by (apply Rgt_not_eq, Rlt_gt, IZR_lt; lia).
  f_equal. lra.
Qed.

(** The bin of a frequency, for a finite bin size and for the infinite
    one that [fftSize = 0] gives. *)
Lemma binOf_Fin (binSize freq : R) :
  binSize <> 0%R -> binOf (Fin binSize) freq = Zfloor (freq / binSize).
Proof.
  intros H. unfold binOf. rewrite div_Fin by assumption. cbn. apply ZfloorZ.
Qed.

Lemma binOf_PosInf (freq : R) : binOf PosInf freq = 0.
Proof.
  unfold binOf; cbn. rewrite ZfloorZ. apply (ZfloorZ 0).
Qed.

(** [Math.floor] returns a finite number in [calculateVoiceEnergy],
    whatever the configuration: the sample rate is positive, so the bin
    size is never zero. *)
Lemma bin_finite (rate : positive) (size freq : R) :
  let binSize := div (Fin (IZR (Zpos rate))) (Fin size) in
  exists z, floor (div (Fin freq) binSize) = ofZ z.
Proof.
  assert (Hrate : (0 < IZR (Zpos rate))%R) by (apply IZR_lt; lia).
  cbn. destruct (Req_dec_T size 0) as [->|Hsize].
  - rewrite Reqb_true by reflexivity. unfold signedInf.
    rewrite Rltb_true by assumption. cbn. now eexists.
  - rewrite Reqb_false by assumption. cbn.
    rewrite Reqb_false; [cbn; now eexists|].
    unfold Rdiv. apply Rmult_integral_contrapositive_currified; [lra|].
    now apply Rinv_neq_0_compat.
Qed.

Lemma nth_repeat_inside (b : Z) (n i : nat) :
  (i < n)%nat -> nth i (repeat b n) 0 = b.
Proof.
  revert i. induction n as [|n IH]; intros i Hi; [lia|].
  destruct i; cbn; [reflexivity | apply IH; lia].
Qed.

Lemma byteAt_constant (b : Z) (n : nat) (i : Z) :
  0 <= i < Z.of_nat n -> byteAt (repeat b n) i = ofZ b.
Proof.
  intros Hi. unfold byteAt. rewrite repeat_length.
  destruct (Z.leb_spec 0 i); [|lia].
  destruct (Z.ltb_spec i (Z.of_nat n)); [|lia].
  cbn [andb]. rewrite nth_repeat_inside by lia. reflexivity.
Qed.

(** The voice-band loop over constant magnitudes. *)
Lemma voiceBandLoop_constant (b : Z) (n steps : nat) : forall i acc count,
  0 <= i -> i + Z.of_nat steps <= Z.of_nat n ->
  voiceBandLoop (repeat b n) steps i (Fin acc) count =
  (Fin (acc + IZR (Z.of_nat steps) * (IZR b / 255)), count + Z.of_nat steps).
Proof.
  induction steps as [|k IH]; intros i acc count Hi Hlen.
  - cbn. f_equal; [f_equal; lra | lia].
  - cbn [voiceBandLoop]. rewrite byteAt_constant by lia.
    unfold ofZ at 1 2. rewrite div_Fin by lra. cbn [add].
    rewrite IH by lia. rewrite Nat2Z.inj_succ, succ_IZR.
    f_equal; [f_equal; lra | lia].
Qed.

(** ** The energy history *)

Lemma lastN_all {A : Type} (n : nat) (l : list A) :
  (length l <= n)%nat -> lastN n l = l.
Proof. intros H. unfold lastN. now replace (length l - n)%nat with O by lia. Qed.

Lemma lastN_length {A : Type} (n : nat) (l : list A) :
  (length (lastN n l) <= n)%nat.
Proof. unfold lastN. rewrite length_skipn. lia. Qed.

Lemma lastN_app_lastN {A : Type} (n : nat) (l1 l2 : list A) :
  lastN n (lastN n l1 ++ l2) = lastN n (l1 ++ l2).
Proof.
  unfold lastN. rewrite !length_app, length_skipn.
  destruct (Nat.le_gt_cases (length l1) n) as [H|H].
  - replace (length l1 - n)%nat with O by lia. cbn [skipn].
    now rewrite Nat.sub_0_r.
  - rewrite !skipn_app, length_skipn, skipn_skipn.
    replace (length l1 - (length l1 - n) + length l2 - n + (length l1 - n))%nat
      with (length l1 + length l2 - n)%nat by lia.
    replace (length l1 - (length l1 - n) + length l2 - n
             - (length l1 - (length l1 - n)))%nat
      with (length l1 + length l2 - n - length l1)%nat by lia.
    reflexivity.
Qed.

Lemma lastN_Forall {A : Type} (P : A -> Prop) (n : nat) (l : list A) :
  Forall P l -> Forall P (lastN n l).
Proof.
  intros H. unfold lastN. rewrite <- (firstn_skipn (length l - n) l) in H.
  now apply Forall_app in H.
Qed.

Lemma lastN_snoc_nonempty {A : Type} (n : nat) (l : list A) (x : A) :
  (0 < n)%nat -> lastN n (l ++ [x]) <> [].
Proof.
  intros Hn H. apply (f_equal (@length A)) in H.
  unfold lastN in H. rewrite length_skipn, length_app in H. cbn in H. lia.
Qed.

(** After the push and the conditional shift, a history of at most ten
    energies is the last ten of the old ones and the new one. *)
Lemma pushEnergy_lastN (history : list number) (e : number) :
  (length history <= energyHistorySize)%nat ->
  pushEnergy history e = lastN energyHistorySize (history ++ [e]).
Proof.
  intros H. unfold pushEnergy, lastN. rewrite length_app; cbn [length].
  destruct (Nat.ltb_spec energyHistorySize (length history + 1)) as [Hlt|Hge].
  - replace (length history + 1 - energyHistorySize)%nat with 1%nat by lia.
    reflexivity.
  - now replace (length history + 1 - energyHistorySize)%nat with O by lia.
Qed.

(** Pushing a finite energy on a finite history. *)
Lemma pushEnergy_Fin (P : R -> Prop) (xs : list R) (e : R) :
  Forall P xs -> P e ->
  exists ys, pushEnergy (map Fin xs) (Fin e) = map Fin ys
             /\ ys <> [] /\ Forall P ys.
Proof.
  intros Hxs He. unfold pushEnergy.
  change [Fin e] with (map Fin [e]). rewrite <- map_app.
  assert (Hall : Forall P (xs ++ [e])) by (apply Forall_app; auto).
  destruct (energyHistorySize <? length (map Fin (xs ++ [e])))%nat eqn:Hlen.
  - exists (tl (xs ++ [e])). split; [now destruct (xs ++ [e])|].
    apply Nat.ltb_lt in Hlen. rewrite length_map in Hlen.
    destruct (xs ++ [e]) as [|y ys]; [cbn in Hlen; lia|]. cbn [tl].
    split; [destruct ys; [cbn in Hlen; unfold energyHistorySize in Hlen; lia | congruence]|].
    now inversion Hall.
  - exists (xs ++ [e]). split; [reflexivity|]. split; [|assumption].
    now destruct xs.
Qed.

(** ** The state machine and its timers *)

(** Splits the goal along every branch of the state machine. *)
Ltac sm_cases :=
  unfold speechStateMachine, emitEvent; cbn;
  repeat match goal with
  | |- context [if ?b then _ else _] => destruct b eqn:?; cbn
  end.

Lemma speechStateMachine_timers d t e c v :
  let r := speechStateMachine d t e c v in
  let a := timerStep (minSpeechDuration (config d)) (minSilenceDuration (config d))
             (timersOf d) t v
             (gt e (mul (Fin (energyThreshold (config d))) (Fin 0.5))) in
  timersOf (fst r) = fst a
  /\ map signalOf (snd r) = (if onActivityCallback d then snd a else [])
  /\ Forall (fun event => energy event = e /\ confidence event = c) (snd r)
  /\ set_isSpeaking (isSpeaking d)
       (set_speechStartTime (speechStartTime d)
          (set_lastSpeechTime (lastSpeechTime d)
             (set_silenceStartTime (silenceStartTime d) (fst r)))) = d.
Proof.
  destruct d as [ctx an src af cfg sp sst lst silst hist cb].
  unfold speechStateMachine, emitEvent, timerStep, timersOf; cbn -[gt mul].
  destruct v, sp, cb; cbn -[gt mul];
    repeat match goal with
    | |- context [if ?b then _ else _] => destruct b eqn:?; cbn -[gt mul]
    end;
    cbn -[gt mul] in *; try congruence;
    repeat split; try reflexivity; repeat constructor; cbn; auto.
Qed.

Lemma detect_timers d tk :
  analyser d <> None ->
  let r := detect d tk in
  let a := timerStep (minSpeechDuration (config d)) (minSilenceDuration (config d))
             (timersOf d) (now tk) (heard d tk) (noisy d tk) in
  timersOf (fst r) = fst a
  /\ map signalOf (snd r) = (if onActivityCallback d then snd a else [])
  /\ Forall (fun event => energy event = frameEnergy tk
                          /\ confidence event = frameConfidence d tk) (snd r)
  /\ config (fst r) = config d
  /\ onActivityCallback (fst r) = onActivityCallback d
  /\ analyser (fst r) = analyser d
  /\ audioContext (fst r) = audioContext d
  /\ energyHistory (fst r) = pushEnergy (energyHistory d) (frameEnergy tk).
Proof.
  intros Han. unfold detect. destruct (analyser d) eqn:E; [|congruence].
  match goal with
  | |- context [speechStateMachine ?d' ?t ?e ?c ?v] =>
      pose proof (speechStateMachine_timers d' t e c v) as K;
      destruct (speechStateMachine d' t e c v) as [d2 evs]
  end.
  cbn [fst snd] in *. destruct K as (K1 & K2 & K3 & K4).
  split; [exact K1|]. split; [exact K2|]. split; [exact K3|].
  apply (f_equal (fun x => (config x, onActivityCallback x, analyser x,
                            audioContext x, energyHistory x))) in K4.
  cbn in K4. inversion K4 as [[H1 H2 H3 H4 H5]].
  cbn. rewrite H1, H2, H3, H4, H5. repeat split. now symmetry.
Qed.

Lemma detect_idle d tk : analyser d = None -> detect d tk = (d, []).
Proof. intros H. unfold detect. now rewrite H. Qed.

Lemma detect_config d tk : config (fst (detect d tk)) = config d.
Proof.
  destruct (analyser d) eqn:Han.
  - apply detect_timers. congruence.
  - now rewrite detect_idle.
Qed.

(** The fields of a detector, read off its timers. *)
Lemma timersOf_fields d s :
  timersOf d = s ->
  isSpeaking d = speaking s /\ speechStartTime d = speechStart s
  /\ lastSpeechTime d = lastSpeech s /\ silenceStartTime d = silenceStart s.
Proof. intros <-. repeat split. Qed.

Lemma stop_timers d : timersOf (fst (stop d)) = mkTimers false 0 0 0.
Proof.
  unfold stop. destruct (scheduled d), (sourceNode _), (audioContext _); reflexivity.
Qed.

Lemma stop_keeps_history d : energyHistory (fst (stop d)) = energyHistory d.
Proof.
  unfold stop. destruct (scheduled d), (sourceNode _), (audioContext _); reflexivity.
Qed.

(** Every operation either runs the timers one step, leaves them, or
    (for [stop]) clears them. *)
Lemma exec_timers d op :
  match running d op with
  | Some (d', tk) =>
      let a := timerStep (minSpeechDuration (config d)) (minSilenceDuration (config d))
                 (timersOf d) (now tk) (heard d' tk) (noisy d' tk) in
      timersOf (fst (exec d op)) = fst a
      /\ (forall ev, In ev (snd (exec d op)) -> In (signalOf ev) (snd a))
      /\ config d' = config d
  | None =>
      snd (exec d op) = []
      /\ (timersOf (fst (exec d op)) = timersOf d
          \/ timersOf (fst (exec d op)) = mkTimers false 0 0 0)
  end.
Proof.
  assert (Hdetect : forall d' tk, analyser d' <> None ->
            let a := timerStep (minSpeechDuration (config d'))
                       (minSilenceDuration (config d')) (timersOf d') (now tk)
                       (heard d' tk) (noisy d' tk) in
            timersOf (fst (detect d' tk)) = fst a
            /\ (forall ev, In ev (snd (detect d' tk)) -> In (signalOf ev) (snd a))).
  { intros d' tk Han. destruct (detect_timers d' tk Han) as (T1 & T2 & _).
    split; [exact T1|]. intros ev Hev. apply (in_map signalOf) in Hev.
    rewrite T2 in Hev. destruct (onActivityCallback d'); [exact Hev | contradiction]. }
  destruct op as [tk|cb tk|p|]; cbn [running exec].
  - destruct (analyser d) eqn:Han.
    + destruct (Hdetect d tk) as [H1 H2]; [congruence|]. auto.
    + rewrite detect_idle by assumption. auto.
  - unfold init. destruct (Hdetect (connect d cb) tk) as [H1 H2]; [cbn; congruence|].
    auto.
  - auto.
  - split; [reflexivity|]. right. apply stop_timers.
Qed.

(** ** Runs *)

Lemma execs_app d ops1 ops2 :
  execs d (ops1 ++ ops2) =
  (fst (execs (fst (execs d ops1)) ops2),
   snd (execs d ops1) ++ snd (execs (fst (execs d ops1)) ops2)).
Proof.
  revert d. induction ops1 as [|op ops1 IH]; intros d; cbn.
  - now destruct (execs d ops2).
  - destruct (exec d op) as [d1 ev1]. rewrite IH.
    destruct (execs d1 ops1) as [d2 ev2]; cbn.
    now rewrite app_assoc.
Qed.

Lemma execs_snoc d ops op :
  execs d (ops ++ [op]) =
  (fst (exec (fst (execs d ops)) op),
   snd (execs d ops) ++ snd (exec (fst (execs d ops)) op)).
Proof.
  rewrite execs_app. cbn [execs].
  destruct (exec (fst (execs d ops)) op) as [d1 ev1]. cbn. now rewrite app_nil_r.
Qed.

Lemma polls_app d ticks1 ticks2 :
  polls d (ticks1 ++ ticks2) =
  (fst (polls (fst (polls d ticks1)) ticks2),
   snd (polls d ticks1) ++ snd (polls (fst (polls d ticks1)) ticks2)).
Proof.
  revert d. induction ticks1 as [|tk ticks1 IH]; intros d; cbn.
  - now destruct (polls d ticks2).
  - destruct (detect d tk) as [d1 ev1]. rewrite IH.
    destruct (polls d1 ticks1) as [d2 ev2]; cbn. now rewrite app_assoc.
Qed.

Lemma polls_config ticks : forall d, config (fst (polls d ticks)) = config d.
Proof.
  induction ticks as [|tk ticks IH]; intros d; cbn; [reflexivity|].
  pose proof (detect_config d tk) as H. destruct (detect d tk) as [d1 ev1].
  specialize (IH d1). destruct (polls d1 ticks). cbn in *. congruence.
Qed.

Lemma polls_idle ticks d : analyser d = None -> polls d ticks = (d, []).
Proof.
  intros Han. induction ticks as [|tk ticks IH]; cbn; [reflexivity|].
  now rewrite detect_idle, IH.
Qed.

Lemma polls_analyser ticks : forall d, analyser (fst (polls d ticks)) = analyser d.
Proof.
  induction ticks as [|tk ticks IH]; intros d; cbn; [reflexivity|].
  assert (H : analyser (fst (detect d tk)) = analyser d).
  { destruct (analyser d) eqn:Han.
    - rewrite <- Han. apply detect_timers. congruence.
    - now rewrite detect_idle. }
  destruct (detect d tk) as [d1 ev1].
  specialize (IH d1). destruct (polls d1 ticks). cbn in *. congruence.
Qed.

Lemma execs_polls ticks : forall d, execs d (map Poll ticks) = polls d ticks.
Proof.
  induction ticks as [|tk ticks IH]; intros d; cbn; [reflexivity|].
  destruct (detect d tk) as [d1 ev1]. now rewrite IH.
Qed.

Lemma execs_init_polls d onActivity tk ticks :
  execs d (Init onActivity tk :: map Poll ticks) =
  polls (connect d onActivity) (tk :: ticks).
Proof.
  cbn [execs exec polls]. unfold init.
  destruct (detect (connect d onActivity) tk) as [d1 ev1].
  now rewrite execs_polls.
Qed.

Lemma opTicks_cons op ops : opTicks (op :: ops) = opTicks [op] ++ opTicks ops.
Proof. unfold opTicks; cbn. now rewrite app_nil_r. Qed.

Lemma alongRun_app P ops1 : forall d ops2,
  alongRun P d (ops1 ++ ops2) <->
  alongRun P d ops1 /\ alongRun P (fst (execs d ops1)) ops2.
Proof.
  induction ops1 as [|op ops1 IH]; intros d ops2; cbn [app alongRun execs].
  - cbn. tauto.
  - rewrite IH. destruct (exec d op) as [d1 ev1]; cbn [fst].
    destruct (execs d1 ops1); cbn [fst]. tauto.
Qed.

(** A decomposition [ops = pre ++ vop :: mid] extends by one operation. *)
Lemma alongRun_extend P d0 ops pre vop mid op :
  ops = pre ++ vop :: mid ->
  alongRun P (fst (execs d0 (pre ++ [vop]))) mid ->
  P (fst (execs d0 ops)) op ->
  ops ++ [op] = pre ++ vop :: (mid ++ [op])
  /\ alongRun P (fst (execs d0 (pre ++ [vop]))) (mid ++ [op]).
Proof.
  intros -> Hmid Hop. split; [now rewrite <- app_assoc|].
  apply alongRun_app. split; [exact Hmid|]. cbn [alongRun]. split; [|exact I].
  replace (pre ++ vop :: mid) with ((pre ++ [vop]) ++ mid) in Hop
    by now rewrite <- app_assoc.
  now rewrite execs_app in Hop.
Qed.

(** ** One step of the timers *)

Lemma timerStep_voice ms me s t n :
  lastSpeech (fst (timerStep ms me s t true n)) = t.
Proof.
  unfold timerStep. destruct s as [sp sst lst silst]; cbn.
  destruct sp; cbn; [reflexivity|].
  destruct (sst =? 0); [reflexivity|]. now destruct (t - sst >=? ms).
Qed.

Lemma timerStep_silence ms me s t n :
  let s' := fst (timerStep ms me s t false n) in
  lastSpeech s' = lastSpeech s /\ (speaking s' = true -> speaking s = true).
Proof.
  unfold timerStep. destruct s as [sp sst lst silst]; cbn.
  destruct sp; cbn.
  - destruct (silst =? 0); cbn; [auto|]. destruct (t - silst >=? me); cbn; auto.
  - destruct (negb (sst =? 0) && (t - sst <? ms)); cbn; auto.
Qed.

Lemma timerStep_speech_end ms me s t v n sg :
  In sg (snd (timerStep ms me s t v n)) ->
  (fst (fst sg) <> speech_end -> snd sg = None)
  /\ (fst (fst sg) = speech_end ->
      v = false /\ speaking s = true
      /\ sg = (speech_end, t, Some (t - lastSpeech s + me))).
Proof.
  unfold timerStep. destruct s as [sp sst lst silst]; cbn.
  destruct v, sp; cbn;
    repeat match goal with
    | |- context [if ?b then _ else _] => destruct b; cbn
    end;
    intros H; repeat (destruct H as [<-|H]; [cbn; split; intros; try congruence; auto|]);
    contradiction.
Qed.

Lemma timerStep_speech_start ms me s t v n sg :
  In sg (snd (timerStep ms me s t v n)) ->
  fst (fst sg) = speech_start ->
  v = true /\ speaking s = false /\ speechStart s <> 0
  /\ t - speechStart s >= ms /\ sg = (speech_start, t, None).
Proof.
  unfold timerStep. destruct s as [sp sst lst silst]; cbn.
  destruct v, sp; cbn;
    repeat match goal with
    | |- context [if ?b then _ else _] => destruct b eqn:?; cbn
    end;
    intros H; repeat (destruct H as [<-|H]; [cbn; intros; try congruence|]);
    try contradiction.
  repeat split; lia.
Qed.

(** When the timers are counting toward a start after a step, either
    the step began the count on a frame with voice, or the count was
    already running and the frame, if it had no voice, came too late to
    discard it. *)
Lemma timerStep_counting ms me s t v n :
  let s' := fst (timerStep ms me s t v n) in
  speaking s' = false -> speechStart s' <> 0 ->
  speaking s = false
  /\ (v = true ->
      (speechStart s = 0 /\ speechStart s' = t)
      \/ (speechStart s <> 0 /\ speechStart s' = speechStart s))
  /\ (v = false -> speechStart s' = speechStart s /\ t - speechStart s >= ms).
Proof.
  unfold timerStep. destruct s as [sp sst lst silst]; cbn.
  destruct v, sp; cbn;
    repeat match goal with
    | |- context [if ?b then _ else _] => destruct b eqn:?; cbn
    end;
    intros H1 H2; repeat split; intros; try congruence; try lia.
Qed.

(** Inside a window shorter than [minSpeechDuration] the timers confirm
    no start, and a frame without voice discards the count. *)
Lemma timerStep_window ms me s t v n t0 :
  speaking s = false ->
  speechStart s = 0 \/ t0 <= speechStart s < t0 + ms ->
  t0 <= t < t0 + ms ->
  let r := timerStep ms me s t v n in
  speaking (fst r) = false
  /\ (speechStart (fst r) = 0 \/ t0 <= speechStart (fst r) < t0 + ms)
  /\ (v = false -> speechStart (fst r) = 0)
  /\ Forall (fun sg => fst (fst sg) <> speech_start) (snd r).
Proof.
  unfold timerStep. destruct s as [sp sst lst silst]; cbn. intros -> Hsst Ht.
  destruct v; cbn;
    repeat match goal with
    | |- context [if ?b then _ else _] => destruct b eqn:?; cbn
    end;
    repeat split; intros; try congruence; try lia;
      repeat constructor; cbn; congruence.
Qed.

(** ** The two reference frames *)

(** With the default band, 1024 constant magnitudes [b] give the
    voice-band energy [b / 255]: bins 10 to 434 are averaged. *)
Lemma calculateVoiceEnergy_constant (d : Detector) (b : Z) :
  defaultListening d ->
  calculateVoiceEnergy d (repeat b frameLength) = Fin (IZR b / 255).
Proof.
  intros (_ & Hctx & _ & _ & Hfft & Hmin & Hmax & _).
  unfold calculateVoiceEnergy. rewrite Hctx, Hfft, Hmin, Hmax. cbn [sampleRate].
  rewrite div_Fin by lra.
  rewrite !binOf_Fin by lra.
  rewrite (Zfloor_eq 10 (85 / _)) by lra.
  rewrite (Zfloor_eq 435 (3400 / _)) by lra.
  rewrite repeat_length.
  replace (Z.to_nat (Z.min 435 (Z.of_nat frameLength) - 10)) with 425%nat
    by (unfold frameLength; lia).
  rewrite voiceBandLoop_constant by (unfold frameLength; lia).
  replace (Z.of_nat 425) with 425 by lia.
  change (0 + 425) with 425. change (0 <? 425) with true. cbv iota.
  unfold ofZ. rewrite div_Fin by lra. f_equal. lra.
Qed.


Lemma frameEnergy_voicedTick t : frameEnergy (voicedTick t) = Fin (127 / 128).
Proof.
  unfold frameEnergy, voicedTick; cbn [timeDomainData].
  rewrite calculateEnergy_constant by (unfold frameLength; lia).
  rewrite Rabs_pos_eq by lra. f_equal; lra.
Qed.

Lemma frameEnergy_silentTick t : frameEnergy (silentTick t) = Fin 0.
Proof.
  unfold frameEnergy, silentTick; cbn [timeDomainData].
  rewrite calculateEnergy_constant by (unfold frameLength; lia).
  replace ((128 - 128) / 128)%R with 0%R by lra. now rewrite Rabs_R0.
Qed.

(** In a detector at the default thresholds the threshold of a frame of
    energy [e] is finite, at least 0.02 and at most 1.5 times the energy
    of [voicedTick]. *)
Lemma frameThreshold_default d tk (e : R) :
  defaultListening d -> frameEnergy tk = Fin e -> (0 <= e <= 127 / 128)%R ->
  exists a, frameThreshold d tk = Fin a /\ (0.02 <= a <= 1.5 * (127 / 128))%R.
Proof.
  intros (_ & _ & Hthr & _ & _ & _ & _ & xs & Hhist & Hxs) He Hbound.
  unfold frameThreshold. rewrite Hhist, He.
  destruct (pushEnergy_Fin _ xs e Hxs Hbound) as (ys & -> & Hne & Hys).
  rewrite adaptiveThreshold_Fin by assumption. rewrite Hthr.
  eexists; split; [reflexivity|].
  pose proof (mean_bounds _ ys Hne Hys) as Hm.
  unfold Rmax. destruct (Rle_dec _ _); lra.
Qed.

Lemma voicedTick_confident d t :
  defaultListening d ->
  exists c, frameConfidence d (voicedTick t) = Fin c /\ (0.7 < c)%R.
Proof.
  intros Hd.
  destruct (frameThreshold_default d (voicedTick t) _ Hd (frameEnergy_voicedTick t))
    as (a & Ha & Hlo & Hhi); [lra|].
  unfold frameConfidence. rewrite Ha, frameEnergy_voicedTick.
  unfold voicedTick; cbn [frequencyData timeDomainData].
  rewrite calculateVoiceEnergy_constant by assumption.
  rewrite calculateZeroCrossingRate_constant by (unfold frameLength; lia).
  rewrite confidenceScore_Fin by lra.
  destruct Hd as (_ & _ & _ & Hz & _). rewrite Hz. cbn [lt].
  rewrite Rltb_true by lra.
  eexists; split; [reflexivity|].
  assert (H1 : (2 / 3 <= Rmin 1 (127 / 128 / a))%R)
    by (apply Rmin_glb; [lra | apply div_ge; lra]).
  assert (H2 : (0.67 <= Rmin 1 (255 / 255 / a))%R)
    by (apply Rmin_glb; [lra | apply div_ge; lra]).
  lra.
Qed.

Lemma silentTick_confident d t :
  defaultListening d -> frameConfidence d (silentTick t) = Fin (0 + 0 + 0.1).
Proof.
  intros Hd.
  destruct (frameThreshold_default d (silentTick t) _ Hd (frameEnergy_silentTick t))
    as (a & Ha & Hlo & Hhi); [lra|].
  unfold frameConfidence. rewrite Ha, frameEnergy_silentTick.
  unfold silentTick; cbn [frequencyData timeDomainData].
  rewrite calculateVoiceEnergy_constant by assumption.
  rewrite calculateZeroCrossingRate_constant by (unfold frameLength; lia).
  rewrite confidenceScore_Fin by lra.
  destruct Hd as (_ & _ & _ & Hz & _). rewrite Hz. cbn [lt].
  rewrite Rltb_true by lra.
  replace (0 / a)%R with 0%R by (unfold Rdiv; ring).
  replace (0 / 255 / a)%R with 0%R by (unfold Rdiv; ring).
  rewrite Rmin_right by lra. f_equal. lra.
Qed.

(** [voicedTick] is heard as voice, [silentTick] is not and is not
    noise either. *)
Lemma voicedTick_present d t :
  defaultListening d -> voicePresent (frameConfidence d (voicedTick t)) = true.
Proof.
  intros Hd. destruct (voicedTick_confident d t Hd) as (c & -> & Hc).
  cbn. apply Rltb_true. lra.
Qed.

Lemma silentTick_absent d t :
  defaultListening d ->
  voicePresent (frameConfidence d (silentTick t)) = false
  /\ gt (frameEnergy (silentTick t))
        (mul (Fin (energyThreshold (config d))) (Fin 0.5)) = false.
Proof.
  intros Hd. rewrite silentTick_confident, frameEnergy_silentTick by assumption.
  destruct Hd as (_ & _ & -> & _). cbn.
  split; apply Rltb_false; lra.
Qed.

Lemma listeningDetector_default : defaultListening listeningDetector.
Proof.
  unfold defaultListening; cbn. repeat split; try congruence.
  exists []. split; [reflexivity | constructor].
Qed.

(** ** Reference sessions run like their timers *)

Lemma heard_tickOf d x : defaultListening d -> heard d (tickOf x) = snd x.
Proof.
  intros Hd. destruct x as [t [|]]; unfold tickOf, heard; cbn [fst snd].
  - now apply voicedTick_present.
  - now apply silentTick_absent.
Qed.

Lemma frameEnergy_tickOf x :
  exists e, frameEnergy (tickOf x) = Fin e /\ (0 <= e <= 127 / 128)%R.
Proof.
  destruct x as [t [|]]; unfold tickOf; cbn [fst snd].
  - rewrite frameEnergy_voicedTick. eexists; split; [reflexivity | lra].
  - rewrite frameEnergy_silentTick. eexists; split; [reflexivity | lra].
Qed.

Lemma detect_tickOf d x :
  defaultListening d -> onActivityCallback d = true ->
  let r := detect d (tickOf x) in
  timersOf (fst r) =
    fst (timerStep (minSpeechDuration (config d)) (minSilenceDuration (config d))
           (timersOf d) (fst x) (snd x) false)
  /\ map signalOf (snd r) =
     snd (timerStep (minSpeechDuration (config d)) (minSilenceDuration (config d))
            (timersOf d) (fst x) (snd x) false)
  /\ defaultListening (fst r)
  /\ onActivityCallback (fst r) = true
  /\ config (fst r) = config d.
Proof.
  intros Hd Hcb.
  assert (Han : analyser d <> None) by apply Hd.
  destruct (detect_timers d (tickOf x) Han)
    as (T1 & T2 & _ & Tcfg & Tcb & Tan & Tctx & Thist).
  rewrite Hcb in T2. rewrite heard_tickOf in T1, T2 by assumption.
  assert (Hnow : now (tickOf x) = fst x) by (destruct x as [t [|]]; reflexivity).
  rewrite Hnow in T1, T2.
  assert (Hnoisy : snd x = false -> noisy d (tickOf x) = false).
  { destruct x as [t v]; cbn [snd]; intros ->. unfold tickOf, noisy; cbn [snd fst].
    now apply silentTick_absent. }
  cbv zeta. split; [|split; [|split; [|split]]].
  - rewrite T1. destruct (snd x); [reflexivity | now rewrite Hnoisy].
  - rewrite T2. destruct (snd x); [reflexivity | now rewrite Hnoisy].
  - destruct Hd as (_ & Hctx & H1 & H2 & H3 & H4 & H5 & xs & Hhist & Hxs).
    destruct (frameEnergy_tickOf x) as (e & He & Hbound).
    destruct (pushEnergy_Fin _ xs e Hxs Hbound) as (ys & Hys & _ & Hall).
    unfold defaultListening. rewrite Tan, Tctx, Tcfg, Thist, Hhist, He, Hys.
    repeat split; auto. now exists ys.
  - congruence.
  - exact Tcfg.
Qed.

Lemma polls_tickOf script : forall d,
  defaultListening d -> onActivityCallback d = true ->
  let r := polls d (map tickOf script) in
  let a := runTimers (minSpeechDuration (config d)) (minSilenceDuration (config d))
             (timersOf d) (scheduleOf script) in
  timersOf (fst r) = fst a /\ map signalOf (snd r) = snd a.
Proof.
  induction script as [|x script IH]; intros d Hd Hcb; cbn [map polls scheduleOf runTimers].
  - split; reflexivity.
  - destruct (detect_tickOf d x Hd Hcb) as (T1 & T2 & Hd1 & Hcb1 & Hcfg).
    destruct (detect d (tickOf x)) as [d1 ev1]. cbn [fst snd] in *.
    specialize (IH d1 Hd1 Hcb1). rewrite Hcfg in IH. cbv zeta in IH.
    destruct (polls d1 (map tickOf script)) as [d2 ev2]. cbn [fst snd] in *.
    destruct (timerStep _ _ (timersOf d) (fst x) (snd x) false) as [s1 sg1].
    cbn [fst snd] in *. subst s1 sg1.
    fold (scheduleOf script).
    destruct (runTimers _ _ (timersOf d1) (scheduleOf script)) as [s2 sg2].
    cbn [fst snd] in *. destruct IH as [-> <-].
    split; [reflexivity | apply map_app].
Qed.

(** Reference frames keep a detector at the default thresholds. *)
Lemma polls_tickOf_state script : forall d,
  defaultListening d -> onActivityCallback d = true ->
  defaultListening (fst (polls d (map tickOf script)))
  /\ onActivityCallback (fst (polls d (map tickOf script))) = true.
Proof.
  induction script as [|x script IH]; intros d Hd Hcb; cbn [map polls].
  - auto.
  - destruct (detect_tickOf d x Hd Hcb) as (_ & _ & Hd1 & Hcb1 & _).
    destruct (detect d (tickOf x)) as [d1 ev1]. cbn [fst] in *.
    specialize (IH d1 Hd1 Hcb1).
    now destruct (polls d1 (map tickOf script)).
Qed.

(** A reference session of a detector built with the default
    configuration emits what its timers emit, with the default
    durations. *)
Lemma referenceSession_timers (script : list (Z * bool)) :
  let r := execs (newDetector noChange) (referenceSession script) in
  let a := runTimers 300 800 (mkTimers false 0 0 0) (scheduleOf script) in
  timersOf (fst r) = fst a /\ map signalOf (snd r) = snd a.
Proof.
  destruct script as [|x script]; [split; reflexivity|].
  unfold referenceSession. rewrite <- (map_map tickOf Poll).
  rewrite execs_init_polls.
  assert (Hd0 : defaultListening (connect (newDetector noChange) true)).
  { unfold defaultListening; cbn. repeat split; try congruence.
    exists []. split; [reflexivity | constructor]. }
  exact (polls_tickOf (x :: script) _ Hd0 eq_refl).
Qed.

(** Polling does not touch the configuration. *)
Lemma referenceSession_config script :
  config (fst (execs (newDetector noChange) (referenceSession script))) =
  DEFAULT_CONFIG.
Proof.
  destruct script as [|x script]; [reflexivity|].
  unfold referenceSession. rewrite <- (map_map tickOf Poll), execs_init_polls.
  now rewrite polls_config.
Qed.

Lemma referenceSession_state x script :
  let d := fst (execs (newDetector noChange) (referenceSession (x :: script))) in
  defaultListening d /\ onActivityCallback d = true.
Proof.
  unfold referenceSession. rewrite <- (map_map tickOf Poll), execs_init_polls.
  exact (polls_tickOf_state (x :: script) _ listeningDetector_default eq_refl).
Qed.

(** The events of [twoUtterances]: each utterance is confirmed 300 ms
    after it begins, and the first one ends after 800 ms of silence. *)
Lemma twoUtterances_events :
  map signalOf (snd (execs (newDetector noChange) (referenceSession twoUtterances)))
  = [(speech_start, 1300, None); (speech_active, 1400, None);
     (speech_end, 2800, Some 2200); (speech_start, 3300, None)].
Proof.
  destruct (referenceSession_timers twoUtterances) as [_ H]. rewrite H.
  vm_compute. reflexivity.
Qed.

(** The events of [twoShortPulses]: none. *)
Lemma twoShortPulses_events :
  snd (execs (newDetector noChange) (referenceSession twoShortPulses)) = [].
Proof.
  destruct (referenceSession_timers twoShortPulses) as [_ H].
  destruct (snd (execs _ _)); [reflexivity|]. vm_compute in H. discriminate.
Qed.

(** ** C1: speech end and the silence timer *)

(** C1 fails on the code.  With the default durations (800 ms of
    silence), speech is confirmed at 1300; one silent frame at 2000
    starts the silence timer; voice returns at 2100 and the timer is not
    reset ([silenceStartTime] is still 2000).  The next silent frame, at
    2800, then ends the speech although voice was present 700 ms
    earlier, and the voice frame at 2900 finds the detector no longer
    speaking. *)
Theorem speech_end_after_renewed_voice :
  let script :=
    [(1000, true); (1300, true); (2000, false); (2100, true); (2800, false);
     (2900, true)] in
  let before := execs (newDetector noChange) (referenceSession (firstn 4 script)) in
  let whole := execs (newDetector noChange) (referenceSession script) in
  minSilenceDuration (config (fst before)) = 800
  /\ map signalOf (snd before) =
     [(speech_start, 1300, None); (speech_active, 2100, None)]
  /\ isSpeaking (fst before) = true
  /\ silenceStartTime (fst before) = 2000
  /\ map signalOf (snd whole) =
     [(speech_start, 1300, None); (speech_active, 2100, None);
      (speech_end, 2800, Some 1500)]
  /\ isSpeaking (fst whole) = false.
Proof.
  cbv zeta.
  set (script := [(1000, true); (1300, true); (2000, false); (2100, true);
                  (2800, false); (2900, true)]).
  destruct (referenceSession_timers script) as [Hend Hwhole].
  destruct (referenceSession_timers (firstn 4 script)) as [Hstate Hbefore].
  rewrite (referenceSession_config (firstn 4 script)).
  apply timersOf_fields in Hstate as (Hsp & _ & _ & Hsil).
  apply timersOf_fields in Hend as (Hsp' & _).
  rewrite Hwhole, Hbefore, Hsp, Hsil, Hsp'.
  vm_compute. repeat split; reflexivity.
Qed.

(** ** C2: speech start and the speech timer *)

(** Inside a window shorter than [minSpeechDuration], a run of
    [detect] confirms no start, and neither do several runs. *)
Lemma detect_window d tk t0 :
  isSpeaking d = false ->
  speechStartTime d = 0
  \/ t0 <= speechStartTime d < t0 + minSpeechDuration (config d) ->
  t0 <= now tk < t0 + minSpeechDuration (config d) ->
  let r := detect d tk in
  isSpeaking (fst r) = false
  /\ (speechStartTime (fst r) = 0
      \/ t0 <= speechStartTime (fst r) < t0 + minSpeechDuration (config d))
  /\ (analyser d <> None -> heard d tk = false -> speechStartTime (fst r) = 0)
  /\ Forall (fun ev => type ev <> speech_start) (snd r).
Proof.
  intros Hsp Hsst Ht. destruct (analyser d) eqn:Han.
  - assert (Han' : analyser d <> None) by congruence.
    destruct (detect_timers d tk Han') as (T1 & T2 & _).
    apply timersOf_fields in T1 as (F1 & F2 & _).
    match type of F1 with
    | _ = speaking (fst (timerStep ?ms ?me ?s ?t ?v ?n)) =>
        destruct (timerStep_window ms me s t v n t0 Hsp Hsst Ht) as (W1 & W2 & W3 & W4)
    end.
    cbv zeta. rewrite F1, F2. repeat split; auto.
    apply Forall_forall. intros ev Hev. apply (in_map signalOf) in Hev.
    rewrite T2 in Hev. destruct (onActivityCallback d); [|contradiction].
    rewrite Forall_forall in W4. exact (W4 _ Hev).
  - rewrite detect_idle by assumption. cbn. repeat split; auto. congruence.
Qed.

Lemma polls_window ticks t0 : forall d,
  isSpeaking d = false ->
  speechStartTime d = 0
  \/ t0 <= speechStartTime d < t0 + minSpeechDuration (config d) ->
  (forall tk, In tk ticks -> t0 <= now tk < t0 + minSpeechDuration (config d)) ->
  let r := polls d ticks in
  isSpeaking (fst r) = false
  /\ (speechStartTime (fst r) = 0
      \/ t0 <= speechStartTime (fst r) < t0 + minSpeechDuration (config d))
  /\ Forall (fun ev => type ev <> speech_start) (snd r).
Proof.
  induction ticks as [|tk ticks IH]; intros d Hsp Hsst Hin; cbn [polls].
  - cbn. auto.
  - destruct (detect_window d tk t0 Hsp Hsst) as (D1 & D2 & _ & D4);
      [apply Hin; now left|].
    pose proof (detect_config d tk) as Hcfg.
    destruct (detect d tk) as [d1 ev1]. cbn [fst snd] in *.
    rewrite <- Hcfg in D2, Hin.
    destruct (IH d1 D1 D2) as (P1 & P2 & P3); [intros; apply Hin; now right|].
    destruct (polls d1 ticks) as [d2 ev2]. cbn [fst snd] in *.
    rewrite Hcfg in P2. repeat split; auto. now apply Forall_app.
Qed.

(** Over a schedule of flickers no [speech_start] is emitted, and every
    group leaves the detector as it found it: not speaking and not
    counting. *)
Lemma flickering_rejected d ticks :
  flickering d ticks ->
  isSpeaking d = false -> speechStartTime d = 0 ->
  let r := polls d ticks in
  Forall (fun ev => type ev <> speech_start) (snd r)
  /\ isSpeaking (fst r) = false /\ speechStartTime (fst r) = 0.
Proof.
  induction 1 as [d|d pulse silent rest t0 Hwin Hsil Hrest IH]; intros Hsp Hsst.
  - cbn. auto.
  - change (pulse ++ silent :: rest) with (pulse ++ [silent] ++ rest).
    rewrite app_assoc, polls_app. cbn [fst snd].
    rewrite polls_app in *. cbn [fst snd polls] in *.
    destruct (polls_window pulse t0 d Hsp (or_introl Hsst)) as (P1 & P2 & P3);
      [intros; apply Hwin, in_or_app; now left|].
    set (d1 := fst (polls d pulse)) in *.
    assert (Hcfg : config d1 = config d) by apply polls_config.
    rewrite <- Hcfg in P2.
    destruct (detect_window d1 silent t0 P1 P2) as (D1 & D2 & D3 & D4).
    { rewrite Hcfg. apply Hwin, in_or_app. right. now left. }
    assert (Hsst1 : speechStartTime (fst (detect d1 silent)) = 0).
    { destruct (analyser d1) eqn:Han.
      - apply D3; [congruence | exact Hsil].
      - rewrite detect_idle by assumption. cbn.
        assert (Hd : analyser d = None)
          by (rewrite <- Han; symmetry; apply polls_analyser).
        unfold d1. now rewrite polls_idle. }
    destruct (detect d1 silent) as [d2 ev2]. cbn [fst snd] in *.
    rewrite app_nil_r.
    destruct (IH D1 Hsst1) as (R1 & R2 & R3).
    destruct (polls d2 rest) as [d3 ev3]. cbn [fst snd] in *.
    repeat split; auto. repeat (apply Forall_app; split); auto.
Qed.

Lemma voiceAt_lateIfSilent d op t t0 : voiceAt d op = Some t -> lateIfSilent t0 d op.
Proof.
  unfold voiceAt, lateIfSilent. destruct (running d op) as [[d' tk]|]; [|auto].
  destruct (heard d' tk); intros; congruence.
Qed.

(** How a step can leave the detector counting toward a start. *)
Lemma exec_counting d op :
  let d1 := fst (exec d op) in
  isSpeaking d1 = false -> speechStartTime d1 <> 0 ->
  isSpeaking d = false
  /\ match voiceAt d op with
     | Some t =>
         (speechStartTime d = 0 /\ speechStartTime d1 = t)
         \/ (speechStartTime d <> 0 /\ speechStartTime d1 = speechStartTime d)
     | None =>
         speechStartTime d <> 0 /\ speechStartTime d1 = speechStartTime d
         /\ lateIfSilent (speechStartTime d) d op
     end.
Proof.
  pose proof (exec_timers d op) as H. unfold voiceAt, lateIfSilent.
  destruct (running d op) as [[d' tk]|].
  - destruct H as (H1 & _ & Hcfg).
    apply timersOf_fields in H1 as (Hsp & Hsst & _).
    cbv zeta. rewrite Hsp, Hsst. intros K1 K2.
    match type of K1 with
    | speaking (fst (timerStep ?ms ?me ?s ?t ?v ?n)) = _ =>
        destruct (timerStep_counting ms me s t v n K1 K2) as (C1 & C2 & C3)
    end.
    split; [exact C1|]. destruct (heard d' tk).
    + apply C2. reflexivity.
    + destruct (C3 eq_refl) as [C4 C5]. cbn [timersOf speechStart] in C4, C5.
      split; [congruence|]. split; [exact C4|].
      intros _. rewrite Hcfg. exact C5.
  - destruct H as (_ & [H|H]); apply timersOf_fields in H as (Hsp & Hsst & _);
      cbv zeta; rewrite Hsp, Hsst; cbn; intros; auto; congruence.
Qed.

(** Where a [speech_start] comes from. *)
Lemma exec_speech_start d op ev :
  In ev (snd (exec d op)) ->
  type ev = speech_start ->
  exists t,
    voiceAt d op = Some t /\ timestamp ev = t
    /\ isSpeaking d = false /\ speechStartTime d <> 0
    /\ t - speechStartTime d >= minSpeechDuration (config d).
Proof.
  intros Hev Hty. pose proof (exec_timers d op) as H. unfold voiceAt.
  destruct (running d op) as [[d' tk]|].
  - destruct H as (_ & H2 & Hcfg). specialize (H2 ev Hev).
    apply timerStep_speech_start in H2 as (Hv & Hsp & Hsst & Hlate & Hsg); [|exact Hty].
    rewrite Hv. exists (now tk). inversion Hsg as [[E1 E2 E3]].
    cbn [timersOf speaking speechStart] in *. repeat split; auto; lia.
  - destruct H as [H _]. rewrite H in Hev. contradiction.
Qed.

(** While the detector counts toward a start, [speechStartTime] is the
    time of a polled frame that counted as voice, and every frame
    without voice polled since came at least [minSpeechDuration] later. *)
Lemma counting_since_voice ops : forall d0,
  speechStartTime d0 = 0 ->
  isSpeaking (fst (execs d0 ops)) = false ->
  speechStartTime (fst (execs d0 ops)) <> 0 ->
  exists pre vop mid t0,
    ops = pre ++ vop :: mid
    /\ voiceAt (fst (execs d0 pre)) vop = Some t0
    /\ alongRun (lateIfSilent t0) (fst (execs d0 (pre ++ [vop]))) mid
    /\ speechStartTime (fst (execs d0 ops)) = t0.
Proof.
  induction ops as [|op ops IH] using rev_ind; intros d0 H0 Hsp Hsst.
  - cbn in Hsst. congruence.
  - rewrite execs_snoc in *. cbn [fst] in *.
    destruct (exec_counting (fst (execs d0 ops)) op Hsp Hsst) as [Hsp1 Hstep].
    destruct (voiceAt (fst (execs d0 ops)) op) as [t|] eqn:Hvoice.
    + destruct Hstep as [[Hz Ht]|[Hnz Hsame]].
      * exists ops, op, [], t. repeat split; auto.
      * destruct (IH d0 H0 Hsp1 Hnz) as (pre & vop & mid & t0 & Hops & Hv & Hmid & Ht0).
        pose proof (voiceAt_lateIfSilent _ _ _ t0 Hvoice) as Hlate.
        destruct (alongRun_extend _ d0 ops pre vop mid op Hops Hmid Hlate) as [E1 E2].
        exists pre, vop, (mid ++ [op]), t0. repeat split; auto. congruence.
    + destruct Hstep as (Hnz & Hsame & Hlate).
      destruct (IH d0 H0 Hsp1 Hnz) as (pre & vop & mid & t0 & Hops & Hv & Hmid & Ht0).
      rewrite Ht0 in Hlate.
      destruct (alongRun_extend _ d0 ops pre vop mid op Hops Hmid Hlate) as [E1 E2].
      exists pre, vop, (mid ++ [op]), t0. repeat split; auto. congruence.
Qed.

(** C2, as stated, fails.  With [minSpeechDuration] at 300 ms, a voice
    pulse from 1000 to 1250 is followed by silence, polled at 1400.
    That frame comes 400 ms after the pulse began, so it does not reset
    [speechStartTime], which stays 1000; the first frame of a second
    pulse of 250 ms, at 5000, confirms a [speech_start] at once. *)
Lemma stale_speech_timer_confirms_second_pulse :
  let script :=
    [(1000, true); (1250, true); (1400, false);
     (5000, true); (5250, true); (5260, false)] in
  let before := execs (newDetector noChange) (referenceSession (firstn 3 script)) in
  let whole := execs (newDetector noChange) (referenceSession script) in
  minSpeechDuration (config (fst before)) = 300
  /\ snd before = []
  /\ isSpeaking (fst before) = false
  /\ speechStartTime (fst before) = 1000
  /\ map signalOf (snd whole) =
     [(speech_start, 5000, None); (speech_active, 5250, None)].
Proof.
  cbv zeta.
  set (script := [(1000, true); (1250, true); (1400, false);
                  (5000, true); (5250, true); (5260, false)]).
  destruct (referenceSession_timers script) as [_ Hwhole].
  destruct (referenceSession_timers (firstn 3 script)) as [Hstate Hbefore].
  pose proof (referenceSession_config (firstn 3 script)) as Hcfg.
  set (before := execs _ (referenceSession (firstn 3 script))) in *.
  apply timersOf_fields in Hstate as (Hsp & Hsst & _).
  rewrite Hcfg, Hsp, Hsst, Hwhole.
  assert (Hnone : snd before = []).
  { destruct (snd before); [reflexivity|]. vm_compute in Hbefore. discriminate. }
  rewrite Hnone. vm_compute. repeat split; reflexivity.
Qed.

(** C2, amended.  First: over a schedule of flickers, where every pulse
    and the frame without voice that closes it fall in a window shorter
    than [minSpeechDuration], no [speech_start] is emitted and every
    closing frame resets [speechStartTime], so a later pulse starts from
    zero.  Second: a [speech_start] is only emitted at a frame that
    counts as voice, at least [minSpeechDuration] after an earlier frame
    that counted as voice, and with no frame without voice polled less
    than [minSpeechDuration] after that earlier frame in between. *)
Theorem speech_start_needs_unbroken_window :
  (forall d ticks,
     isSpeaking d = false -> speechStartTime d = 0 -> flickering d ticks ->
     Forall (fun ev => type ev <> speech_start) (snd (polls d ticks))
     /\ isSpeaking (fst (polls d ticks)) = false
     /\ speechStartTime (fst (polls d ticks)) = 0)
  /\ (forall p ops op ev,
        let d0 := newDetector p in
        let d := fst (execs d0 ops) in
        In ev (snd (exec d op)) ->
        type ev = speech_start ->
        exists pre vop mid t0 t,
          ops = pre ++ vop :: mid
          /\ voiceAt (fst (execs d0 pre)) vop = Some t0
          /\ alongRun (lateIfSilent t0) (fst (execs d0 (pre ++ [vop]))) mid
          /\ voiceAt d op = Some t
          /\ timestamp ev = t
          /\ t - t0 >= minSpeechDuration (config d)).
Proof.
  split.
  - intros d ticks Hsp Hsst Hfl. now apply flickering_rejected.
  - intros p ops op ev d0 d Hev Hty.
    destruct (exec_speech_start d op ev Hev Hty) as (t & Hv & Hts & Hsp & Hnz & Hlate).
    destruct (counting_since_voice ops d0 eq_refl Hsp Hnz)
      as (pre & vop & mid & t0 & Hops & Hv0 & Hmid & Ht0).
    fold d in Ht0. rewrite Ht0 in Hlate.
    exists pre, vop, mid, t0, t. repeat split; auto.
Qed.

(** [twoShortPulses] is a schedule of flickers for a detector with the
    default 300 ms. *)
Lemma flickering_twoShortPulses :
  flickering listeningDetector (map tickOf twoShortPulses).
Proof.
  pose proof listeningDetector_default as Hd.
  assert (Hwin : forall d t0 a b c,
            config d = DEFAULT_CONFIG ->
            t0 <= a < t0 + 300 -> t0 <= b < t0 + 300 -> t0 <= c < t0 + 300 ->
            forall tk, In tk ([tickOf (a, true); tickOf (b, true)] ++ [tickOf (c, false)]) ->
            t0 <= now tk < t0 + minSpeechDuration (config d)).
  { intros d t0 a b c -> Ha Hb Hc tk [<-|[<-|[<-|[]]]]; cbn; lia. }
  apply (flickering_group listeningDetector
           [tickOf (1000, true); tickOf (1250, true)] (tickOf (1260, false))
           (map tickOf [(5000, true); (5250, true); (5260, false)]) 1000).
  - apply Hwin; [reflexivity | lia | lia | lia].
  - apply (heard_tickOf _ (1260, false)).
    apply (polls_tickOf_state [(1000, true); (1250, true)] _ Hd eq_refl).
  - destruct (polls_tickOf_state [(1000, true); (1250, true); (1260, false)] _ Hd eq_refl)
      as [Hd1 Hcb1].
    change ([tickOf (1000, true); tickOf (1250, true)] ++ [tickOf (1260, false)])
      with (map tickOf [(1000, true); (1250, true); (1260, false)]).
    set (d1 := fst (polls listeningDetector
                      (map tickOf [(1000, true); (1250, true); (1260, false)]))) in *.
    assert (Hcfg1 : config d1 = DEFAULT_CONFIG) by apply polls_config.
    apply (flickering_group d1
             [tickOf (5000, true); tickOf (5250, true)] (tickOf (5260, false)) [] 5000).
    + apply Hwin; [exact Hcfg1 | lia | lia | lia].
    + apply (heard_tickOf _ (5260, false)).
      apply (polls_tickOf_state [(5000, true); (5250, true)] _ Hd1 Hcb1).
    + apply flickering_done.
Qed.

(** C2 on [twoShortPulses]: neither pulse confirms a start. *)
Lemma speech_start_needs_unbroken_window_witness :
  flickering listeningDetector (map tickOf twoShortPulses)
  /\ Forall (fun ev => type ev <> speech_start)
       (snd (polls listeningDetector (map tickOf twoShortPulses)))
  /\ isSpeaking (fst (polls listeningDetector (map tickOf twoShortPulses))) = false
  /\ speechStartTime (fst (polls listeningDetector (map tickOf twoShortPulses))) = 0.
Proof.
  split; [exact flickering_twoShortPulses|].
  apply (proj1 speech_start_needs_unbroken_window);
    [reflexivity | reflexivity | exact flickering_twoShortPulses].
Defined.

(** ** C3: configuration updates *)

(** C3, as stated, fails: an update that puts [voiceFrequencyMin] above
    [voiceFrequencyMax] is not rejected.  It replaces the live
    configuration, which then breaks [voiceFrequencyMin < voiceFrequencyMax]. *)
Lemma updateConfig_accepts_inverted_band :
  let d := newDetector noChange in
  let p := mkPartial None None None None None (Some 4000%R) None in
  let d' := updateConfig d p in
  (voiceFrequencyMin (config d) < voiceFrequencyMax (config d))%R
  /\ config d' <> config d
  /\ voiceFrequencyMin (config d') = 4000%R
  /\ (voiceFrequencyMax (config d') <= voiceFrequencyMin (config d'))%R.
Proof.
  cbn. repeat split; try lra.
  intros H. apply (f_equal voiceFrequencyMin) in H. cbn in H. lra.
Qed.

(** C3, amended: [updateConfig] validates nothing.  Every field the
    update supplies replaces the live value, whatever it is, every field
    it leaves out keeps its value, and nothing else of the detector
    changes. *)
Theorem updateConfig_merges_unchecked (d : Detector) (p : PartialConfig) :
  let c := config d in
  let c' := config (updateConfig d p) in
  (forall v, p_energyThreshold p = Some v -> energyThreshold c' = v)
  /\ (forall v, p_zeroCrossingThreshold p = Some v -> zeroCrossingThreshold c' = v)
  /\ (forall v, p_minSpeechDuration p = Some v -> minSpeechDuration c' = v)
  /\ (forall v, p_minSilenceDuration p = Some v -> minSilenceDuration c' = v)
  /\ (forall v, p_fftSize p = Some v -> fftSize c' = v)
  /\ (forall v, p_voiceFrequencyMin p = Some v -> voiceFrequencyMin c' = v)
  /\ (forall v, p_voiceFrequencyMax p = Some v -> voiceFrequencyMax c' = v)
  /\ (p_energyThreshold p = None -> energyThreshold c' = energyThreshold c)
  /\ (p_zeroCrossingThreshold p = None ->
      zeroCrossingThreshold c' = zeroCrossingThreshold c)
  /\ (p_minSpeechDuration p = None -> minSpeechDuration c' = minSpeechDuration c)
  /\ (p_minSilenceDuration p = None -> minSilenceDuration c' = minSilenceDuration c)
  /\ (p_fftSize p = None -> fftSize c' = fftSize c)
  /\ (p_voiceFrequencyMin p = None -> voiceFrequencyMin c' = voiceFrequencyMin c)
  /\ (p_voiceFrequencyMax p = None -> voiceFrequencyMax c' = voiceFrequencyMax c)
  /\ updateConfig d p = set_config c' d.
Proof.
  destruct p; cbn.
  repeat split; intros; subst; try reflexivity; congruence.
Qed.

(** ** C4: empty frames *)


(** ** C5: the duration of a speech end *)

(** A frame with voice stamps [lastSpeechTime]; nothing else moves it
    while the detector goes on speaking. *)
Lemma exec_lastSpeech d op :
  let d1 := fst (exec d op) in
  match voiceAt d op with
  | Some t => lastSpeechTime d1 = t
  | None =>
      isSpeaking d1 = true ->
      isSpeaking d = true /\ lastSpeechTime d1 = lastSpeechTime d
  end.
Proof.
  pose proof (exec_timers d op) as H. unfold voiceAt.
  destruct (running d op) as [[d' tk]|].
  - destruct H as (H1 & _ & _). apply timersOf_fields in H1 as (Hsp & _ & Hlst & _).
    cbv zeta. destruct (heard d' tk).
    + rewrite Hlst. apply timerStep_voice.
    + rewrite Hsp, Hlst. intros Hs.
      match goal with
      | |- context [timerStep ?ms ?me ?s ?t false ?n] =>
          destruct (timerStep_silence ms me s t n) as [K1 K2]
      end.
      split; [now apply K2 | exact K1].
  - destruct H as (_ & [H|H]); apply timersOf_fields in H as (Hsp & _ & Hlst & _);
      cbv zeta; rewrite Hsp, Hlst; cbn; intros; [auto | discriminate].
Qed.

(** What an event carries in its [duration] field. *)
Lemma exec_speech_end d op ev :
  In ev (snd (exec d op)) ->
  (type ev <> speech_end -> duration ev = None)
  /\ (type ev = speech_end ->
      exists d' tk,
        running d op = Some (d', tk) /\ heard d' tk = false
        /\ isSpeaking d = true
        /\ timestamp ev = now tk
        /\ duration ev =
           Some (now tk - lastSpeechTime d + minSilenceDuration (config d))).
Proof.
  intros Hev. pose proof (exec_timers d op) as H.
  destruct (running d op) as [[d' tk]|].
  - destruct H as (_ & H2 & Hcfg). specialize (H2 ev Hev).
    apply timerStep_speech_end in H2 as [K1 K2]. split; [exact K1|].
    intros Hty. destruct (K2 Hty) as (Hv & Hsp & Hsg).
    exists d', tk. inversion Hsg. repeat split; auto.
  - destruct H as [H _]. rewrite H in Hev. contradiction.
Qed.

(** While the detector is speaking, [lastSpeechTime] is the time of the
    last polled frame that counted as voice. *)
Lemma speaking_since_voice ops : forall d0,
  isSpeaking d0 = false ->
  isSpeaking (fst (execs d0 ops)) = true ->
  exists pre vop mid tv,
    ops = pre ++ vop :: mid
    /\ voiceAt (fst (execs d0 pre)) vop = Some tv
    /\ alongRun voiceless (fst (execs d0 (pre ++ [vop]))) mid
    /\ lastSpeechTime (fst (execs d0 ops)) = tv.
Proof.
  induction ops as [|op ops IH] using rev_ind; intros d0 H0 Hsp.
  - cbn in Hsp. congruence.
  - rewrite execs_snoc in *. cbn [fst] in *.
    pose proof (exec_lastSpeech (fst (execs d0 ops)) op) as Hstep. cbv zeta in Hstep.
    destruct (voiceAt (fst (execs d0 ops)) op) as [t|] eqn:Hvoice.
    + exists ops, op, [], t. repeat split; auto.
    + destruct (Hstep Hsp) as [Hsp1 Hlst].
      destruct (IH d0 H0 Hsp1) as (pre & vop & mid & tv & Hops & Hv & Hmid & Htv).
      destruct (alongRun_extend voiceless d0 ops pre vop mid op Hops Hmid Hvoice)
        as [E1 E2].
      exists pre, vop, (mid ++ [op]), tv. repeat split; auto. congruence.
Qed.

(** C5: an event carries a duration exactly when it is a [speech_end].
    The duration of a [speech_end] is the time of the frame that
    confirms the end, minus the time of the last polled frame before it
    that counted as voice (the value of [lastSpeechTime]), plus
    [minSilenceDuration]; the frames after that one, and the confirming
    frame, had no voice. *)
Theorem speech_end_duration (p : PartialConfig) (ops : list Op) (op : Op)
    (ev : VoiceActivityEvent) :
  let d0 := newDetector p in
  let d := fst (execs d0 ops) in
  In ev (snd (exec d op)) ->
  (type ev <> speech_end -> duration ev = None)
  /\ (type ev = speech_end ->
      exists pre vop mid tv d' tk,
        ops = pre ++ vop :: mid
        /\ voiceAt (fst (execs d0 pre)) vop = Some tv
        /\ alongRun voiceless (fst (execs d0 (pre ++ [vop]))) mid
        /\ running d op = Some (d', tk) /\ heard d' tk = false
        /\ lastSpeechTime d = tv
        /\ timestamp ev = now tk
        /\ duration ev = Some (now tk - tv + minSilenceDuration (config d))).
Proof.
  intros d0 d Hev.
  destruct (exec_speech_end d op ev Hev) as [Hother Hend].
  split; [exact Hother|]. intros Hty.
  destruct (Hend Hty) as (d' & tk & Hrun & Hheard & Hsp & Hts & Hdur).
  destruct (speaking_since_voice ops d0 eq_refl Hsp)
    as (pre & vop & mid & tv & Hops & Hv & Hmid & Htv).
  fold d in Htv. exists pre, vop, mid, tv, d', tk.
  rewrite Hdur, Htv. repeat split; auto.
Qed.

(** C5 on a session whose speech ends at 2800, 1400 ms after the last
    frame with voice: the duration is 2800 - 1400 + 800. *)
Lemma speech_end_duration_witness :
  let ops := referenceSession [(1000, true); (1300, true); (1400, true); (2000, false)] in
  let op := Poll (silentTick 2800) in
  let d0 := newDetector noChange in
  let d := fst (execs d0 ops) in
  exists ev,
    In ev (snd (exec d op))
    /\ type ev = speech_end
    /\ duration ev = Some 2200
    /\ (type ev <> speech_end -> duration ev = None)
    /\ (type ev = speech_end ->
        exists pre vop mid tv d' tk,
          ops = pre ++ vop :: mid
          /\ voiceAt (fst (execs d0 pre)) vop = Some tv
          /\ alongRun voiceless (fst (execs d0 (pre ++ [vop]))) mid
          /\ running d op = Some (d', tk) /\ heard d' tk = false
          /\ lastSpeechTime d = tv
          /\ timestamp ev = now tk
          /\ duration ev = Some (now tk - tv + minSilenceDuration (config d))).
Proof.
  cbv zeta.
  pose proof (referenceSession_state (1000, true)
                [(1300, true); (1400, true); (2000, false)]) as [Hd Hcb].
  pose proof (referenceSession_timers
                [(1000, true); (1300, true); (1400, true); (2000, false)])
    as [Hstate _].
  pose proof (referenceSession_config
                [(1000, true); (1300, true); (1400, true); (2000, false)]) as Hcfg.
  cbv zeta in Hd, Hcb, Hstate.
  assert (E : snd (timerStep 300 800
                     (fst (runTimers 300 800 (mkTimers false 0 0 0)
                             (scheduleOf [(1000, true); (1300, true); (1400, true);
                                          (2000, false)])))
                     2800 false false)
              = [(speech_end, 2800, Some 2200)]) by (vm_compute; reflexivity).
  rewrite <- Hstate in E. clear Hstate.
  remember (referenceSession [(1000, true); (1300, true); (1400, true); (2000, false)])
    as ops eqn:Hops.
  remember (fst (execs (newDetector noChange) ops)) as d eqn:Heqd.
  destruct (detect_tickOf d (2800, false) Hd Hcb) as (_ & Hev & _).
  rewrite Hcfg in Hev. cbn [fst snd] in Hev.
  change (minSpeechDuration DEFAULT_CONFIG) with 300 in Hev.
  change (minSilenceDuration DEFAULT_CONFIG) with 800 in Hev.
  rewrite E in Hev. clear E.
  change (tickOf (2800, false)) with (silentTick 2800) in Hev.
  assert (Hex : exists ev, In ev (snd (exec d (Poll (silentTick 2800))))
                           /\ type ev = speech_end /\ duration ev = Some 2200).
  { cbn [exec]. destruct (snd (detect d (silentTick 2800))) as [|ev rest];
      [discriminate|].
    exists ev. split; [now left|].
    cbn [map] in Hev. unfold signalOf in Hev. now inversion Hev. }
  destruct Hex as (ev & Hin & Hty & Hdur).
  exists ev. split; [exact Hin|]. split; [exact Hty|]. split; [exact Hdur|].
  subst d ops.
  exact (speech_end_duration noChange _ (Poll (silentTick 2800)) ev Hin).
Defined.

(** ** C6: order of events *)

Ltac subsequence_tac :=
  repeat first
    [ apply subsequence_nil | apply subsequence_keep | apply subsequence_skip ].

Lemma subsequence_app {A : Type} (l1 l2 m1 m2 : list A) :
  subsequence l1 l2 -> subsequence m1 m2 -> subsequence (l1 ++ m1) (l2 ++ m2).
Proof.
  induction 1; intros Hm; cbn;
    [assumption | apply subsequence_skip | apply subsequence_keep]; auto.
Qed.

Lemma alternates_app kinds1 : forall speaking kinds2,
  alternates speaking (kinds1 ++ kinds2) <->
  alternates speaking kinds1 /\ alternates (speakingAfter speaking kinds1) kinds2.
Proof.
  induction kinds1 as [|k kinds1 IH]; intros speaking kinds2; cbn; [tauto|].
  destruct k; rewrite ?IH; tauto.
Qed.

Lemma speakingAfter_app kinds1 : forall speaking kinds2,
  speakingAfter speaking (kinds1 ++ kinds2) =
  speakingAfter (speakingAfter speaking kinds1) kinds2.
Proof.
  induction kinds1 as [|k kinds1 IH]; intros speaking kinds2; cbn; [reflexivity|].
  destruct k; apply IH.
Qed.

(** A second [speech_start] needs a [speech_end] before it. *)
Lemma alternates_end_between mid : forall rest,
  alternates true (mid ++ speech_start :: rest) -> In speech_end mid.
Proof.
  induction mid as [|k mid IH]; intros rest H; cbn in H.
  - destruct H; discriminate.
  - destruct k; cbn.
    + destruct H; discriminate.
    + now left.
    + right. eapply IH, H.
    + right. eapply IH, H.
Qed.

Lemma speechStateMachine_step d t e c v :
  stepFacts d [t] (speechStateMachine d t e c v).
Proof.
  unfold stepFacts.
  destruct d as [ctx an src af cfg sp sst lst silst hist cb]; cbn.
  destruct sp, cb, v; sm_cases; cbn in *;
    repeat split; try reflexivity; try congruence; subsequence_tac.
Qed.

Lemma detect_step d tk : stepFacts d [now tk] (detect d tk).
Proof.
  unfold detect. destruct (analyser d).
  - match goal with
    | |- context [speechStateMachine ?d' ?t ?e ?c ?v] =>
        pose proof (speechStateMachine_step d' t e c v) as K;
        destruct (speechStateMachine d' t e c v) as [d2 evs]
    end.
    exact K.
  - unfold stepFacts; cbn. repeat split; subsequence_tac.
Qed.

Lemma exec_step d op :
  inSession op -> stepFacts d (map now (opTicks [op])) (exec d op).
Proof.
  intros Hop. destruct op as [tk|cb tk|p|]; cbn [exec opTicks flat_map app map];
    try contradiction.
  - apply detect_step.
  - unfold stepFacts; cbn. repeat split; subsequence_tac.
Qed.

Lemma execs_steps ops : forall d,
  Forall inSession ops -> stepFacts d (map now (opTicks ops)) (execs d ops).
Proof.
  induction ops as [|op ops IH]; intros d Hops; cbn -[opTicks].
  - unfold stepFacts; cbn. repeat split; subsequence_tac.
  - inversion Hops as [|? ? Hop Hrest]; subst.
    destruct (exec_step d op Hop) as (S1 & C1 & A1 & N1).
    destruct (exec d op) as [d1 ev1]; cbn [fst snd] in *.
    destruct (IH d1 Hrest) as (S2 & C2 & A2 & N2).
    destruct (execs d1 ops) as [d2 ev2]; cbn [fst snd] in *.
    unfold stepFacts; cbn [fst snd].
    rewrite !map_app.
    rewrite (opTicks_cons op ops).
    rewrite map_app. split; [now apply subsequence_app|].
    split; [congruence|]. split.
    + intros Hcb. destruct (A1 Hcb) as [A1a A1b].
      destruct A2 as [A2a A2b]; [congruence|].
      rewrite alternates_app, speakingAfter_app, <- A1b. auto.
    + intros Hcb. rewrite N1, N2 by congruence. reflexivity.
Qed.

(** C6: within one run state, that is over runs of [detect] and
    configuration updates between an [init] and a [stop], the events
    come out in the order of the frames: their timestamps are a
    subsequence of the frame times, and a longer run only appends
    events.  Between two [speech_start] events there is always a
    [speech_end]. *)
Theorem events_ordered_and_starts_alternate (d : Detector) (ops : list Op) :
  Forall inSession ops ->
  subsequence (map timestamp (snd (execs d ops))) (map now (opTicks ops))
  /\ (forall ops1 ops2,
        ops = ops1 ++ ops2 ->
        snd (execs d ops) =
        snd (execs d ops1) ++ snd (execs (fst (execs d ops1)) ops2))
  /\ (forall l1 e1 mid e2 l2,
        snd (execs d ops) = l1 ++ e1 :: mid ++ e2 :: l2 ->
        type e1 = speech_start ->
        type e2 = speech_start ->
        exists e, In e mid /\ type e = speech_end).
Proof.
  intros Hops. destruct (execs_steps ops d Hops) as (Hsub & _ & Halt & Hnone).
  split; [exact Hsub|]. split.
  - intros ops1 ops2 ->. now rewrite execs_app.
  - intros l1 e1 mid e2 l2 Hev H1 H2.
    destruct (onActivityCallback d).
    2:{ rewrite Hnone in Hev by reflexivity. now destruct l1. }
    destruct Halt as [Halt _]; [reflexivity|].
    rewrite Hev in Halt.
    rewrite map_app in Halt. apply alternates_app in Halt as [_ Halt].
    cbn [map] in Halt. rewrite H1 in Halt. cbn [speakingAfter alternates] in Halt.
    destruct Halt as [_ Halt].
    rewrite map_app in Halt. cbn [map] in Halt. rewrite H2 in Halt.
    apply alternates_end_between in Halt.
    apply in_map_iff in Halt as (e & He & Hin). now exists e.
Qed.

(** C6 on [twoUtterances], whose events hold two [speech_start]. *)
Lemma events_ordered_and_starts_alternate_witness :
  let ops := map (fun x => Poll (tickOf x)) twoUtterances in
  Forall inSession ops
  /\ subsequence (map timestamp (snd (execs listeningDetector ops)))
       (map now (opTicks ops))
  /\ (forall ops1 ops2,
        ops = ops1 ++ ops2 ->
        snd (execs listeningDetector ops) =
        snd (execs listeningDetector ops1)
        ++ snd (execs (fst (execs listeningDetector ops1)) ops2))
  /\ (forall l1 e1 mid e2 l2,
        snd (execs listeningDetector ops) = l1 ++ e1 :: mid ++ e2 :: l2 ->
        type e1 = speech_start ->
        type e2 = speech_start ->
        exists e, In e mid /\ type e = speech_end).
Proof.
  cbv zeta.
  assert (H : Forall inSession (map (fun x => Poll (tickOf x)) twoUtterances))
    by (repeat constructor).
  split; [exact H|].
  exact (events_ordered_and_starts_alternate listeningDetector _ H).
Defined.

(** ** C7: confidence *)

(** C7: on a frame whose energy [e] and voice-band energy [v] are
    non-negative, in a detector with a positive configured threshold and
    a finite history, the adaptive threshold [a] is positive and the
    confidence is [0.4 min(1, e/a) + 0.5 min(1, v/a) + 0.1 z], where [z]
    is 1 when the zero-crossing rate is below its threshold and 0
    otherwise.  It lies between 0 and 1, the frame counts as voice
    exactly when it exceeds 0.6, and every event of the run reports it. *)
Theorem confidence_weighted_and_bounded (d : Detector) (tk : Tick) (e v : R) :
  (0 < energyThreshold (config d))%R ->
  Forall isFinite (energyHistory d) ->
  frameEnergy tk = Fin e -> (0 <= e)%R ->
  calculateVoiceEnergy d (frequencyData tk) = Fin v -> (0 <= v)%R ->
  exists a c,
    frameThreshold d tk = Fin a /\ (0 < a)%R
    /\ frameConfidence d tk = Fin c
    /\ c = (0.4 * Rmin 1 (e / a) + 0.5 * Rmin 1 (v / a)
            + 0.1 * (if lt (calculateZeroCrossingRate (timeDomainData tk))
                          (Fin (zeroCrossingThreshold (config d)))
                     then 1 else 0))%R
    /\ (0 <= c <= 1)%R
    /\ (heard d tk = true <-> (c > 0.6)%R)
    /\ Forall (fun event => confidence event = Fin c /\ energy event = Fin e)
         (snd (detect d tk)).
Proof.
  intros Hthr Hhist He He0 Hv Hv0.
  apply isFinite_map_Fin in Hhist as [xs Hxs].
  destruct (pushEnergy_Fin (fun _ => True) xs e) as (ys & Hys & Hne & _);
    [now apply Forall_forall | exact I |].
  assert (Ha : frameThreshold d tk =
               Fin (Rmax (energyThreshold (config d)) (mean ys * 1.5))).
  { unfold frameThreshold. rewrite Hxs, He, Hys. now apply adaptiveThreshold_Fin. }
  set (a := Rmax (energyThreshold (config d)) (mean ys * 1.5)) in *.
  assert (Hapos : (0 < a)%R)
    by (pose proof (Rmax_l (energyThreshold (config d)) (mean ys * 1.5)); unfold a; lra).
  assert (Hc : frameConfidence d tk =
               Fin (Rmin 1 (e / a) * 0.4 + Rmin 1 (v / a) * 0.5
                    + (if lt (calculateZeroCrossingRate (timeDomainData tk))
                             (Fin (zeroCrossingThreshold (config d)))
                       then 1 else 0) * 0.1)).
  { unfold frameConfidence. rewrite Ha, He, Hv. apply confidenceScore_Fin. lra. }
  exists a. eexists. split; [exact Ha|]. split; [exact Hapos|].
  split; [exact Hc|].
  pose proof (Rmin_unit (e / a)) as He1.
  pose proof (Rmin_unit (v / a)) as Hv1.
  assert (0 <= e / a)%R by (apply div_ge; lra).
  assert (0 <= v / a)%R by (apply div_ge; lra).
  split; [destruct (lt _ _); lra|].
  split; [destruct (lt _ _); lra|].
  split.
  - unfold heard. rewrite Hc. unfold voicePresent, gt, lt. rewrite Rltb_spec.
    split; intros; lra.
  - destruct (analyser d) eqn:Han.
    + assert (Han' : analyser d <> None) by congruence.
      destruct (detect_timers d tk Han') as (_ & _ & Hev & _).
      eapply Forall_impl; [|exact Hev]. cbn. intros ev [-> ->].
      now rewrite He, Hc.
    + rewrite detect_idle by assumption. constructor.
Qed.

(** C7 on the first frame of a detector, [voicedTick]: energy 127/128
    and voice-band energy 255/255. *)
Lemma confidence_weighted_and_bounded_witness :
  let d := listeningDetector in
  let tk := voicedTick 1000 in
  exists a c,
    frameThreshold d tk = Fin a /\ (0 < a)%R
    /\ frameConfidence d tk = Fin c
    /\ c = (0.4 * Rmin 1 (127 / 128 / a) + 0.5 * Rmin 1 (255 / 255 / a)
            + 0.1 * (if lt (calculateZeroCrossingRate (timeDomainData tk))
                          (Fin (zeroCrossingThreshold (config d)))
                     then 1 else 0))%R
    /\ (0 <= c <= 1)%R
    /\ (heard d tk = true <-> (c > 0.6)%R)
    /\ Forall (fun event => confidence event = Fin c /\ energy event = Fin (127 / 128))
         (snd (detect d tk)).
Proof.
  cbv zeta.
  apply (confidence_weighted_and_bounded listeningDetector (voicedTick 1000)
           (127 / 128) (255 / 255)).
  - cbn. lra.
  - constructor.
  - apply frameEnergy_voicedTick.
  - lra.
  - apply (calculateVoiceEnergy_constant listeningDetector 255).
    exact listeningDetector_default.
  - lra.
Defined.

(** ** C8: energy history and adaptive threshold *)

Lemma exec_history d op :
  energyHistory (fst (exec d op)) =
  match polledEnergies d [op] with
  | [e] => pushEnergy (energyHistory d) e
  | _ => energyHistory d
  end.
Proof.
  destruct op as [tk|cb tk|p|]; cbn [exec polledEnergies app].
  - destruct (analyser d) eqn:Han.
    + apply detect_timers. congruence.
    + now rewrite detect_idle.
  - unfold init. cbn [app].
    assert (Han : analyser (connect d cb) <> None) by (cbn; congruence).
    destruct (detect_timers (connect d cb) tk Han) as (_ & _ & _ & _ & _ & _ & _ & H).
    exact H.
  - reflexivity.
  - apply stop_keeps_history.
Qed.

Lemma polledEnergies_cons d op ops :
  polledEnergies d (op :: ops) =
  polledEnergies d [op] ++ polledEnergies (fst (exec d op)) ops.
Proof. cbn [polledEnergies]. now rewrite app_nil_r. Qed.

Lemma polledEnergies_single d op :
  polledEnergies d [op] = [] \/ exists e, polledEnergies d [op] = [e].
Proof.
  destruct op as [tk|cb tk|p|]; cbn; auto.
  - destruct (analyser d); cbn; eauto.
  - eauto.
Qed.

(** The history always holds the last ten energies that were pushed. *)
Lemma execs_history ops : forall d,
  (length (energyHistory d) <= energyHistorySize)%nat ->
  energyHistory (fst (execs d ops)) =
  lastN energyHistorySize (energyHistory d ++ polledEnergies d ops).
Proof.
  induction ops as [|op ops IH]; intros d Hlen.
  - cbn. rewrite app_nil_r. symmetry. now apply lastN_all.
  - rewrite polledEnergies_cons. cbn [execs].
    pose proof (exec_history d op) as Hop.
    destruct (exec d op) as [d1 ev1]. cbn [fst] in *.
    assert (Hd1 : energyHistory d1 =
                  lastN energyHistorySize (energyHistory d ++ polledEnergies d [op])).
    { destruct (polledEnergies_single d op) as [E|[e E]]; rewrite E in *.
      - rewrite app_nil_r. rewrite Hop. symmetry. now apply lastN_all.
      - rewrite Hop. now apply pushEnergy_lastN. }
    assert (Hlen1 : (length (energyHistory d1) <= energyHistorySize)%nat)
      by (rewrite Hd1; apply lastN_length).
    specialize (IH d1 Hlen1).
    destruct (execs d1 ops) as [d2 ev2]. cbn [fst] in *.
    rewrite IH, Hd1, lastN_app_lastN. now rewrite app_assoc.
Qed.

Lemma polledEnergies_finite ops : forall d,
  Forall (fun t => timeDomainData t <> []) (opTicks ops) ->
  Forall isFinite (polledEnergies d ops).
Proof.
  induction ops as [|op ops IH]; intros d H; [constructor|].
  rewrite polledEnergies_cons. rewrite opTicks_cons in H.
  apply Forall_app in H as [Hop Hrest].
  apply Forall_app. split; [|now apply IH].
  destruct op as [tk|cb tk|p|]; cbn in *; try constructor.
  - destruct (analyser d); [|constructor].
    inversion Hop as [|? ? Htk _]; subst.
    destruct (calculateEnergy_finite _ Htk) as (e & He & _).
    constructor; [|constructor]. unfold frameEnergy. now rewrite He.
  - inversion Hop as [|? ? Htk _]; subst.
    destruct (calculateEnergy_finite _ Htk) as (e & He & _).
    unfold frameEnergy. now rewrite He.
  - constructor.
Qed.

(** C8: in every state reached from a new detector, the history is the
    last ten energies pushed so far, and a run of [detect] makes it the
    last ten with the energy of the new frame.  When every frame polled
    so far had at least one sample, these energies are finite, the
    adaptive threshold of the run is the larger of the configured
    threshold and 1.5 times their mean, and so it is at least the
    configured threshold. *)
Theorem adaptive_threshold_over_last_ten
    (p : PartialConfig) (ops : list Op) (tk : Tick) :
  Forall (fun t => timeDomainData t <> []) (tk :: opTicks ops) ->
  let d := fst (execs (newDetector p) ops) in
  let history :=
    lastN energyHistorySize
      (polledEnergies (newDetector p) ops ++ [frameEnergy tk]) in
  energyHistory d = lastN energyHistorySize (polledEnergies (newDetector p) ops)
  /\ (analyser d <> None -> energyHistory (fst (detect d tk)) = history)
  /\ (length history <= energyHistorySize)%nat
  /\ exists xs,
       history = map Fin xs
       /\ frameThreshold d tk =
          Fin (Rmax (energyThreshold (config d)) (mean xs * 1.5))
       /\ (energyThreshold (config d)
           <= Rmax (energyThreshold (config d)) (mean xs * 1.5))%R.
Proof.
  intros Hframes d history.
  assert (Hd : energyHistory d =
               lastN energyHistorySize (polledEnergies (newDetector p) ops)).
  { unfold d. rewrite execs_history by (cbn; lia). reflexivity. }
  assert (Hpush : pushEnergy (energyHistory d) (frameEnergy tk) = history).
  { rewrite pushEnergy_lastN by (rewrite Hd; apply lastN_length).
    rewrite Hd. apply lastN_app_lastN. }
  split; [exact Hd|]. split.
  { intros Han. destruct (detect_timers d tk Han) as (_ & _ & _ & _ & _ & _ & _ & H).
    now rewrite H. }
  split; [apply lastN_length|].
  inversion Hframes as [|? ? Htk Hops]; subst.
  assert (Hfin : Forall isFinite history).
  { apply lastN_Forall, Forall_app. split.
    - now apply polledEnergies_finite.
    - destruct (calculateEnergy_finite _ Htk) as (e & He & _).
      constructor; [|constructor]. unfold frameEnergy. now rewrite He. }
  apply isFinite_map_Fin in Hfin as [xs Hxs]. exists xs.
  split; [exact Hxs|]. split; [|apply Rmax_l].
  unfold frameThreshold. rewrite Hpush, Hxs.
  apply adaptiveThreshold_Fin. intros ->.
  cbn in Hxs. unfold history in Hxs.
  apply lastN_snoc_nonempty in Hxs; [assumption | unfold energyHistorySize; lia].
Qed.

(** C8 on the third frame of a session. *)
Lemma adaptive_threshold_over_last_ten_witness :
  let p := noChange in
  let ops := referenceSession [(1000, true); (1016, false)] in
  let tk := voicedTick 1032 in
  let d := fst (execs (newDetector p) ops) in
  let history :=
    lastN energyHistorySize
      (polledEnergies (newDetector p) ops ++ [frameEnergy tk]) in
  Forall (fun t => timeDomainData t <> []) (tk :: opTicks ops)
  /\ energyHistory d = lastN energyHistorySize (polledEnergies (newDetector p) ops)
  /\ (analyser d <> None -> energyHistory (fst (detect d tk)) = history)
  /\ (length history <= energyHistorySize)%nat
  /\ exists xs,
       history = map Fin xs
       /\ frameThreshold d tk =
          Fin (Rmax (energyThreshold (config d)) (mean xs * 1.5))
       /\ (energyThreshold (config d)
           <= Rmax (energyThreshold (config d)) (mean xs * 1.5))%R.
Proof.
  cbv zeta.
  assert (H : Forall (fun t => timeDomainData t <> [])
                (voicedTick 1032
                 :: opTicks (referenceSession [(1000, true); (1016, false)])))
    by (repeat constructor; discriminate).
  split; [exact H|].
  exact (adaptive_threshold_over_last_ten noChange _ _ H).
Defined.

(** ** C9: teardown *)

(** C9: [stop] returns from every detector state, also one that [init]
    never touched or only partly set up.  Afterwards [isSpeaking] is
    false, the three timers are zero, [getState] reports it, no resource
    is held and [detect] no longer does anything; a second [stop] makes
    no host call and changes nothing. *)
Theorem stop_resets_and_is_idempotent (d : Detector) (t : Z) (tk : Tick) :
  let d1 := fst (stop d) in
  (isSpeaking d1 = false /\ speechStartTime d1 = 0
   /\ silenceStartTime d1 = 0 /\ lastSpeechTime d1 = 0)
  /\ (snap_isSpeaking (getState d1 t) = false
      /\ snap_lastSpeechTime (getState d1 t) = 0)
  /\ (audioContext d1 = None /\ analyser d1 = None /\ sourceNode d1 = None
      /\ scheduled d1 = None)
  /\ detect d1 tk = (d1, [])
  /\ stop d1 = (d1, [])
  /\ (forall p, stop (newDetector p) = (newDetector p, [])).
Proof.
  destruct d as [ctx an src af cfg sp sst lst silst hist cb].
  unfold stop, scheduled; cbn.
  destruct af as [id|]; [destruct (Z.eqb_spec id 0) as [->|Hid]|];
    destruct src, ctx; cbn;
    try (destruct (Z.eqb_spec id 0); [lia|]);
    repeat split; reflexivity.
Qed.

(** ** C10: the end debounce only runs while speaking *)

Lemma speechStateMachine_keeps_endDebounce d t e c v :
  endDebounceOnlyWhenSpeaking d ->
  endDebounceOnlyWhenSpeaking (fst (speechStateMachine d t e c v)).
Proof.
  unfold endDebounceOnlyWhenSpeaking.
  destruct d as [ctx an src af cfg sp sst lst silst hist cb]; cbn.
  intros H. sm_cases; intros; try tauto; try congruence; try lia.
Qed.

Lemma detect_keeps_endDebounce d tk :
  endDebounceOnlyWhenSpeaking d -> endDebounceOnlyWhenSpeaking (fst (detect d tk)).
Proof.
  intros H. unfold detect. destruct (analyser d); [|exact H].
  match goal with
  | |- context [speechStateMachine ?d' ?t ?e ?c ?v] =>
      pose proof (speechStateMachine_keeps_endDebounce d' t e c v H) as K;
      destruct (speechStateMachine d' t e c v) as [d2 evs]
  end.
  exact K.
Qed.

Lemma exec_keeps_endDebounce d op :
  endDebounceOnlyWhenSpeaking d -> endDebounceOnlyWhenSpeaking (fst (exec d op)).
Proof.
  intros H. destruct op as [tk|cb tk|p|]; cbn [exec].
  - now apply detect_keeps_endDebounce.
  - unfold init. now apply detect_keeps_endDebounce.
  - exact H.
  - unfold endDebounceOnlyWhenSpeaking, stop. cbn [fst].
    destruct (scheduled d), (sourceNode _), (audioContext _); cbn; congruence.
Qed.

Lemma execs_keeps_endDebounce ops : forall d,
  endDebounceOnlyWhenSpeaking d -> endDebounceOnlyWhenSpeaking (fst (execs d ops)).
Proof.
  induction ops as [|op ops IH]; intros d H; cbn; [exact H|].
  pose proof (exec_keeps_endDebounce d op H) as H1.
  destruct (exec d op) as [d1 ev1]. specialize (IH d1 H1).
  now destruct (execs d1 ops).
Qed.

(** C10: every operation keeps [silenceStartTime <> 0 -> isSpeaking], the
    detector starts with it, and so it holds in every state reached by
    runs of [detect], [init], [updateConfig] and [stop]. *)
Theorem silence_timer_only_while_speaking :
  (forall p, endDebounceOnlyWhenSpeaking (newDetector p))
  /\ (forall d op,
        endDebounceOnlyWhenSpeaking d ->
        endDebounceOnlyWhenSpeaking (fst (exec d op)))
  /\ (forall p ops, endDebounceOnlyWhenSpeaking (fst (execs (newDetector p) ops))).
Proof.
  assert (H0 : forall p, endDebounceOnlyWhenSpeaking (newDetector p))
    by (intros p; unfold endDebounceOnlyWhenSpeaking; cbn; congruence).
  split; [exact H0|]. split; [exact exec_keeps_endDebounce|].
  intros p ops. apply execs_keeps_endDebounce, H0.
Qed.

(** * Further properties *)

(** ** X1-X5: ranges and edge cases of the measurements *)

Lemma normalized_square_unit (b : Z) :
  0 <= b <= 255 ->
  (0 <= (IZR b - 128) / 128 * ((IZR b - 128) / 128) <= 1)%R.
Proof.
  intros [Hlo Hhi]. apply IZR_le in Hlo, Hhi.
  set (x := ((IZR b - 128) / 128)%R).
  assert (Hx : (-1 <= x <= 1)%R) by (unfold x; lra).
  nra.
Qed.

Lemma energy_sum_bounds (data : list Z) : forall acc : R,
  validBytes data ->
  exists s,
    fold_left
      (fun sum b =>
         let normalized := div (sub (ofZ b) (ofZ 128)) (ofZ 128) in
         add sum (mul normalized normalized))
      data (Fin acc) = Fin s
    /\ (acc <= s <= acc + IZR (Z.of_nat (length data)))%R.
Proof.
  induction data as [|b data IH]; intros acc Hdata; cbn [fold_left length].
  - exists acc. split; [reflexivity|]. cbn. lra.
  - inversion Hdata as [|? ? Hb Hrest]; subst.
    rewrite normalized_Fin. cbn [mul add].
    destruct (IH (acc + (IZR b - 128) / 128 * ((IZR b - 128) / 128))%R Hrest)
      as (s & Hs & Hbound).
    exists s. split; [exact Hs|].
    pose proof (normalized_square_unit b Hb).
    rewrite Nat2Z.inj_succ, succ_IZR. lra.
Qed.

(** X1: the energy of a frame with at least one sample, all of them
    bytes, is a finite number between 0 and 1. *)
Theorem energy_in_unit_interval (data : list Z) :
  data <> [] -> validBytes data ->
  exists e, calculateEnergy data = Fin e /\ (0 <= e <= 1)%R.
Proof.
  intros Hne Hdata. unfold calculateEnergy.
  destruct (energy_sum_bounds data 0 Hdata) as (s & Hsum & Hs).
  cbv zeta in *. rewrite Hsum.
  pose proof (length_pos_IZR data Hne) as Hlen.
  unfold ofZ. rewrite div_Fin by lra. cbn [sqrt].
  assert (Hq : (0 <= s / IZR (Z.of_nat (length data)) <= 1)%R)
    by (split; [apply div_ge | apply div_le]; lra).
  rewrite Rltb_false by lra.
  eexists; split; [reflexivity|]. split; [apply sqrt_pos|].
  rewrite <- sqrt_1. apply sqrt_le_1_alt. lra.
Qed.

Lemma energy_in_unit_interval_witness :
  [0; 255; 128] <> [] /\ validBytes [0; 255; 128]
  /\ exists e, calculateEnergy [0; 255; 128] = Fin e /\ (0 <= e <= 1)%R.
Proof.
  assert (H1 : [0; 255; 128] <> []) by discriminate.
  assert (H2 : validBytes [0; 255; 128]) by (repeat constructor; lia).
  split; [exact H1|]. split; [exact H2|].
  exact (energy_in_unit_interval [0; 255; 128] H1 H2).
Defined.

Lemma crossingsFrom_bounds (rest : list Z) : forall prev,
  0 <= crossingsFrom prev rest <= Z.of_nat (length rest).
Proof.
  induction rest as [|cur rest IH]; intros prev; cbn [crossingsFrom length].
  - lia.
  - specialize (IH cur). destruct (crosses prev cur); lia.
Qed.

(** X2: the zero-crossing rate of a frame with [n >= 1] samples is a
    finite number between 0 and [(n - 1) / n], so it is always below 1. *)
Theorem zero_crossing_rate_below_one (data : list Z) :
  data <> [] ->
  exists z,
    calculateZeroCrossingRate data = Fin z
    /\ (0 <= z)%R
    /\ (z * IZR (Z.of_nat (length data)) <= IZR (Z.of_nat (length data)) - 1)%R
    /\ (z < 1)%R.
Proof.
  intros Hne. unfold calculateZeroCrossingRate.
  destruct data as [|first rest]; [congruence|].
  pose proof (crossingsFrom_bounds rest first) as [Hlo Hhi].
  pose proof (length_pos_IZR (first :: rest) Hne) as Hlen.
  unfold ofZ. rewrite div_Fin by lra.
  eexists; split; [reflexivity|].
  apply IZR_le in Hlo, Hhi.
  assert (Hn : IZR (Z.of_nat (length (first :: rest)))
               = (IZR (Z.of_nat (length rest)) + 1)%R)
    by (cbn [length]; rewrite Nat2Z.inj_succ, succ_IZR; reflexivity).
  set (c := IZR (crossingsFrom first rest)) in *.
  set (n := IZR (Z.of_nat (length (first :: rest)))) in *.
  assert (Hmul : (c / n * n = c)%R) by (field; lra).
  split; [apply div_ge; lra|]. split; [lra|].
  apply Rmult_lt_reg_r with n; [lra|]. lra.
Qed.

Lemma zero_crossing_rate_below_one_witness :
  [100; 200; 100] <> []
  /\ exists z,
       calculateZeroCrossingRate [100; 200; 100] = Fin z
       /\ (0 <= z)%R
       /\ (z * IZR (Z.of_nat (length [100; 200; 100]))
           <= IZR (Z.of_nat (length [100; 200; 100])) - 1)%R
       /\ (z < 1)%R.
Proof.
  assert (H : [100; 200; 100] <> []) by discriminate.
  split; [exact H|]. exact (zero_crossing_rate_below_one [100; 200; 100] H).
Defined.

Lemma byteAt_valid (data : list Z) (i : Z) :
  validBytes data -> 0 <= i < Z.of_nat (length data) ->
  exists b, byteAt data i = ofZ b /\ 0 <= b <= 255.
Proof.
  intros Hdata Hi. unfold byteAt.
  destruct (Z.leb_spec 0 i); [|lia].
  destruct (Z.ltb_spec i (Z.of_nat (length data))); [|lia]. cbn [andb].
  eexists; split; [reflexivity|].
  unfold validBytes in Hdata. rewrite Forall_forall in Hdata.
  apply Hdata, nth_In. lia.
Qed.

Lemma voiceBandLoop_count (data : list Z) (steps : nat) : forall i sum count,
  snd (voiceBandLoop data steps i sum count) = count + Z.of_nat steps.
Proof.
  induction steps as [|k IH]; intros i sum count; cbn [voiceBandLoop].
  - cbn. lia.
  - rewrite IH. lia.
Qed.

Lemma voiceBandLoop_bounds (data : list Z) (steps : nat) : forall i acc count,
  validBytes data ->
  0 <= i -> i + Z.of_nat steps <= Z.of_nat (length data) ->
  exists s,
    fst (voiceBandLoop data steps i (Fin acc) count) = Fin s
    /\ (acc <= s <= acc + IZR (Z.of_nat steps))%R.
Proof.
  induction steps as [|k IH]; intros i acc count Hdata Hi Hlen.
  - exists acc. split; [reflexivity|]. cbn. lra.
  - cbn [voiceBandLoop].
    destruct (byteAt_valid data i Hdata) as (b & -> & Hb); [lia|].
    unfold ofZ at 1 2. rewrite div_Fin by lra. cbn [add].
    destruct (IH (i + 1) (acc + IZR b / 255)%R (count + 1) Hdata) as (s & Hs & Hbound);
      [lia | lia |].
    exists s. split; [exact Hs|].
    destruct Hb as [Hlo Hhi]. apply IZR_le in Hlo, Hhi.
    rewrite Nat2Z.inj_succ, succ_IZR. lra.
Qed.

Lemma voiceBandLoop_NaN (data : list Z) (steps : nat) : forall i count,
  fst (voiceBandLoop data steps i NaN count) = NaN.
Proof.
  induction steps as [|k IH]; intros i count; cbn [voiceBandLoop]; [reflexivity|].
  apply IH.
Qed.

(** The bin size and the two bins when [fftSize] is not negative. *)
Lemma binSize_cases (rate : positive) (size : R) :
  (0 <= size)%R ->
  (size = 0%R /\ div (Fin (IZR (Zpos rate))) (Fin size) = PosInf)
  \/ exists bs, div (Fin (IZR (Zpos rate))) (Fin size) = Fin bs /\ (0 < bs)%R.
Proof.
  intros Hsize.
  assert (Hrate : (0 < IZR (Zpos rate))%R) by (apply IZR_lt; lia).
  destruct (Req_dec_T size 0) as [->|Hnz].
  - left. split; [reflexivity|]. cbn. rewrite Reqb_true by reflexivity.
    unfold signedInf. now rewrite Rltb_true.
  - right. rewrite div_Fin by assumption. eexists; split; [reflexivity|].
    apply Rdiv_lt_0_compat; lra.
Qed.

Lemma binOf_monotone (rate : positive) (size f1 f2 : R) :
  (0 <= size)%R -> (f1 <= f2)%R ->
  binOf (div (Fin (IZR (Zpos rate))) (Fin size)) f1
  <= binOf (div (Fin (IZR (Zpos rate))) (Fin size)) f2.
Proof.
  intros Hsize Hf.
  destruct (binSize_cases rate size Hsize) as [[_ ->]|(bs & -> & Hbs)].
  - rewrite !binOf_PosInf. lia.
  - rewrite !binOf_Fin by lra. apply Zfloor_le.
    unfold Rdiv. apply Rmult_le_compat_r; [|exact Hf].
    left. now apply Rinv_0_lt_compat.
Qed.

Lemma binOf_nonnegative (rate : positive) (size freq : R) :
  (0 <= size)%R -> (0 <= freq)%R ->
  0 <= binOf (div (Fin (IZR (Zpos rate))) (Fin size)) freq.
Proof.
  intros Hsize Hf.
  destruct (binSize_cases rate size Hsize) as [[_ ->]|(bs & -> & Hbs)].
  - rewrite binOf_PosInf. lia.
  - rewrite binOf_Fin by lra. apply Zfloor_lub. cbn. apply div_ge; lra.
Qed.

(** X3: with a band that starts at a frequency of 0 Hz or more and an
    [fftSize] that is not negative, the voice-band energy of a frame of
    bytes is a finite number between 0 and 1, whatever the length of the
    frame. *)
Theorem voice_energy_in_unit_interval (d : Detector) (frequencyData : list Z) :
  validBytes frequencyData ->
  (0 <= fftSize (config d))%R ->
  (0 <= voiceFrequencyMin (config d))%R ->
  exists v, calculateVoiceEnergy d frequencyData = Fin v /\ (0 <= v <= 1)%R.
Proof.
  intros Hdata Hfft Hmin. unfold calculateVoiceEnergy.
  destruct (audioContext d) as [ctx|]; [|exists 0%R; split; [reflexivity | lra]].
  cbv zeta.
  pose proof (binOf_nonnegative (sampleRate ctx) _ _ Hfft Hmin) as Hlo.
  set (minBin := binOf _ (voiceFrequencyMin (config d))) in *.
  set (maxBin := binOf _ (voiceFrequencyMax (config d))).
  destruct (Z.le_gt_cases (Z.min maxBin (Z.of_nat (length frequencyData))) minBin)
    as [Hempty|Hband].
  { replace (Z.to_nat _) with O by lia. exists 0%R. split; [reflexivity | lra]. }
  set (steps := Z.to_nat (Z.min maxBin (Z.of_nat (length frequencyData)) - minBin)).
  destruct (voiceBandLoop_bounds frequencyData steps minBin 0 0 Hdata Hlo)
    as (s & Hs & Hbound); [unfold steps; lia|].
  pose proof (voiceBandLoop_count frequencyData steps minBin (Fin 0) 0) as Hcount.
  destruct (voiceBandLoop frequencyData steps minBin (Fin 0) 0) as [sum count].
  cbn [fst snd] in *. subst sum count.
  destruct (Z.ltb_spec 0 (0 + Z.of_nat steps)) as [Hpos|Hzero].
  - assert (Hn : (0 < IZR (0 + Z.of_nat steps))%R) by (apply IZR_lt; lia).
    unfold ofZ. rewrite div_Fin by lra.
    eexists; split; [reflexivity|].
    change (0 + Z.of_nat steps) with (Z.of_nat steps) in *.
    split; [apply div_ge | apply div_le]; lra.
  - exists 0%R. split; [reflexivity | lra].
Qed.

Lemma voice_energy_in_unit_interval_witness :
  validBytes (repeat 255 frameLength)
  /\ (0 <= fftSize (config listeningDetector))%R
  /\ (0 <= voiceFrequencyMin (config listeningDetector))%R
  /\ exists v,
       calculateVoiceEnergy listeningDetector (repeat 255 frameLength) = Fin v
       /\ (0 <= v <= 1)%R.
Proof.
  assert (H1 : validBytes (repeat 255 frameLength)).
  { unfold validBytes. apply Forall_forall. intros b Hb.
    apply repeat_spec in Hb. lia. }
  assert (H2 : (0 <= fftSize (config listeningDetector))%R) by (cbn; lra).
  assert (H3 : (0 <= voiceFrequencyMin (config listeningDetector))%R) by (cbn; lra).
  split; [exact H1|]. split; [exact H2|]. split; [exact H3|].
  exact (voice_energy_in_unit_interval listeningDetector _ H1 H2 H3).
Defined.

Lemma calculateVoiceEnergy_no_steps (d : Detector) (ctx : AudioContext)
    (frequencyData : list Z) :
  audioContext d = Some ctx ->
  let binSize :=
    div (Fin (IZR (Zpos (sampleRate ctx)))) (Fin (fftSize (config d))) in
  Z.min (binOf binSize (voiceFrequencyMax (config d)))
        (Z.of_nat (length frequencyData))
  <= binOf binSize (voiceFrequencyMin (config d)) ->
  calculateVoiceEnergy d frequencyData = Fin 0.
Proof.
  intros Hctx binSize Hempty. unfold calculateVoiceEnergy. rewrite Hctx.
  cbv zeta. fold binSize.
  replace (Z.to_nat _) with O by lia. reflexivity.
Qed.


(** X5: a band that starts below 0 Hz and ends at 0 Hz or more makes
    the loop read before the start of the array: with a positive
    [fftSize] the voice-band energy is then NaN for every frame. *)
Theorem voice_energy_NaN_below_zero (d : Detector) (ctx : AudioContext)
    (frequencyData : list Z) :
  audioContext d = Some ctx ->
  (0 < fftSize (config d))%R ->
  (voiceFrequencyMin (config d) < 0)%R ->
  (0 <= voiceFrequencyMax (config d))%R ->
  calculateVoiceEnergy d frequencyData = NaN.
Proof.
  intros Hctx Hfft Hmin Hmax. unfold calculateVoiceEnergy. rewrite Hctx. cbv zeta.
  assert (Hrate : (0 < IZR (Zpos (sampleRate ctx)))%R) by (apply IZR_lt; lia).
  pose proof (binOf_nonnegative (sampleRate ctx) _ _ (Rlt_le _ _ Hfft) Hmax) as Hhi.
  set (maxBin := binOf _ (voiceFrequencyMax (config d))) in *.
  assert (Hlo : binOf (div (Fin (IZR (Zpos (sampleRate ctx))))
                           (Fin (fftSize (config d))))
                  (voiceFrequencyMin (config d)) < 0).
  { rewrite div_Fin by lra.
    assert (Hbs : (0 < IZR (Zpos (sampleRate ctx)) / fftSize (config d))%R)
      by (apply Rdiv_lt_0_compat; lra).
    rewrite binOf_Fin by lra.
    pose proof (Zfloor_bound (voiceFrequencyMin (config d)
                              / (IZR (Zpos (sampleRate ctx)) / fftSize (config d))))
      as [Hfl _].
    assert (Hneg : (voiceFrequencyMin (config d)
                    / (IZR (Zpos (sampleRate ctx)) / fftSize (config d)) < 0)%R).
    { apply Rmult_lt_reg_r with (IZR (Zpos (sampleRate ctx)) / fftSize (config d))%R;
        [exact Hbs|].
      replace (voiceFrequencyMin (config d)
               / (IZR (Zpos (sampleRate ctx)) / fftSize (config d))
               * (IZR (Zpos (sampleRate ctx)) / fftSize (config d)))%R
        with (voiceFrequencyMin (config d)) by (field; lra).
      lra. }
    apply lt_IZR. lra. }
  set (minBin := binOf _ (voiceFrequencyMin (config d))) in *.
  set (steps := Z.to_nat (Z.min maxBin (Z.of_nat (length frequencyData)) - minBin)).
  assert (Hsteps : exists k, steps = S k).
  { exists (Nat.pred steps). unfold steps. lia. }
  destruct Hsteps as [k Hk]. rewrite Hk.
  pose proof (voiceBandLoop_count frequencyData (S k) minBin (Fin 0) 0) as Hcount.
  assert (Hsum : fst (voiceBandLoop frequencyData (S k) minBin (Fin 0) 0) = NaN).
  { cbn [voiceBandLoop]. unfold byteAt.
    destruct (Z.leb_spec 0 minBin); [lia|]. cbn [andb div add].
    apply voiceBandLoop_NaN. }
  destruct (voiceBandLoop frequencyData (S k) minBin (Fin 0) 0) as [sum count].
  cbn [fst snd] in *. subst sum count.
  destruct (Z.ltb_spec 0 (0 + Z.of_nat (S k))); [reflexivity | lia].
Qed.

Lemma voice_energy_NaN_below_zero_witness :
  let d := updateConfig listeningDetector
             (mkPartial None None None None None (Some (-100)%R) None) in
  audioContext d = Some {| sampleRate := 16000 |}
  /\ (0 < fftSize (config d))%R
  /\ (voiceFrequencyMin (config d) < 0)%R
  /\ (0 <= voiceFrequencyMax (config d))%R
  /\ calculateVoiceEnergy d (repeat 255 frameLength) = NaN.
Proof.
  cbv zeta.
  set (d := updateConfig listeningDetector
              (mkPartial None None None None None (Some (-100)%R) None)).
  assert (H1 : audioContext d = Some {| sampleRate := 16000 |}) by reflexivity.
  assert (H2 : (0 < fftSize (config d))%R) by (cbn; lra).
  assert (H3 : (voiceFrequencyMin (config d) < 0)%R) by (cbn; lra).
  assert (H4 : (0 <= voiceFrequencyMax (config d))%R) by (cbn; lra).
  split; [exact H1|]. split; [exact H2|]. split; [exact H3|]. split; [exact H4|].
  exact (voice_energy_NaN_below_zero d _ (repeat 255 frameLength) H1 H2 H3 H4).
Defined.

(** ** X6-X8: which frames can count as voice *)


Lemma adaptiveThreshold_usable cfg (history : list number) :
  (0 < energyThreshold cfg)%R -> usableThreshold (adaptiveThreshold cfg history).
Proof.
  intros Hthr. unfold adaptiveThreshold.
  destruct (mul _ (Fin 1.5)) as [m| | |].
  - rewrite max_Fin. cbn. pose proof (Rmax_l (energyThreshold cfg) m). lra.
  - exact I.
  - cbn. exact Hthr.
  - exact I.
Qed.

Lemma calculateEnergy_value (data : list Z) : energyValue (calculateEnergy data).
Proof.
  destruct data as [|b data].
  - now rewrite calculateEnergy_empty.
  - destruct (calculateEnergy_finite (b :: data)) as (e & -> & He); [discriminate|].
    exact He.
Qed.

(** A frame of zero energy does not count as voice. *)
Lemma zero_energy_not_voice cfg (v z a : number) :
  usableThreshold a ->
  voicePresent (confidenceScore cfg (Fin 0) v z a) = false.
Proof.
  intros Ha. unfold confidenceScore, voicePresent, gt.
  destruct a as [x| | |]; cbn in Ha; try contradiction.
  - rewrite div_Fin by lra. replace (0 / x)%R with 0%R by (unfold Rdiv; ring).
    rewrite min_Fin, Rmin_right by lra.
    destruct v as [y| | |].
    + rewrite div_Fin by lra. rewrite min_Fin.
      pose proof (Rmin_l 1 (y / x)).
      destruct (lt z _); cbn; apply Rltb_false; lra.
    + destruct (lt z _); cbn; unfold signedInf; decide_R; cbn; decide_R;
        cbn; decide_R; reflexivity.
    + destruct (lt z _); cbn; unfold signedInf; decide_R; cbn; decide_R;
        cbn; unfold signedInf; decide_R; reflexivity.
    + now destruct (lt z _).
  - destruct v as [y| | |]; destruct (lt z _); cbn; decide_R; cbn; decide_R;
      reflexivity.
  - now destruct v.
Qed.

(** A frame without voice-band energy does not count as voice. *)
Lemma zero_band_not_voice cfg (e z a : number) :
  usableThreshold a -> energyValue e ->
  voicePresent (confidenceScore cfg e (Fin 0) z a) = false.
Proof.
  intros Ha He. unfold confidenceScore, voicePresent, gt.
  destruct e as [y| | |]; cbn in He; try contradiction; [|reflexivity].
  destruct a as [x| | |]; cbn in Ha; try contradiction.
  - rewrite !div_Fin by lra. replace (0 / x)%R with 0%R by (unfold Rdiv; ring).
    rewrite !min_Fin. rewrite (Rmin_right 1 0) by lra.
    pose proof (Rmin_l 1 (y / x)).
    destruct (lt z _); cbn; apply Rltb_false; lra.
  - destruct (lt z _); cbn; decide_R; cbn; decide_R; reflexivity.
  - reflexivity.
Qed.

Lemma NaN_band_not_voice cfg (e z a : number) :
  voicePresent (confidenceScore cfg e NaN z a) = false.
Proof.
  unfold confidenceScore, voicePresent, gt.
  replace (div NaN a) with NaN by now destruct a.
  set (es := mul (min (Fin 1) (div e a)) (Fin 0.4)).
  replace (mul (min (Fin 1) NaN) (Fin 0.5)) with NaN by reflexivity.
  replace (add es NaN) with NaN by now destruct es.
  reflexivity.
Qed.

Lemma frameConfidence_Fin d tk (e v : R) :
  (0 < energyThreshold (config d))%R ->
  Forall isFinite (energyHistory d) ->
  frameEnergy tk = Fin e ->
  calculateVoiceEnergy d (frequencyData tk) = Fin v ->
  exists a z,
    frameThreshold d tk = Fin a
    /\ (energyThreshold (config d) <= a)%R
    /\ (z = 0 \/ z = 1)%R
    /\ frameConfidence d tk =
       Fin (Rmin 1 (e / a) * 0.4 + Rmin 1 (v / a) * 0.5 + z * 0.1).
Proof.
  intros Hthr Hhist He Hv.
  apply isFinite_map_Fin in Hhist as [xs Hxs].
  destruct (pushEnergy_Fin (fun _ => True) xs e) as (ys & Hys & Hne & _);
    [now apply Forall_forall | exact I |].
  assert (Ha : frameThreshold d tk =
               Fin (Rmax (energyThreshold (config d)) (mean ys * 1.5))).
  { unfold frameThreshold. rewrite Hxs, He, Hys. now apply adaptiveThreshold_Fin. }
  pose proof (Rmax_l (energyThreshold (config d)) (mean ys * 1.5)) as Hle.
  exists (Rmax (energyThreshold (config d)) (mean ys * 1.5)).
  exists (if lt (calculateZeroCrossingRate (timeDomainData tk))
                (Fin (zeroCrossingThreshold (config d))) then 1 else 0)%R.
  split; [exact Ha|]. split; [exact Hle|].
  split; [destruct (lt _ _); auto|].
  unfold frameConfidence. rewrite Ha, He, Hv. apply confidenceScore_Fin. lra.
Qed.

(** X6: in a detector with a positive configured threshold and a finite
    history, a frame with energy [e >= 0] and voice-band energy [v >= 0]
    counts as voice only if [e > 0] and [v] exceeds a fifth of the
    adaptive threshold [a]; it does count as voice when both [e] and [v]
    reach [a], whatever its zero-crossing rate. *)
Theorem voice_needs_energy_in_band (d : Detector) (tk : Tick) (e v : R) :
  (0 < energyThreshold (config d))%R ->
  Forall isFinite (energyHistory d) ->
  frameEnergy tk = Fin e -> (0 <= e)%R ->
  calculateVoiceEnergy d (frequencyData tk) = Fin v -> (0 <= v)%R ->
  exists a,
    frameThreshold d tk = Fin a
    /\ (energyThreshold (config d) <= a)%R
    /\ (heard d tk = true -> (0 < e)%R /\ (a * 0.2 < v)%R)
    /\ ((a <= e)%R -> (a <= v)%R -> heard d tk = true).
Proof.
  intros Hthr Hhist He He0 Hv Hv0.
  destruct (frameConfidence_Fin d tk e v Hthr Hhist He Hv) as (a & z & Ha & Hle & Hz & Hc).
  exists a. split; [exact Ha|]. split; [exact Hle|].
  unfold heard. rewrite Hc. unfold voicePresent, gt, lt. rewrite Rltb_spec.
  assert (Hapos : (0 < a)%R) by lra.
  pose proof (Rmin_unit (e / a)) as He1.
  pose proof (Rmin_unit (v / a)) as Hv1.
  assert (He2 : (0 <= e / a)%R) by (apply div_ge; lra).
  assert (Hv2 : (0 <= v / a)%R) by (apply div_ge; lra).
  specialize (He1 He2). specialize (Hv1 Hv2).
  split.
  - intros Hc06. split.
    + destruct (Rle_lt_dec e 0) as [He'|He']; [|exact He'].
      assert (e = 0%R) by lra. subst e.
      replace (0 / a)%R with 0%R in Hc06 by (unfold Rdiv; ring).
      rewrite (Rmin_right 1 0) in Hc06 by lra. destruct Hz; subst z; lra.
    + assert (Hvs : (0.2 < Rmin 1 (v / a))%R) by (destruct Hz; subst z; lra).
      pose proof (Rmin_r 1 (v / a)) as Hr.
      assert (Hq : (0.2 < v / a)%R) by lra.
      apply Rmult_lt_compat_r with (r := a) in Hq; [|exact Hapos].
      replace (v / a * a)%R with v in Hq by (field; lra). lra.
  - intros Hea Hva.
    assert (1 <= e / a)%R by (apply div_ge; lra).
    assert (1 <= v / a)%R by (apply div_ge; lra).
    rewrite !Rmin_left by lra. destruct Hz; subst z; lra.
Qed.

Lemma voice_needs_energy_in_band_witness :
  let d := listeningDetector in
  let tk := voicedTick 1000 in
  (0 < energyThreshold (config d))%R
  /\ Forall isFinite (energyHistory d)
  /\ frameEnergy tk = Fin (127 / 128)
  /\ calculateVoiceEnergy d (frequencyData tk) = Fin (255 / 255)
  /\ exists a,
       frameThreshold d tk = Fin a
       /\ (energyThreshold (config d) <= a)%R
       /\ (heard d tk = true -> (0 < 127 / 128)%R /\ (a * 0.2 < 255 / 255)%R)
       /\ ((a <= 127 / 128)%R -> (a <= 255 / 255)%R -> heard d tk = true).
Proof.
  cbv zeta.
  assert (H1 : (0 < energyThreshold (config listeningDetector))%R) by (cbn; lra).
  assert (H2 : Forall isFinite (energyHistory listeningDetector)) by constructor.
  pose proof (frameEnergy_voicedTick 1000) as H3.
  pose proof (calculateVoiceEnergy_constant listeningDetector 255
                listeningDetector_default) as H4.
  split; [exact H1|]. split; [exact H2|]. split; [exact H3|]. split; [exact H4|].
  apply (voice_needs_energy_in_band listeningDetector (voicedTick 1000)
           (127 / 128) (255 / 255) H1 H2 H3); [lra | exact H4 | lra].
Defined.

(** One step of the timers on a frame without voice, when not speaking:
    nothing but a noise event can come out. *)
Lemma timerStep_unheard_idle ms me s t n :
  speaking s = false ->
  let r := timerStep ms me s t false n in
  speaking (fst r) = false
  /\ lastSpeech (fst r) = lastSpeech s
  /\ silenceStart (fst r) = silenceStart s
  /\ (speechStart (fst r) = speechStart s \/ speechStart (fst r) = 0)
  /\ snd r = (if n then [(noise, t, None)] else []).
Proof.
  unfold timerStep. destruct s as [sp sst lst silst]; cbn. intros ->. cbn.
  destruct (negb (sst =? 0) && (t - sst <? ms)); cbn; repeat split; auto.
Qed.

Lemma detect_unheard_idle d tk :
  isSpeaking d = false -> heard d tk = false ->
  let r := detect d tk in
  isSpeaking (fst r) = false
  /\ lastSpeechTime (fst r) = lastSpeechTime d
  /\ silenceStartTime (fst r) = silenceStartTime d
  /\ (speechStartTime (fst r) = speechStartTime d \/ speechStartTime (fst r) = 0)
  /\ Forall (fun ev => type ev = noise) (snd r)
  /\ (noisy d tk = false -> snd r = []).
Proof.
  intros Hsp Hheard. destruct (analyser d) eqn:Han.
  - assert (Han' : analyser d <> None) by congruence.
    destruct (detect_timers d tk Han') as (T1 & T2 & _).
    rewrite Hheard in T1, T2.
    apply timersOf_fields in T1 as (F1 & F2 & F3 & F4).
    match type of F1 with
    | _ = speaking (fst (timerStep ?ms ?me ?s ?t false ?n)) =>
        destruct (timerStep_unheard_idle ms me s t n Hsp) as (W1 & W2 & W3 & W4 & W5)
    end.
    cbv zeta. rewrite F1, F2, F3, F4. rewrite W5 in T2.
    split; [exact W1|]. split; [exact W2|]. split; [exact W3|]. split; [exact W4|].
    split.
    + apply Forall_forall. intros ev Hev. apply (in_map signalOf) in Hev.
      rewrite T2 in Hev.
      destruct (onActivityCallback d); [|contradiction].
      destruct (noisy d tk); [|contradiction].
      destruct Hev as [Hev|[]]. now inversion Hev.
    + intros Hn. rewrite Hn in T2.
      destruct (snd (detect d tk)); [reflexivity|].
      destruct (onActivityCallback d); discriminate.
  - rewrite detect_idle by assumption. cbn. repeat split; auto.
Qed.

Lemma calculateVoiceEnergy_inverted (d : Detector) (frequencyData : list Z) :
  (0 <= fftSize (config d))%R ->
  (voiceFrequencyMax (config d) <= voiceFrequencyMin (config d))%R ->
  calculateVoiceEnergy d frequencyData = Fin 0.
Proof.
  intros Hfft Hband. destruct (audioContext d) as [ctx|] eqn:Hctx.
  - apply (calculateVoiceEnergy_no_steps d ctx _ Hctx). cbv zeta.
    pose proof (binOf_monotone (sampleRate ctx) _ _ _ Hfft Hband). lia.
  - unfold calculateVoiceEnergy. now rewrite Hctx.
Qed.

(** X7: with a positive energy threshold and an empty or inverted band
    ([voiceFrequencyMax <= voiceFrequencyMin], which [updateConfig]
    accepts), no frame counts as voice: a detector that is not speaking
    never starts, its [lastSpeechTime] stays, and the only events it
    emits are noise events. *)
Theorem inverted_band_never_speech (d : Detector) (ticks : list Tick) :
  (0 < energyThreshold (config d))%R ->
  (0 <= fftSize (config d))%R ->
  (voiceFrequencyMax (config d) <= voiceFrequencyMin (config d))%R ->
  isSpeaking d = false ->
  (forall tk, heard d tk = false)
  /\ isSpeaking (fst (polls d ticks)) = false
  /\ lastSpeechTime (fst (polls d ticks)) = lastSpeechTime d
  /\ Forall (fun ev => type ev = noise) (snd (polls d ticks)).
Proof.
  intros Hthr Hfft Hband Hsp.
  assert (Hdeaf : forall d', config d' = config d -> forall tk, heard d' tk = false).
  { intros d' Hcfg tk. unfold heard, frameConfidence.
    rewrite calculateVoiceEnergy_inverted by (rewrite Hcfg; assumption).
    apply zero_band_not_voice.
    - unfold frameThreshold. apply adaptiveThreshold_usable. now rewrite Hcfg.
    - apply calculateEnergy_value. }
  split; [now apply Hdeaf|].
  assert (Hrun : forall d', config d' = config d -> isSpeaking d' = false ->
            isSpeaking (fst (polls d' ticks)) = false
            /\ lastSpeechTime (fst (polls d' ticks)) = lastSpeechTime d'
            /\ Forall (fun ev => type ev = noise) (snd (polls d' ticks))).
  { induction ticks as [|tk ticks IH]; intros d' Hcfg Hsp'; cbn [polls].
    - cbn. auto.
    - destruct (detect_unheard_idle d' tk Hsp' (Hdeaf d' Hcfg tk))
        as (D1 & D2 & _ & _ & D5 & _).
      pose proof (detect_config d' tk) as Hcfg1.
      destruct (detect d' tk) as [d1 ev1]. cbn [fst snd] in *.
      destruct (IH d1) as (I1 & I2 & I3); [congruence | exact D1|].
      destruct (polls d1 ticks) as [d2 ev2]. cbn [fst snd] in *.
      repeat split; [exact I1 | congruence | now apply Forall_app]. }
  now apply Hrun.
Qed.

Lemma inverted_band_never_speech_witness :
  let d := updateConfig listeningDetector
             (mkPartial None None None None None (Some 4000%R) None) in
  let ticks := map tickOf twoUtterances in
  (voiceFrequencyMax (config d) <= voiceFrequencyMin (config d))%R
  /\ (forall tk, heard d tk = false)
  /\ isSpeaking (fst (polls d ticks)) = false
  /\ lastSpeechTime (fst (polls d ticks)) = lastSpeechTime d
  /\ Forall (fun ev => type ev = noise) (snd (polls d ticks)).
Proof.
  cbv zeta.
  set (d := updateConfig listeningDetector
              (mkPartial None None None None None (Some 4000%R) None)).
  assert (H1 : (0 < energyThreshold (config d))%R) by (cbn; lra).
  assert (H2 : (0 <= fftSize (config d))%R) by (cbn; lra).
  assert (H3 : (voiceFrequencyMax (config d) <= voiceFrequencyMin (config d))%R)
    by (cbn; lra).
  split; [exact H3|].
  exact (inverted_band_never_speech d _ H1 H2 H3 eq_refl).
Defined.

(** X8: with a positive energy threshold, frames of zero energy (every
    sample at 128) polled by a detector that is not speaking emit no
    event, do not start it and leave [lastSpeechTime] as it was. *)
Theorem silence_emits_nothing (d : Detector) (ticks : list Tick) :
  (0 < energyThreshold (config d))%R ->
  isSpeaking d = false ->
  Forall (fun tk => frameEnergy tk = Fin 0) ticks ->
  snd (polls d ticks) = []
  /\ isSpeaking (fst (polls d ticks)) = false
  /\ lastSpeechTime (fst (polls d ticks)) = lastSpeechTime d.
Proof.
  intros Hthr Hsp Hticks.
  assert (Hrun : forall d', config d' = config d -> isSpeaking d' = false ->
            snd (polls d' ticks) = []
            /\ isSpeaking (fst (polls d' ticks)) = false
            /\ lastSpeechTime (fst (polls d' ticks)) = lastSpeechTime d').
  { induction Hticks as [|tk ticks Htk _ IH]; intros d' Hcfg Hsp'; cbn [polls].
    - cbn. auto.
    - assert (Hheard : heard d' tk = false).
      { unfold heard, frameConfidence. rewrite Htk. apply zero_energy_not_voice.
        unfold frameThreshold. apply adaptiveThreshold_usable. now rewrite Hcfg. }
      assert (Hnoisy : noisy d' tk = false).
      { unfold noisy. rewrite Htk, Hcfg. cbn. apply Rltb_false. lra. }
      destruct (detect_unheard_idle d' tk Hsp' Hheard) as (D1 & D2 & _ & _ & _ & D6).
      specialize (D6 Hnoisy).
      pose proof (detect_config d' tk) as Hcfg1.
      destruct (detect d' tk) as [d1 ev1]. cbn [fst snd] in *.
      destruct (IH d1) as (I1 & I2 & I3); [congruence | exact D1|].
      destruct (polls d1 ticks) as [d2 ev2]. cbn [fst snd] in *.
      subst ev1 ev2. repeat split; [exact I2 | congruence]. }
  now apply Hrun.
Qed.

Lemma silence_emits_nothing_witness :
  let ticks := [silentTick 1000; silentTick 1016; silentTick 1032] in
  Forall (fun tk => frameEnergy tk = Fin 0) ticks
  /\ snd (polls listeningDetector ticks) = []
  /\ isSpeaking (fst (polls listeningDetector ticks)) = false
  /\ lastSpeechTime (fst (polls listeningDetector ticks)) =
     lastSpeechTime listeningDetector.
Proof.
  cbv zeta.
  assert (H1 : (0 < energyThreshold (config listeningDetector))%R) by (cbn; lra).
  assert (H2 : Forall (fun tk => frameEnergy tk = Fin 0)
                 [silentTick 1000; silentTick 1016; silentTick 1032])
    by (repeat constructor; apply frameEnergy_silentTick).
  split; [exact H2|].
  exact (silence_emits_nothing listeningDetector _ H1 eq_refl H2).
Defined.

(** ** X9-X11: sustained voice and sustained silence *)

Lemma polls_callback ticks : forall d,
  onActivityCallback (fst (polls d ticks)) = onActivityCallback d.
Proof.
  induction ticks as [|tk ticks IH]; intros d; cbn; [reflexivity|].
  assert (H : onActivityCallback (fst (detect d tk)) = onActivityCallback d).
  { destruct (analyser d) eqn:Han.
    - apply detect_timers. congruence.
    - now rewrite detect_idle. }
  destruct (detect d tk) as [d1 ev1].
  specialize (IH d1). destruct (polls d1 ticks). cbn in *. congruence.
Qed.

Lemma heardThroughout_app voice ticks1 : forall d ticks2,
  heardThroughout voice d (ticks1 ++ ticks2) <->
  heardThroughout voice d ticks1
  /\ heardThroughout voice (fst (polls d ticks1)) ticks2.
Proof.
  induction ticks1 as [|tk ticks1 IH]; intros d ticks2; cbn.
  - tauto.
  - rewrite IH. destruct (detect d tk) as [d1 ev1]; cbn [fst].
    destruct (polls d1 ticks1); cbn [fst]. tauto.
Qed.

(** What [detect] does with a frame that counts as voice. *)
Lemma detect_heard d tk :
  analyser d <> None -> heard d tk = true ->
  let r := detect d tk in
  let ms := minSpeechDuration (config d) in
  lastSpeechTime (fst r) = now tk
  /\ (isSpeaking d = true ->
      isSpeaking (fst r) = true
      /\ speechStartTime (fst r) = speechStartTime d
      /\ silenceStartTime (fst r) = silenceStartTime d
      /\ map signalOf (snd r) =
         if onActivityCallback d then [(speech_active, now tk, None)] else [])
  /\ (isSpeaking d = false -> speechStartTime d = 0 ->
      isSpeaking (fst r) = false /\ speechStartTime (fst r) = now tk
      /\ snd r = [])
  /\ (isSpeaking d = false -> speechStartTime d <> 0 ->
      now tk - speechStartTime d < ms ->
      isSpeaking (fst r) = false /\ speechStartTime (fst r) = speechStartTime d
      /\ snd r = [])
  /\ (isSpeaking d = false -> speechStartTime d <> 0 ->
      now tk - speechStartTime d >= ms ->
      isSpeaking (fst r) = true /\ speechStartTime (fst r) = speechStartTime d
      /\ silenceStartTime (fst r) = 0
      /\ map signalOf (snd r) =
         if onActivityCallback d then [(speech_start, now tk, None)] else []).
Proof.
  intros Han Hheard. destruct (detect_timers d tk Han) as (T1 & T2 & _).
  rewrite Hheard in T1, T2. apply timersOf_fields in T1 as (F1 & F2 & F3 & F4).
  cbv zeta. rewrite F1, F2, F3, F4.
  assert (Hnil : forall l : list VoiceActivityEvent,
            map signalOf l = (if onActivityCallback d then [] else []) -> l = []).
  { intros l H. destruct l; [reflexivity|]. destruct (onActivityCallback d); discriminate. }
  split; [apply timerStep_voice|].
  unfold timerStep in *; cbn [timersOf speaking speechStart lastSpeech silenceStart] in *.
  repeat split; intros;
    repeat match goal with
    | H : isSpeaking d = _ |- _ => rewrite H in *; clear H
    | H : speechStartTime d = 0 |- _ => rewrite H in *; clear H
    end; cbn [negb fst snd speaking speechStart lastSpeech silenceStart] in *;
    try reflexivity; try exact T2;
    try (destruct (speechStartTime d =? 0) eqn:E0; [apply Z.eqb_eq in E0; contradiction|];
         destruct (now tk - speechStartTime d >=? minSpeechDuration (config d)) eqn:E1;
         rewrite Z.geb_leb in E1;
         [apply Z.leb_le in E1 | apply Z.leb_gt in E1]; try lia;
         cbn [fst snd speaking speechStart lastSpeech silenceStart] in *;
         try reflexivity; try exact T2; try (apply Hnil; exact T2)).
  apply Hnil. exact T2.
Qed.

(** What [detect] does with a frame without voice while speaking. *)
Lemma detect_unheard_speaking d tk :
  analyser d <> None -> heard d tk = false -> isSpeaking d = true ->
  let r := detect d tk in
  let me := minSilenceDuration (config d) in
  lastSpeechTime (fst r) = lastSpeechTime d
  /\ (silenceStartTime d = 0 ->
      isSpeaking (fst r) = true /\ silenceStartTime (fst r) = now tk
      /\ speechStartTime (fst r) = speechStartTime d /\ snd r = [])
  /\ (silenceStartTime d <> 0 -> now tk - silenceStartTime d < me ->
      isSpeaking (fst r) = true /\ silenceStartTime (fst r) = silenceStartTime d
      /\ speechStartTime (fst r) = speechStartTime d /\ snd r = [])
  /\ (silenceStartTime d <> 0 -> now tk - silenceStartTime d >= me ->
      isSpeaking (fst r) = false /\ silenceStartTime (fst r) = 0
      /\ speechStartTime (fst r) = 0
      /\ map signalOf (snd r) =
         if onActivityCallback d
         then [(speech_end, now tk, Some (now tk - lastSpeechTime d + me))]
         else []).
Proof.
  intros Han Hheard Hsp. destruct (detect_timers d tk Han) as (T1 & T2 & _).
  rewrite Hheard in T1, T2. apply timersOf_fields in T1 as (F1 & F2 & F3 & F4).
  cbv zeta. rewrite F1, F2, F3, F4.
  assert (Hnil : forall l : list VoiceActivityEvent,
            map signalOf l = (if onActivityCallback d then [] else []) -> l = []).
  { intros l H. destruct l; [reflexivity|]. destruct (onActivityCallback d); discriminate. }
  unfold timerStep in *; cbn [timersOf speaking speechStart lastSpeech silenceStart] in *.
  rewrite Hsp in *.
  split.
  - destruct (silenceStartTime d =? 0); [reflexivity|].
    now destruct (now tk - silenceStartTime d >=? minSilenceDuration (config d)).
  - repeat split; intros;
      repeat match goal with
      | H : silenceStartTime d = 0 |- _ => rewrite H in *; clear H
      end; cbn [negb fst snd speaking speechStart lastSpeech silenceStart] in *;
      try reflexivity; try (apply Hnil; exact T2);
      try (destruct (silenceStartTime d =? 0) eqn:E0; [apply Z.eqb_eq in E0; contradiction|];
           destruct (now tk - silenceStartTime d >=? minSilenceDuration (config d)) eqn:E1;
           rewrite Z.geb_leb in E1;
           [apply Z.leb_le in E1 | apply Z.leb_gt in E1]; try lia;
           cbn [fst snd speaking speechStart lastSpeech silenceStart] in *;
           try reflexivity; try exact T2; try (apply Hnil; exact T2));
      try exact Hsp.
Qed.

Lemma detect_keeps d tk :
  analyser d <> None ->
  analyser (fst (detect d tk)) <> None
  /\ config (fst (detect d tk)) = config d
  /\ onActivityCallback (fst (detect d tk)) = onActivityCallback d.
Proof.
  intros Han. destruct (detect_timers d tk Han) as (_ & _ & _ & H1 & H2 & H3 & _).
  repeat split; congruence.
Qed.

(** Frames with voice while the start is being counted, all less than
    [minSpeechDuration] after the count began: nothing is emitted. *)
Lemma polls_voice_counting early : forall d,
  analyser d <> None -> isSpeaking d = false -> speechStartTime d <> 0 ->
  Forall (fun tk => now tk - speechStartTime d < minSpeechDuration (config d)) early ->
  heardThroughout true d early ->
  let r := polls d early in
  snd r = [] /\ isSpeaking (fst r) = false
  /\ speechStartTime (fst r) = speechStartTime d.
Proof.
  induction early as [|tk early IH]; intros d Han Hsp Hsst Hearly Hheard; cbn [polls].
  - cbn. auto.
  - inversion Hearly as [|? ? Htk Hrest]; subst. destruct Hheard as [Hh Hheard].
    destruct (detect_heard d tk Han Hh) as (_ & _ & _ & D & _).
    destruct (D Hsp Hsst Htk) as (D1 & D2 & D3).
    destruct (detect_keeps d tk Han) as (K1 & K2 & _).
    destruct (detect d tk) as [d1 ev1]. cbn [fst snd] in *.
    assert (Hrest1 : Forall (fun tk => now tk - speechStartTime d1
                                       < minSpeechDuration (config d1)) early)
      by (rewrite D2, K2; exact Hrest).
    assert (Hsst1 : speechStartTime d1 <> 0) by congruence.
    destruct (IH d1 K1 D1 Hsst1 Hrest1 Hheard) as (I1 & I2 & I3).
    destruct (polls d1 early) as [d2 ev2]. cbn [fst snd] in *.
    subst. repeat split; congruence.
Qed.

Lemma last_cons {A : Type} (l : list A) : forall x d, last (x :: l) d = last l x.
Proof.
  induction l as [|y l IH]; intros x d; [reflexivity|].
  change (last (x :: y :: l) d) with (last (y :: l) d). now rewrite !IH.
Qed.

(** Frames with voice while speaking: one [speech_active] each. *)
Lemma polls_voice_active later : forall d,
  analyser d <> None -> onActivityCallback d = true -> isSpeaking d = true ->
  heardThroughout true d later ->
  let r := polls d later in
  map signalOf (snd r) = map (fun tk => (speech_active, now tk, None)) later
  /\ isSpeaking (fst r) = true
  /\ speechStartTime (fst r) = speechStartTime d
  /\ lastSpeechTime (fst r) = last (map now later) (lastSpeechTime d).
Proof.
  induction later as [|tk later IH]; intros d Han Hcb Hsp Hheard; cbn [polls].
  - cbn. auto.
  - destruct Hheard as [Hh Hheard].
    destruct (detect_heard d tk Han Hh) as (L & D & _).
    destruct (D Hsp) as (D1 & D2 & _ & D4). rewrite Hcb in D4.
    destruct (detect_keeps d tk Han) as (K1 & K2 & K3).
    destruct (detect d tk) as [d1 ev1]. cbn [fst snd] in *.
    destruct (IH d1) as (I1 & I2 & I3 & I4); auto; try congruence.
    destruct (polls d1 later) as [d2 ev2]. cbn [fst snd] in *.
    rewrite map_app, D4, I1. repeat split; try congruence.
    rewrite I4, L. cbn [map]. now rewrite last_cons.
Qed.

(** Reference frames that all have voice, or all lack it. *)
Lemma heardThroughout_tickOf voice script : forall d,
  defaultListening d -> onActivityCallback d = true ->
  Forall (fun x => snd x = voice) script ->
  heardThroughout voice d (map tickOf script).
Proof.
  induction script as [|x script IH]; intros d Hd Hcb Hall; cbn.
  - exact I.
  - inversion Hall as [|? ? Hx Hrest]; subst.
    split; [now apply heard_tickOf|].
    destruct (detect_tickOf d x Hd Hcb) as (_ & _ & Hd1 & Hcb1 & _).
    now apply IH.
Qed.

(** X9: unbroken voice is confirmed.  A listening detector that is not
    speaking and not counting polls frames that all count as voice: the
    first at a time other than 0, some less than [minSpeechDuration]
    after it, then one at least [minSpeechDuration] after it.  That frame
    emits the one [speech_start], no frame before it emits anything and
    every frame after it emits [speech_active]. *)
Theorem sustained_voice_confirms_speech
    (d : Detector) (tk0 : Tick) (early : list Tick) (tk1 : Tick)
    (later : list Tick) :
  analyser d <> None -> onActivityCallback d = true ->
  isSpeaking d = false -> speechStartTime d = 0 ->
  now tk0 <> 0 ->
  Forall (fun tk => now tk - now tk0 < minSpeechDuration (config d)) early ->
  now tk1 - now tk0 >= minSpeechDuration (config d) ->
  heardThroughout true d (tk0 :: early ++ tk1 :: later) ->
  let r := polls d (tk0 :: early ++ tk1 :: later) in
  map signalOf (snd r) =
    (speech_start, now tk1, None)
    :: map (fun tk => (speech_active, now tk, None)) later
  /\ isSpeaking (fst r) = true
  /\ speechStartTime (fst r) = now tk0
  /\ lastSpeechTime (fst r) = last (map now later) (now tk1).
Proof.
  intros Han Hcb Hsp Hsst Ht0 Hearly Htk1 Hheard. cbv zeta.
  change (tk0 :: early ++ tk1 :: later) with ([tk0] ++ early ++ [tk1] ++ later) in *.
  apply heardThroughout_app in Hheard as [H0 Hheard].
  apply heardThroughout_app in Hheard as [He Hheard].
  apply heardThroughout_app in Hheard as [H1 Hl].
  rewrite !polls_app. cbn [fst snd].
  (* the first frame *)
  assert (A : snd (polls d [tk0]) = []
              /\ isSpeaking (fst (polls d [tk0])) = false
              /\ speechStartTime (fst (polls d [tk0])) = now tk0).
  { cbn [polls]. destruct H0 as [H0 _].
    destruct (detect_heard d tk0 Han H0) as (_ & _ & D & _).
    destruct (D Hsp Hsst) as (D1 & D2 & D3).
    destruct (detect d tk0) as [d1 ev1]. cbn [fst snd] in *. subst.
    repeat split; auto. }
  pose proof (polls_analyser [tk0] d) as A1.
  pose proof (polls_config [tk0] d) as A2.
  pose proof (polls_callback [tk0] d) as A3.
  set (da := fst (polls d [tk0])) in *.
  destruct A as (Aev & Asp & Asst). rewrite Aev.
  (* the frames before the window closes *)
  assert (Hearly1 : Forall (fun tk => now tk - speechStartTime da
                                      < minSpeechDuration (config da)) early)
    by (rewrite Asst, A2; exact Hearly).
  assert (Hana : analyser da <> None) by congruence.
  assert (Hssta : speechStartTime da <> 0) by congruence.
  destruct (polls_voice_counting early da Hana Asp Hssta Hearly1 He)
    as (Bev & Bsp & Bsst).
  pose proof (polls_analyser early da) as B1.
  pose proof (polls_config early da) as B2.
  pose proof (polls_callback early da) as B3.
  set (db := fst (polls da early)) in *. rewrite Bev.
  (* the frame that confirms *)
  assert (C : map signalOf (snd (polls db [tk1])) = [(speech_start, now tk1, None)]
              /\ isSpeaking (fst (polls db [tk1])) = true
              /\ speechStartTime (fst (polls db [tk1])) = now tk0
              /\ lastSpeechTime (fst (polls db [tk1])) = now tk1).
  { cbn [polls]. destruct H1 as [H1 _].
    assert (Hanb : analyser db <> None) by congruence.
    destruct (detect_heard db tk1 Hanb H1) as (L & _ & _ & _ & D).
    assert (Hlate : now tk1 - speechStartTime db >= minSpeechDuration (config db))
      by (rewrite Bsst, Asst, B2, A2; exact Htk1).
    assert (Hcount : speechStartTime db <> 0) by congruence.
    destruct (D Bsp Hcount Hlate) as (D1 & D2 & D3 & D4).
    replace (onActivityCallback db) with true in D4 by congruence.
    destruct (detect db tk1) as [d1 ev1]. cbn [fst snd] in *.
    rewrite app_nil_r. repeat split; congruence. }
  pose proof (polls_analyser [tk1] db) as C1.
  pose proof (polls_callback [tk1] db) as C3.
  set (dc := fst (polls db [tk1])) in *.
  destruct C as (Cev & Csp & Csst & Clst).
  (* the frames after it *)
  destruct (polls_voice_active later dc) as (Dev & Dsp & Dsst & Dlst); auto;
    try congruence.
  cbn [app]. rewrite map_app, Cev, Dev. repeat split; try congruence.
Qed.

Lemma sustained_voice_confirms_speech_witness :
  let d := listeningDetector in
  let ticks := voicedTick 1000 :: [voicedTick 1100; voicedTick 1200]
                 ++ voicedTick 1300 :: [voicedTick 1400] in
  heardThroughout true d ticks
  /\ map signalOf (snd (polls d ticks)) =
     [(speech_start, 1300, None); (speech_active, 1400, None)]
  /\ isSpeaking (fst (polls d ticks)) = true.
Proof.
  cbv zeta.
  assert (H : heardThroughout true listeningDetector
                (voicedTick 1000 :: [voicedTick 1100; voicedTick 1200]
                   ++ voicedTick 1300 :: [voicedTick 1400])).
  { apply (heardThroughout_tickOf true
             [(1000, true); (1100, true); (1200, true); (1300, true); (1400, true)]).
    - apply listeningDetector_default.
    - reflexivity.
    - repeat constructor. }
  split; [exact H|].
  destruct (sustained_voice_confirms_speech listeningDetector (voicedTick 1000)
              [voicedTick 1100; voicedTick 1200] (voicedTick 1300) [voicedTick 1400])
    as (E1 & E2 & _); try reflexivity; try exact H.
  - discriminate.
  - discriminate.
  - repeat constructor.
  - cbn. lia.
  - split; [exact E1 | exact E2].
Defined.

(** Frames without voice while the end is being counted, all less than
    [minSilenceDuration] after the count began: nothing is emitted. *)
Lemma polls_silence_counting early : forall d,
  analyser d <> None -> isSpeaking d = true -> silenceStartTime d <> 0 ->
  Forall (fun tk => now tk - silenceStartTime d < minSilenceDuration (config d))
    early ->
  heardThroughout false d early ->
  let r := polls d early in
  snd r = [] /\ isSpeaking (fst r) = true
  /\ silenceStartTime (fst r) = silenceStartTime d
  /\ lastSpeechTime (fst r) = lastSpeechTime d.
Proof.
  induction early as [|tk early IH]; intros d Han Hsp Hsil Hearly Hheard; cbn [polls].
  - cbn. auto.
  - inversion Hearly as [|? ? Htk Hrest]; subst. destruct Hheard as [Hh Hheard].
    destruct (detect_unheard_speaking d tk Han Hh Hsp) as (L & _ & D & _).
    destruct (D Hsil Htk) as (D1 & D2 & _ & D4).
    destruct (detect_keeps d tk Han) as (K1 & K2 & _).
    destruct (detect d tk) as [d1 ev1]. cbn [fst snd] in *.
    assert (Hrest1 : Forall (fun tk => now tk - silenceStartTime d1
                                       < minSilenceDuration (config d1)) early)
      by (rewrite D2, K2; exact Hrest).
    assert (Hsil1 : silenceStartTime d1 <> 0) by congruence.
    destruct (IH d1 K1 D1 Hsil1 Hrest1 Hheard) as (I1 & I2 & I3 & I4).
    destruct (polls d1 early) as [d2 ev2]. cbn [fst snd] in *.
    subst. repeat split; congruence.
Qed.

(** Frames without voice while not speaking: noise events at most. *)
Lemma polls_silence_idle later : forall d,
  isSpeaking d = false -> heardThroughout false d later ->
  let r := polls d later in
  Forall (fun ev => type ev = noise) (snd r)
  /\ isSpeaking (fst r) = false
  /\ lastSpeechTime (fst r) = lastSpeechTime d.
Proof.
  induction later as [|tk later IH]; intros d Hsp Hheard; cbn [polls].
  - cbn. auto.
  - destruct Hheard as [Hh Hheard].
    destruct (detect_unheard_idle d tk Hsp Hh) as (D1 & D2 & _ & _ & D5 & _).
    destruct (detect d tk) as [d1 ev1]. cbn [fst snd] in *.
    destruct (IH d1 D1 Hheard) as (I1 & I2 & I3).
    destruct (polls d1 later) as [d2 ev2]. cbn [fst snd] in *.
    repeat split; [now apply Forall_app | exact I2 | congruence].
Qed.

(** X10: unbroken silence ends the speech.  A listening detector that
    is speaking, with no silence being counted, polls frames that all
    lack voice: the first at a time other than 0, some less than
    [minSilenceDuration] after it, then one at least
    [minSilenceDuration] after it.  That frame emits the [speech_end],
    whose duration runs from the last voice frame
    ([lastSpeechTime]); no frame before it emits anything, and the
    frames after it emit noise events at most.  [lastSpeechTime] is
    kept throughout. *)
Theorem sustained_silence_ends_speech
    (d : Detector) (tk0 : Tick) (early : list Tick) (tk1 : Tick)
    (later : list Tick) :
  analyser d <> None -> onActivityCallback d = true ->
  isSpeaking d = true -> silenceStartTime d = 0 ->
  now tk0 <> 0 ->
  Forall (fun tk => now tk - now tk0 < minSilenceDuration (config d)) early ->
  now tk1 - now tk0 >= minSilenceDuration (config d) ->
  heardThroughout false d (tk0 :: early ++ tk1 :: later) ->
  let r := polls d (tk0 :: early ++ tk1 :: later) in
  exists ev rest,
    snd r = ev :: rest
    /\ signalOf ev =
       (speech_end, now tk1,
        Some (now tk1 - lastSpeechTime d + minSilenceDuration (config d)))
    /\ Forall (fun ev => type ev = noise) rest
    /\ isSpeaking (fst r) = false
    /\ lastSpeechTime (fst r) = lastSpeechTime d.
Proof.
  intros Han Hcb Hsp Hsil Ht0 Hearly Htk1 Hheard. cbv zeta.
  change (tk0 :: early ++ tk1 :: later) with ([tk0] ++ early ++ [tk1] ++ later) in *.
  apply heardThroughout_app in Hheard as [H0 Hheard].
  apply heardThroughout_app in Hheard as [He Hheard].
  apply heardThroughout_app in Hheard as [H1 Hl].
  rewrite !polls_app. cbn [fst snd].
  (* the first frame *)
  assert (A : snd (polls d [tk0]) = []
              /\ isSpeaking (fst (polls d [tk0])) = true
              /\ silenceStartTime (fst (polls d [tk0])) = now tk0
              /\ lastSpeechTime (fst (polls d [tk0])) = lastSpeechTime d).
  { cbn [polls]. destruct H0 as [H0 _].
    destruct (detect_unheard_speaking d tk0 Han H0 Hsp) as (L & D & _).
    destruct (D Hsil) as (D1 & D2 & _ & D4).
    destruct (detect d tk0) as [d1 ev1]. cbn [fst snd] in *. subst.
    repeat split; auto. }
  pose proof (polls_analyser [tk0] d) as A1.
  pose proof (polls_config [tk0] d) as A2.
  pose proof (polls_callback [tk0] d) as A3.
  set (da := fst (polls d [tk0])) in *.
  destruct A as (Aev & Asp & Asil & Alst). rewrite Aev.
  (* the frames before the window closes *)
  assert (Hearly1 : Forall (fun tk => now tk - silenceStartTime da
                                      < minSilenceDuration (config da)) early)
    by (rewrite Asil, A2; exact Hearly).
  assert (Hana : analyser da <> None) by congruence.
  assert (Hsila : silenceStartTime da <> 0) by congruence.
  destruct (polls_silence_counting early da Hana Asp Hsila Hearly1 He)
    as (Bev & Bsp & Bsil & Blst).
  pose proof (polls_analyser early da) as B1.
  pose proof (polls_config early da) as B2.
  pose proof (polls_callback early da) as B3.
  set (db := fst (polls da early)) in *. rewrite Bev.
  (* the frame that confirms *)
  assert (C : map signalOf (snd (polls db [tk1])) =
              [(speech_end, now tk1,
                Some (now tk1 - lastSpeechTime d + minSilenceDuration (config d)))]
              /\ isSpeaking (fst (polls db [tk1])) = false
              /\ lastSpeechTime (fst (polls db [tk1])) = lastSpeechTime d).
  { cbn [polls]. destruct H1 as [H1 _].
    assert (Hanb : analyser db <> None) by congruence.
    destruct (detect_unheard_speaking db tk1 Hanb H1 Bsp) as (L & _ & _ & D).
    assert (Hlate : now tk1 - silenceStartTime db >= minSilenceDuration (config db))
      by (rewrite Bsil, Asil, B2, A2; exact Htk1).
    assert (Hcount : silenceStartTime db <> 0) by congruence.
    destruct (D Hcount Hlate) as (D1 & _ & _ & D4).
    replace (onActivityCallback db) with true in D4 by congruence.
    destruct (detect db tk1) as [d1 ev1]. cbn [fst snd] in *.
    rewrite app_nil_r, D4, Blst, Alst, B2, A2. repeat split; congruence. }
  set (dc := fst (polls db [tk1])) in *.
  destruct C as (Cev & Csp & Clst).
  (* the frames after it *)
  destruct (polls_silence_idle later dc Csp Hl) as (Dev & Dsp & Dlst).
  destruct (snd (polls db [tk1])) as [|ev [|]] eqn:Eev; try discriminate.
  exists ev, (snd (polls dc later)). cbn [fst snd app].
  inversion Cev as [Hev]. repeat split; try assumption. congruence.
Qed.

Lemma sustained_silence_ends_speech_witness :
  let d := fst (polls listeningDetector [voicedTick 1000; voicedTick 1300]) in
  let ticks := silentTick 2000 :: [silentTick 2400]
                 ++ silentTick 2800 :: [silentTick 2900] in
  heardThroughout false d ticks
  /\ exists ev rest,
       snd (polls d ticks) = ev :: rest
       /\ signalOf ev =
          (speech_end, 2800,
           Some (2800 - lastSpeechTime d + minSilenceDuration (config d)))
       /\ Forall (fun ev => type ev = noise) rest
       /\ isSpeaking (fst (polls d ticks)) = false
       /\ lastSpeechTime (fst (polls d ticks)) = lastSpeechTime d.
Proof.
  cbv zeta.
  pose proof (polls_tickOf [(1000, true); (1300, true)] listeningDetector
                listeningDetector_default eq_refl) as [T _].
  pose proof (polls_tickOf_state [(1000, true); (1300, true)] listeningDetector
                listeningDetector_default eq_refl) as [Hd Hcb].
  pose proof (polls_config [voicedTick 1000; voicedTick 1300] listeningDetector) as Hcfg.
  change (map tickOf [(1000, true); (1300, true)])
    with [voicedTick 1000; voicedTick 1300] in *.
  remember (fst (polls listeningDetector [voicedTick 1000; voicedTick 1300])) as d
    eqn:Ed.
  change (timersOf d =
          fst (runTimers 300 800 (mkTimers false 0 0 0)
                 (scheduleOf [(1000, true); (1300, true)]))) in T.
  assert (T' : timersOf d = mkTimers true 1000 1300 0)
    by (rewrite T; vm_compute; reflexivity).
  apply timersOf_fields in T' as (F1 & _ & _ & F4). cbn in F1, F4.
  assert (Hme : minSilenceDuration (config d) = 800) by now rewrite Hcfg.
  assert (H : heardThroughout false d
                (silentTick 2000 :: [silentTick 2400]
                   ++ silentTick 2800 :: [silentTick 2900])).
  { apply (heardThroughout_tickOf false
             [(2000, false); (2400, false); (2800, false); (2900, false)]);
      [exact Hd | exact Hcb | repeat constructor]. }
  split; [exact H|].
  apply (sustained_silence_ends_speech d (silentTick 2000) [silentTick 2400]
           (silentTick 2800) [silentTick 2900]);
    [apply Hd | exact Hcb | exact F1 | exact F4 | discriminate
    | rewrite Hme; repeat constructor | rewrite Hme; cbn; lia | exact H].
Defined.

(** How a step can leave the timers counting toward an end. *)
Lemma timerStep_silence_counting ms me s t v n :
  let s' := fst (timerStep ms me s t v n) in
  speaking s' = true -> silenceStart s' <> 0 ->
  speaking s = true
  /\ ((silenceStart s <> 0 /\ silenceStart s' = silenceStart s)
      \/ (silenceStart s = 0 /\ v = false /\ silenceStart s' = t)).
Proof.
  unfold timerStep. destruct s as [sp sst lst silst]; cbn.
  destruct v, sp; cbn;
    repeat match goal with
    | |- context [if ?b then _ else _] => destruct b eqn:?; cbn
    end;
    intros H1 H2; try congruence; split; auto;
    try (left; split; [assumption | reflexivity]);
    try (right; repeat split; lia).
Qed.

Lemma timerStep_speech_end_timer ms me s t v n sg :
  In sg (snd (timerStep ms me s t v n)) ->
  fst (fst sg) = speech_end ->
  speaking s = true /\ silenceStart s <> 0 /\ t - silenceStart s >= me
  /\ snd (fst sg) = t.
Proof.
  unfold timerStep. destruct s as [sp sst lst silst]; cbn.
  destruct v, sp; cbn;
    repeat match goal with
    | |- context [if ?b then _ else _] => destruct b eqn:?; cbn
    end;
    intros H; repeat (destruct H as [<-|H]; [cbn; intros; try congruence|]);
    try contradiction.
  repeat split; lia.
Qed.

Lemma exec_silence_counting d op :
  let d1 := fst (exec d op) in
  isSpeaking d1 = true -> silenceStartTime d1 <> 0 ->
  isSpeaking d = true
  /\ ((silenceStartTime d <> 0 /\ silenceStartTime d1 = silenceStartTime d)
      \/ (silenceStartTime d = 0
          /\ exists d' tk,
               running d op = Some (d', tk) /\ heard d' tk = false
               /\ silenceStartTime d1 = now tk)).
Proof.
  pose proof (exec_timers d op) as H.
  destruct (running d op) as [[d' tk]|].
  - destruct H as (H1 & _ & _).
    apply timersOf_fields in H1 as (Hsp & _ & _ & Hsil).
    cbv zeta. rewrite Hsp, Hsil. intros K1 K2.
    match type of K1 with
    | speaking (fst (timerStep ?ms ?me ?s ?t ?v ?n)) = _ =>
        destruct (timerStep_silence_counting ms me s t v n K1 K2) as (C1 & C2)
    end.
    split; [exact C1|]. destruct C2 as [C2|(C2 & C3 & C4)]; [left; exact C2|].
    right. split; [exact C2|]. exists d', tk. auto.
  - destruct H as (_ & [H|H]); apply timersOf_fields in H as (Hsp & _ & _ & Hsil);
      cbv zeta; rewrite Hsp, Hsil; cbn; intros; auto; congruence.
Qed.

Lemma exec_speech_end_timer d op ev :
  In ev (snd (exec d op)) ->
  type ev = speech_end ->
  isSpeaking d = true /\ silenceStartTime d <> 0
  /\ timestamp ev - silenceStartTime d >= minSilenceDuration (config d).
Proof.
  intros Hev Hty. pose proof (exec_timers d op) as H.
  destruct (running d op) as [[d' tk]|].
  - destruct H as (_ & H2 & _). specialize (H2 ev Hev).
    apply timerStep_speech_end_timer in H2 as (Hsp & Hsil & Hlate & Ht); [|exact Hty].
    cbn [timersOf speaking silenceStart signalOf fst snd] in *.
    repeat split; auto. lia.
  - destruct H as [H _]. rewrite H in Hev. contradiction.
Qed.

(** While the detector counts toward an end, [silenceStartTime] is the
    time of a frame without voice that it polled while speaking, and it
    has been speaking since. *)
Lemma silence_since_frame ops : forall d0,
  silenceStartTime d0 = 0 ->
  isSpeaking (fst (execs d0 ops)) = true ->
  silenceStartTime (fst (execs d0 ops)) <> 0 ->
  exists pre sop mid d' tk,
    ops = pre ++ sop :: mid
    /\ running (fst (execs d0 pre)) sop = Some (d', tk)
    /\ heard d' tk = false
    /\ isSpeaking (fst (execs d0 pre)) = true
    /\ alongRun staysSpeaking (fst (execs d0 (pre ++ [sop]))) mid
    /\ silenceStartTime (fst (execs d0 ops)) = now tk.
Proof.
  induction ops as [|op ops IH] using rev_ind; intros d0 H0 Hsp Hsil.
  - cbn in Hsil. congruence.
  - rewrite execs_snoc in *. cbn [fst] in *.
    destruct (exec_silence_counting (fst (execs d0 ops)) op Hsp Hsil)
      as [Hsp1 [[Hnz Hsame]|(Hz & d' & tk & Hrun & Hh & Hnow)]].
    + destruct (IH d0 H0 Hsp1 Hnz)
        as (pre & sop & mid & d' & tk & Hops & Hrun & Hh & Hpre & Hmid & Ht).
      assert (Hstay : staysSpeaking (fst (execs d0 ops)) op) by exact Hsp.
      destruct (alongRun_extend _ d0 ops pre sop mid op Hops Hmid Hstay) as [E1 E2].
      exists pre, sop, (mid ++ [op]), d', tk. repeat split; auto. congruence.
    + exists ops, op, [], d', tk. repeat split; auto.
Qed.

(** X11: where a [speech_end] comes from.  In a detector built by the
    constructor, a [speech_end] is only emitted at least
    [minSilenceDuration] after a frame without voice that was polled
    while speaking, at a time other than 0, and with the detector
    speaking ever since: no end and no [stop] in between.  Frames with
    voice in between are not excluded. *)
Theorem speech_end_needs_counted_silence
    (p : PartialConfig) (ops : list Op) (op : Op) (ev : VoiceActivityEvent) :
  let d0 := newDetector p in
  let d := fst (execs d0 ops) in
  In ev (snd (exec d op)) ->
  type ev = speech_end ->
  exists pre sop mid d' tk,
    ops = pre ++ sop :: mid
    /\ running (fst (execs d0 pre)) sop = Some (d', tk)
    /\ heard d' tk = false
    /\ isSpeaking (fst (execs d0 pre)) = true
    /\ alongRun staysSpeaking (fst (execs d0 (pre ++ [sop]))) mid
    /\ now tk <> 0
    /\ timestamp ev - now tk >= minSilenceDuration (config d).
Proof.
  cbv zeta. intros Hev Hty.
  destruct (exec_speech_end_timer _ _ _ Hev Hty) as (Hsp & Hsil & Hlate).
  destruct (silence_since_frame ops (newDetector p) eq_refl Hsp Hsil)
    as (pre & sop & mid & d' & tk & Hops & Hrun & Hh & Hpre & Hmid & Ht).
  exists pre, sop, mid, d', tk. repeat split; auto; congruence.
Qed.

(** The speech of the first four frames of [twoUtterances] ends at the
    silent frame of 2800. *)
Lemma reference_speech_end :
  let ops := referenceSession [(1000, true); (1300, true); (1400, true); (2000, false)] in
  let d := fst (execs (newDetector noChange) ops) in
  exists ev,
    In ev (snd (exec d (Poll (silentTick 2800))))
    /\ signalOf ev = (speech_end, 2800, Some 2200).
Proof.
  cbv zeta.
  pose proof (referenceSession_state (1000, true)
                [(1300, true); (1400, true); (2000, false)]) as [Hd Hcb].
  pose proof (referenceSession_timers
                [(1000, true); (1300, true); (1400, true); (2000, false)])
    as [Hstate _].
  pose proof (referenceSession_config
                [(1000, true); (1300, true); (1400, true); (2000, false)]) as Hcfg.
  cbv zeta in Hd, Hcb, Hstate.
  assert (E : snd (timerStep 300 800
                     (fst (runTimers 300 800 (mkTimers false 0 0 0)
                             (scheduleOf [(1000, true); (1300, true); (1400, true);
                                          (2000, false)])))
                     2800 false false)
              = [(speech_end, 2800, Some 2200)]) by (vm_compute; reflexivity).
  rewrite <- Hstate in E. clear Hstate.
  remember (referenceSession [(1000, true); (1300, true); (1400, true); (2000, false)])
    as ops eqn:Hops.
  remember (fst (execs (newDetector noChange) ops)) as d eqn:Heqd.
  destruct (detect_tickOf d (2800, false) Hd Hcb) as (_ & Hev & _).
  rewrite Hcfg in Hev. cbn [fst snd] in Hev.
  change (minSpeechDuration DEFAULT_CONFIG) with 300 in Hev.
  change (minSilenceDuration DEFAULT_CONFIG) with 800 in Hev.
  rewrite E in Hev. clear E.
  change (tickOf (2800, false)) with (silentTick 2800) in Hev.
  cbn [exec]. destruct (snd (detect d (silentTick 2800))) as [|ev rest];
    [discriminate|].
  exists ev. split; [now left|].
  cbn [map] in Hev. now inversion Hev.
Qed.

Lemma speech_end_needs_counted_silence_witness :
  let ops := referenceSession [(1000, true); (1300, true); (1400, true); (2000, false)] in
  let op := Poll (silentTick 2800) in
  let d0 := newDetector noChange in
  let d := fst (execs d0 ops) in
  exists ev,
    In ev (snd (exec d op))
    /\ type ev = speech_end
    /\ exists pre sop mid d' tk,
         ops = pre ++ sop :: mid
         /\ running (fst (execs d0 pre)) sop = Some (d', tk)
         /\ heard d' tk = false
         /\ isSpeaking (fst (execs d0 pre)) = true
         /\ alongRun staysSpeaking (fst (execs d0 (pre ++ [sop]))) mid
         /\ now tk <> 0
         /\ timestamp ev - now tk >= minSilenceDuration (config d).
Proof.
  cbv zeta. destruct reference_speech_end as (ev & Hin & Hsig).
  assert (Hty : type ev = speech_end) by (unfold signalOf in Hsig; congruence).
  exists ev. split; [exact Hin|]. split; [exact Hty|].
  exact (speech_end_needs_counted_silence noChange _ (Poll (silentTick 2800)) ev
           Hin Hty).
Defined.

(** ** X12-X13: what the state reports, with or without a callback *)

Lemma exec_lastSpeech_kept d op :
  op <> Stop ->
  lastSpeechTime (fst (exec d op)) =
  match voiceAt d op with Some t => t | None => lastSpeechTime d end.
Proof.
  intros Hop.
  assert (Hdetect : forall d' tk, analyser d' <> None ->
            lastSpeechTime (fst (detect d' tk)) =
            if heard d' tk then now tk else lastSpeechTime d').
  { intros d' tk Han. destruct (detect_timers d' tk Han) as (T1 & _).
    apply timersOf_fields in T1 as (_ & _ & F3 & _). rewrite F3.
    destruct (heard d' tk); [apply timerStep_voice | apply timerStep_silence]. }
  destruct op as [tk|cb tk|p|]; unfold voiceAt; cbn [running exec].
  - destruct (analyser d) eqn:Han.
    + rewrite Hdetect by congruence. now destruct (heard d tk).
    + now rewrite detect_idle.
  - unfold init. rewrite Hdetect by (cbn; congruence).
    now destruct (heard (connect d cb) tk).
  - reflexivity.
  - congruence.
Qed.

(** X12: as long as the detector is not stopped, [lastSpeechTime] is the
    time of the last polled frame that counted as voice, and the initial
    value when there was none; [getState] reports it together with the
    time elapsed since.  A new detector that has heard no voice reports
    0, and as [timeSinceLastSpeech] the clock itself. *)
Theorem lastSpeechTime_is_last_voice_frame
    (d : Detector) (ops : list Op) (t : Z) :
  Forall (fun op => op <> Stop) ops ->
  let d1 := fst (execs d ops) in
  let tv := last (voiceTimes d ops) (lastSpeechTime d) in
  lastSpeechTime d1 = tv
  /\ snap_lastSpeechTime (getState d1 t) = tv
  /\ timeSinceLastSpeech (getState d1 t) = t - tv
  /\ (lastSpeechTime d = 0 -> voiceTimes d ops = [] ->
      timeSinceLastSpeech (getState d1 t) = t).
Proof.
  intros Hops. cbv zeta.
  assert (H : lastSpeechTime (fst (execs d ops)) =
              last (voiceTimes d ops) (lastSpeechTime d)).
  { revert d. induction Hops as [|op ops Hop _ IH]; intros d; [reflexivity|].
    cbn [execs voiceTimes]. pose proof (exec_lastSpeech_kept d op Hop) as Hstep.
    destruct (exec d op) as [d1 ev1]. cbn [fst] in *.
    specialize (IH d1). destruct (execs d1 ops) as [d2 ev2]. cbn [fst] in *.
    rewrite IH, Hstep. destruct (voiceAt d op) as [tv|]; cbn [app].
    - now rewrite last_cons.
    - reflexivity. }
  unfold getState; cbn. rewrite H. repeat split.
  intros H0 Hnone. rewrite Hnone, H0. cbn. lia.
Qed.

Lemma lastSpeechTime_is_last_voice_frame_witness :
  let ops := referenceSession twoUtterances in
  let d := newDetector noChange in
  Forall (fun op => op <> Stop) ops
  /\ last (voiceTimes d ops) (lastSpeechTime d) = 3300
  /\ timeSinceLastSpeech (getState (fst (execs d ops)) 4000) =
     4000 - last (voiceTimes d ops) (lastSpeechTime d).
Proof.
  cbv zeta.
  assert (H : Forall (fun op => op <> Stop) (referenceSession twoUtterances))
    by (repeat constructor; discriminate).
  split; [exact H|].
  destruct (lastSpeechTime_is_last_voice_frame (newDetector noChange) _ 4000 H)
    as (E1 & _ & E3 & _).
  split; [|exact E3].
  rewrite <- E1.
  destruct (referenceSession_timers twoUtterances) as [T _].
  apply timersOf_fields in T as (_ & _ & F3 & _). rewrite F3.
  vm_compute. reflexivity.
Defined.

Lemma speechStateMachine_mute d t e c v :
  speechStateMachine (set_onActivityCallback false d) t e c v =
  (set_onActivityCallback false (fst (speechStateMachine d t e c v)), []).
Proof.
  destruct d as [ctx an src af cfg sp sst lst silst hist cb].
  unfold speechStateMachine, emitEvent; cbn -[gt mul].
  destruct v, sp; cbn -[gt mul];
    repeat match goal with
    | |- context [if ?b then _ else _] => destruct b eqn:?; cbn -[gt mul]
    end; reflexivity.
Qed.

Lemma detect_mute d tk :
  detect (set_onActivityCallback false d) tk =
  (set_onActivityCallback false (fst (detect d tk)), []).
Proof.
  unfold detect.
  change (analyser (set_onActivityCallback false d)) with (analyser d).
  destruct (analyser d); [|reflexivity].
  change (frameConfidence (set_onActivityCallback false d) tk)
    with (frameConfidence d tk).
  change (energyHistory (set_onActivityCallback false d)) with (energyHistory d).
  change (set_energyHistory ?h (set_onActivityCallback false d))
    with (set_onActivityCallback false (set_energyHistory h d)).
  rewrite speechStateMachine_mute.
  destruct (speechStateMachine _ _ _ _ _) as [d2 evs]. reflexivity.
Qed.

(** X13: the callback is only told, never asked.  Without a callback
    the detector goes through the same states as with one, frame by
    frame, through configuration updates and [stop], and emits
    nothing. *)
Theorem without_callback_same_states (d : Detector) (ops : list Op) :
  Forall keepsCallback ops ->
  execs (set_onActivityCallback false d) ops =
  (set_onActivityCallback false (fst (execs d ops)), []).
Proof.
  intros Hops. revert d.
  induction Hops as [|op ops Hop _ IH]; intros d; [reflexivity|].
  cbn [execs].
  assert (Hstep : exec (set_onActivityCallback false d) op =
                  (set_onActivityCallback false (fst (exec d op)), [])).
  { destruct op as [tk|cb tk|p|]; cbn [exec fst].
    - apply detect_mute.
    - contradiction.
    - reflexivity.
    - f_equal. destruct d as [ctx an src af cfg sp sst lst silst hist cb].
      unfold stop, scheduled; cbn.
      destruct af as [id|]; [destruct (id =? 0)|]; destruct src, ctx; reflexivity. }
  rewrite Hstep. destruct (exec d op) as [d1 ev1]. cbn [fst].
  rewrite IH. destruct (execs d1 ops) as [d2 ev2]. reflexivity.
Qed.

Lemma without_callback_same_states_witness :
  let ops := [Poll (voicedTick 1000); UpdateConfig noChange;
              Poll (voicedTick 1300); Stop] in
  Forall keepsCallback ops
  /\ execs (set_onActivityCallback false listeningDetector) ops =
     (set_onActivityCallback false (fst (execs listeningDetector ops)), []).
Proof.
  cbv zeta.
  assert (H : Forall keepsCallback
                [Poll (voicedTick 1000); UpdateConfig noChange;
                 Poll (voicedTick 1300); Stop])
    by (repeat constructor).
  split; [exact H|].
  exact (without_callback_same_states listeningDetector _ H).
Defined.

(** ** X14-X16: configuration updates, events and the analyser *)

Lemma merge_noChange c : merge c noChange = c.
Proof. now destruct c. Qed.

Lemma merge_overlay c p q : merge (merge c p) q = merge c (overlay p q).
Proof.
  destruct p as [p1 p2 p3 p4 p5 p6 p7], q as [q1 q2 q3 q4 q5 q6 q7].
  unfold merge, overlay; cbn.
  destruct q1, q2, q3, q4, q5, q6, q7; reflexivity.
Qed.

Lemma overlay_twice p : overlay p p = p.
Proof.
  destruct p as [p1 p2 p3 p4 p5 p6 p7]. unfold overlay; cbn.
  destruct p1, p2, p3, p4, p5, p6, p7; reflexivity.
Qed.

(** X14: configuration updates compose like the object spreads they
    are.  An empty update changes nothing; two updates in a row are one
    update with the second laid over the first; the same update twice is
    that update once; and the constructor is an update of the default
    configuration. *)
Theorem updateConfig_composes (d : Detector) (p q : PartialConfig) :
  updateConfig d noChange = d
  /\ updateConfig (updateConfig d p) q = updateConfig d (overlay p q)
  /\ updateConfig (updateConfig d p) p = updateConfig d p
  /\ newDetector p = updateConfig (newDetector noChange) p
  /\ config (newDetector noChange) = DEFAULT_CONFIG.
Proof.
  unfold updateConfig, newDetector. split; [|split; [|split; [|split]]].
  - rewrite merge_noChange. now destruct d.
  - cbn. now rewrite merge_overlay.
  - cbn. now rewrite merge_overlay, overlay_twice.
  - cbn. now rewrite merge_noChange.
  - reflexivity.
Qed.

(** A step of the timers emits at most one signal, stamped with the
    time of the step; its type tells whether the frame had voice and
    whether the timers were speaking. *)
Lemma timerStep_signal ms me s t v n sg :
  In sg (snd (timerStep ms me s t v n)) ->
  snd (timerStep ms me s t v n) = [sg]
  /\ snd (fst sg) = t
  /\ match fst (fst sg) with
     | speech_start => v = true /\ speaking s = false
     | speech_active => v = true /\ speaking s = true
     | speech_end => v = false /\ speaking s = true
     | noise => v = false /\ speaking s = false /\ n = true
     end.
Proof.
  unfold timerStep. destruct s as [sp sst lst silst]; cbn.
  destruct v, sp, n; cbn;
    repeat match goal with
    | |- context [if ?b then _ else _] => destruct b eqn:?; cbn
    end;
    intros H; repeat (destruct H as [<-|H]; [cbn; auto|]); contradiction.
Qed.

Lemma detect_event d tk ev :
  In ev (snd (detect d tk)) ->
  analyser d <> None
  /\ onActivityCallback d = true
  /\ snd (detect d tk) = [ev]
  /\ timestamp ev = now tk
  /\ energy ev = frameEnergy tk
  /\ confidence ev = frameConfidence d tk
  /\ match type ev with
     | speech_start => heard d tk = true /\ isSpeaking d = false
     | speech_active => heard d tk = true /\ isSpeaking d = true
     | speech_end => heard d tk = false /\ isSpeaking d = true
     | noise => heard d tk = false /\ isSpeaking d = false /\ noisy d tk = true
     end.
Proof.
  intros Hev.
  assert (Han' : analyser d <> None).
  { intros Han. rewrite detect_idle in Hev by assumption. contradiction. }
  destruct (detect_timers d tk Han') as (_ & T2 & T3 & _).
  split; [exact Han'|].
  pose proof (in_map signalOf _ _ Hev) as Hsg. rewrite T2 in Hsg.
  destruct (onActivityCallback d); [|contradiction].
  split; [reflexivity|].
  apply timerStep_signal in Hsg as (S1 & S2 & S3). rewrite S1 in T2.
  rewrite Forall_forall in T3. destruct (T3 ev Hev) as [E1 E2].
  destruct (snd (detect d tk)) as [|ev' [|]]; try discriminate.
  destruct Hev as [->|[]]. cbn in S2, S3. auto.
Qed.

(** X15: what an event says.  One run of [detect] hands the callback at
    most one event.  The event carries the time, the energy and the
    confidence of the frame of that run.  A [speech_start] or a
    [speech_active] carries a confidence above 0.6; a [speech_end] or a
    noise event one that is not (it may be NaN); a noise event is only
    emitted while not speaking, with an energy above half the configured
    threshold, and a [speech_active] only while speaking. *)
Theorem event_reports_its_frame (d : Detector) (op : Op) (ev : VoiceActivityEvent) :
  In ev (snd (exec d op)) ->
  exists d' tk,
    running d op = Some (d', tk)
    /\ snd (exec d op) = [ev]
    /\ timestamp ev = now tk
    /\ energy ev = frameEnergy tk
    /\ confidence ev = frameConfidence d' tk
    /\ match type ev with
       | speech_start =>
           voicePresent (confidence ev) = true /\ isSpeaking d = false
       | speech_active =>
           voicePresent (confidence ev) = true /\ isSpeaking d = true
       | speech_end =>
           voicePresent (confidence ev) = false /\ isSpeaking d = true
       | noise =>
           voicePresent (confidence ev) = false /\ isSpeaking d = false
           /\ gt (energy ev)
                 (mul (Fin (energyThreshold (config d))) (Fin 0.5)) = true
       end.
Proof.
  intros Hev.
  assert (Hdetect : forall d' tk,
            isSpeaking d' = isSpeaking d -> config d' = config d ->
            In ev (snd (detect d' tk)) ->
            analyser d' <> None
            /\ snd (detect d' tk) = [ev]
            /\ timestamp ev = now tk
            /\ energy ev = frameEnergy tk
            /\ confidence ev = frameConfidence d' tk
            /\ match type ev with
               | speech_start =>
                   voicePresent (confidence ev) = true /\ isSpeaking d = false
               | speech_active =>
                   voicePresent (confidence ev) = true /\ isSpeaking d = true
               | speech_end =>
                   voicePresent (confidence ev) = false /\ isSpeaking d = true
               | noise =>
                   voicePresent (confidence ev) = false /\ isSpeaking d = false
                   /\ gt (energy ev)
                         (mul (Fin (energyThreshold (config d))) (Fin 0.5)) = true
               end).
  { intros d' tk Hsp Hcfg Hin.
    destruct (detect_event d' tk ev Hin) as (D0 & _ & D1 & D2 & D3 & D4 & D5).
    repeat (split; [assumption|]).
    rewrite D4, D3, <- Hsp, <- Hcfg. exact D5. }
  destruct op as [tk|cb tk|p|]; cbn [exec running snd] in *; try contradiction.
  - destruct (Hdetect d tk eq_refl eq_refl Hev) as (D0 & D).
    destruct (analyser d); [|congruence]. exists d, tk. auto.
  - unfold init in *.
    destruct (Hdetect (connect d cb) tk eq_refl eq_refl Hev) as (D0 & D).
    exists (connect d cb), tk. auto.
Qed.

Lemma event_reports_its_frame_witness :
  let ops := referenceSession [(1000, true); (1300, true); (1400, true); (2000, false)] in
  let op := Poll (silentTick 2800) in
  let d := fst (execs (newDetector noChange) ops) in
  exists ev,
    In ev (snd (exec d op))
    /\ type ev = speech_end
    /\ snd (exec d op) = [ev]
    /\ timestamp ev = 2800
    /\ energy ev = Fin 0.
Proof.
  cbv zeta. destruct reference_speech_end as (ev & Hin & Hsig).
  assert (Hty : type ev = speech_end) by (unfold signalOf in Hsig; congruence).
  exists ev. split; [exact Hin|]. split; [exact Hty|].
  remember (fst (execs (newDetector noChange)
                   (referenceSession
                      [(1000, true); (1300, true); (1400, true); (2000, false)])))
    as d eqn:Ed.
  destruct (event_reports_its_frame d (Poll (silentTick 2800)) ev Hin)
    as (d' & tk & Hrun & H1 & H2 & H3 & _).
  cbn [running] in Hrun. destruct (analyser d); [|discriminate].
  assert (Htk : tk = silentTick 2800) by congruence.
  rewrite Htk in H2, H3.
  split; [exact H1|]. split; [exact H2|].
  rewrite H3. apply frameEnergy_silentTick.
Defined.

Lemma execs_resources ops : forall d,
  Forall inSession ops ->
  analyser (fst (execs d ops)) = analyser d
  /\ audioContext (fst (execs d ops)) = audioContext d.
Proof.
  induction ops as [|op ops IH]; intros d Hops; [split; reflexivity|].
  inversion Hops as [|? ? Hop Hrest]; subst. cbn [execs].
  assert (Hstep : analyser (fst (exec d op)) = analyser d
                  /\ audioContext (fst (exec d op)) = audioContext d).
  { destruct op as [tk|cb tk|p|]; cbn [exec fst]; try contradiction.
    - destruct (analyser d) eqn:Han.
      + assert (Han' : analyser d <> None) by congruence.
        destruct (detect_timers d tk Han') as (_ & _ & _ & _ & _ & H1 & H2 & _).
        split; congruence.
      + now rewrite detect_idle.
    - split; reflexivity. }
  destruct (exec d op) as [d1 ev1]. cbn [fst] in *.
  destruct Hstep as [S1 S2]. destruct (IH d1 Hrest) as [I1 I2].
  destruct (execs d1 ops) as [d2 ev2]. cbn [fst] in *.
  split; congruence.
Qed.

(** X16: the analyser is set up once.  From [init] on, through runs of
    [detect] and configuration updates, [getAnalyser] returns the node
    with the FFT size that the configuration had when [init] was called
    and the audio context stays at 16 kHz: a later update of [fftSize]
    changes the configuration, and the bins that [calculateVoiceEnergy]
    works out, but not the analyser. *)
Theorem analyser_frozen_at_init
    (d : Detector) (onActivity : bool) (tk : Tick) (ops : list Op) :
  Forall inSession ops ->
  let d1 := fst (execs d (Init onActivity tk :: ops)) in
  getAnalyser d1 =
    Some {| node_fftSize := fftSize (config d); smoothingTimeConstant := 0.2 |}
  /\ audioContext d1 = Some {| sampleRate := 16000 |}.
Proof.
  intros Hops. cbv zeta. unfold getAnalyser.
  change (Init onActivity tk :: ops) with ([Init onActivity tk] ++ ops).
  rewrite execs_app. cbn [fst].
  destruct (execs_resources ops (fst (execs d [Init onActivity tk])) Hops) as [-> ->].
  cbn [execs exec]. unfold init.
  assert (Han : analyser (connect d onActivity) <> None) by (cbn; congruence).
  destruct (detect_timers (connect d onActivity) tk Han)
    as (_ & _ & _ & _ & _ & H1 & H2 & _).
  destruct (detect (connect d onActivity) tk) as [d1 ev1]. cbn [fst] in *.
  rewrite H1, H2. split; reflexivity.
Qed.

Lemma analyser_frozen_at_init_witness :
  let ops := [Poll (voicedTick 1016);
              UpdateConfig (mkPartial None None None None (Some 512%R) None None);
              Poll (voicedTick 1032)] in
  let d1 := fst (execs (newDetector noChange) (Init true (voicedTick 1000) :: ops)) in
  Forall inSession ops
  /\ fftSize (config d1) = 512%R
  /\ getAnalyser d1 =
       Some {| node_fftSize := 2048; smoothingTimeConstant := 0.2 |}
  /\ audioContext d1 = Some {| sampleRate := 16000 |}.
Proof.
  cbv zeta.
  assert (H : Forall inSession
                [Poll (voicedTick 1016);
                 UpdateConfig (mkPartial None None None None (Some 512%R) None None);
                 Poll (voicedTick 1032)])
    by (repeat constructor).
  split; [exact H|].
  split; [|exact (analyser_frozen_at_init (newDetector noChange) true
                    (voicedTick 1000) _ H)].
  cbn [execs exec]. unfold init.
  repeat match goal with
  | |- context [detect ?d ?tk] =>
      let Hc := fresh "Hc" in
      pose proof (detect_config d tk) as Hc;
      destruct (detect d tk) as [? ?]; cbn [fst] in Hc
  end.
  cbn [fst]. rewrite Hc1. reflexivity.
Defined.

(** ** X17: a steady signal *)





(** ** X18: the component that listens *)

Lemma displayable_app events1 : forall speaking events2,
  displayable speaking (events1 ++ events2) <->
  displayable speaking events1
  /\ displayable (speakingAfter speaking (map type events1)) events2.
Proof.
  induction events1 as [|ev events1 IH]; intros speaking events2; cbn; [tauto|].
  destruct (type ev); rewrite IH; tauto.
Qed.

(** The events of one operation are displayable, and tell whether the
    detector is speaking afterwards. *)
Lemma exec_displayable d op :
  onActivityCallback d = true -> inSession op ->
  displayable (isSpeaking d) (snd (exec d op))
  /\ isSpeaking (fst (exec d op)) =
     speakingAfter (isSpeaking d) (map type (snd (exec d op)))
  /\ onActivityCallback (fst (exec d op)) = true.
Proof.
  intros Hcb Hop.
  destruct (exec_step d op Hop) as (_ & S2 & S3 & _).
  destruct (S3 Hcb) as [_ S4].
  split; [|split; [exact S4 | congruence]].
  assert (Hdetect : forall tk, displayable (isSpeaking d) (snd (detect d tk))).
  { intros tk. destruct (snd (detect d tk)) as [|ev rest] eqn:Eev; [exact I|].
    assert (Hin : In ev (snd (detect d tk))) by (rewrite Eev; now left).
    destruct (detect_event d tk ev Hin) as (_ & _ & D1 & _ & _ & D4 & D5).
    rewrite Eev in D1. inversion D1; subst rest.
    cbn [displayable]. rewrite D4. unfold heard in D5.
    destruct (type ev); intuition. }
  destruct op as [tk|cb tk|p|]; cbn [exec snd]; try contradiction.
  - apply Hdetect.
  - exact I.
Qed.

Lemma execs_displayable ops : forall d,
  onActivityCallback d = true -> Forall inSession ops ->
  displayable (isSpeaking d) (snd (execs d ops))
  /\ isSpeaking (fst (execs d ops)) =
     speakingAfter (isSpeaking d) (map type (snd (execs d ops))).
Proof.
  induction ops as [|op ops IH]; intros d Hcb Hops; [split; [exact I | reflexivity]|].
  inversion Hops as [|? ? Hop Hrest]; subst. cbn [execs].
  destruct (exec_displayable d op Hcb Hop) as (E1 & E2 & E3).
  destruct (exec d op) as [d1 ev1]. cbn [fst snd] in *.
  destruct (IH d1 E3 Hrest) as [I1 I2].
  destruct (execs d1 ops) as [d2 ev2]. cbn [fst snd] in *.
  rewrite displayable_app, map_app, speakingAfter_app, <- E2. auto.
Qed.

(** The handler keeps the panel coherent over displayable events, and
    [isUserSpeaking] follows the starts and ends. *)
Lemma happen_displayable feed : forall c,
  coherent c -> displayable (isUserSpeaking c) (eventsOf feed) ->
  let c' := fold_left happen feed c in
  coherent c'
  /\ isUserSpeaking c' =
     speakingAfter (isUserSpeaking c) (map type (eventsOf feed)).
Proof.
  induction feed as [|h feed IH]; intros c Hc Hd; [split; [exact Hc | reflexivity]|].
  cbn [fold_left]. destruct h as [ev timer|].
  - change (eventsOf (Heard ev timer :: feed)) with (ev :: eventsOf feed) in *.
    cbn [displayable map speakingAfter] in *.
    change (happen c (Heard ev timer)) with (fst (handleVoiceActivity c ev timer)).
    unfold handleVoiceActivity. unfold coherent in Hc.
    destruct (type ev) eqn:Hty.
    + destruct Hd as (Hsp & Hconf & Hrest).
      assert (Hstep : forall c1,
                isUserSpeaking c1 = true -> speechConfidence c1 = confidence ev ->
                coherent (fold_left happen feed c1)
                /\ isUserSpeaking (fold_left happen feed c1) =
                   speakingAfter true (map type (eventsOf feed))).
      { intros c1 H1 H2. destruct (IH c1) as [I1 I2].
        - unfold coherent. now rewrite H1, H2.
        - now rewrite H1.
        - split; [exact I1|]. now rewrite I2, H1. }
      cbn [speechEndTimer isUserSpeaking speechConfidence].
      destruct (speechEndTimer c) as [id|]; [destruct (id =? 0)|];
        cbn [fst]; apply Hstep; reflexivity.
    + destruct Hd as (Hsp & Hrest). cbn [fst].
      destruct (IH (mkComponent false (Fin 0) (Some timer))) as [I1 I2];
        [reflexivity | exact Hrest|].
      split; [exact I1 | exact I2].
    + destruct Hd as (Hsp & Hconf & Hrest). cbn [fst].
      destruct (IH (mkComponent (isUserSpeaking c) (confidence ev) (speechEndTimer c)))
        as [I1 I2].
      * unfold coherent. cbn. now rewrite Hsp.
      * exact Hrest.
      * split; [exact I1 | exact I2].
    + destruct Hd as (Hsp & Hrest). cbn [fst].
      destruct (IH c Hc Hrest) as [I1 I2].
      split; [exact I1 | exact I2].
  - change (eventsOf (TimerFired :: feed)) with (eventsOf feed) in *.
    cbn [happen].
    destruct (IH (mkComponent (isUserSpeaking c) (speechConfidence c) None))
      as [I1 I2]; [exact Hc | exact Hd|].
    split; [exact I1 | exact I2].
Qed.

(** X18: the panel follows the detector.  A component in its initial
    state passes [handleVoiceActivity] to [init]; the detector then runs
    and takes configuration updates, and the analysis timers fire
    whenever they do.  After the handler has seen the events,
    [isUserSpeaking] is the detector's [isSpeaking]; while it is true
    the confidence shown is above 0.6, and while it is false the
    confidence shown is 0. *)
Theorem component_mirrors_detector
    (p : PartialConfig) (tk : Tick) (ops : list Op) (feed : list Happening) :
  Forall inSession ops ->
  let r := execs (newDetector p) (Init true tk :: ops) in
  eventsOf feed = snd r ->
  let c := fold_left happen feed initialComponent in
  isUserSpeaking c = isSpeaking (fst r)
  /\ coherent c.
Proof.
  intros Hops. cbv zeta. intros Hfeed.
  assert (Hrun : execs (newDetector p) (Init true tk :: ops) =
                 execs (connect (newDetector p) true) (Poll tk :: ops))
    by reflexivity.
  rewrite Hrun in *.
  assert (Hall : Forall inSession (Poll tk :: ops)) by (constructor; [exact I | exact Hops]).
  destruct (execs_displayable (Poll tk :: ops) (connect (newDetector p) true)
              eq_refl Hall) as [D1 D2].
  rewrite <- Hfeed in D1, D2.
  destruct (happen_displayable feed initialComponent eq_refl D1) as [H1 H2].
  split; [|exact H1]. rewrite H2, D2. reflexivity.
Qed.

Lemma eventsOf_heard timer events :
  eventsOf (map (fun event => Heard event timer) events) = events.
Proof.
  induction events as [|ev events IH]; [reflexivity|].
  cbn [map]. change (eventsOf (Heard ev timer :: ?l)) with (ev :: eventsOf l).
  now rewrite IH.
Qed.

Lemma component_mirrors_detector_witness :
  let ops := map (fun x => Poll (tickOf x)) (tl twoUtterances) in
  let r := execs (newDetector noChange) (Init true (voicedTick 1000) :: ops) in
  let feed := map (fun event => Heard event 1) (snd r) in
  let c := fold_left happen feed initialComponent in
  Forall inSession ops
  /\ map signalOf (snd r) =
     [(speech_start, 1300, None); (speech_active, 1400, None);
      (speech_end, 2800, Some 2200); (speech_start, 3300, None)]
  /\ isUserSpeaking c = isSpeaking (fst r)
  /\ coherent c.
Proof.
  cbv zeta.
  assert (H : Forall inSession (map (fun x => Poll (tickOf x)) (tl twoUtterances)))
    by (repeat constructor).
  split; [exact H|]. split; [exact twoUtterances_events|].
  exact (component_mirrors_detector noChange (voicedTick 1000) _ _ H
           (eventsOf_heard 1 _)).
Defined.

(** ** X19: an empty frame in the history *)







(** ** X20: what [stop] releases *)

Lemma detect_request d tk :
  analyser d <> None ->
  animationFrame (fst (detect d tk)) = Some (requestId tk)
  /\ sourceNode (fst (detect d tk)) = sourceNode d.
Proof.
  intros Han. unfold detect. destruct (analyser d); [|congruence].
  match goal with
  | |- context [speechStateMachine ?d' ?t ?e ?c ?v] =>
      pose proof (speechStateMachine_timers d' t e c v) as (_ & _ & _ & K);
      destruct (speechStateMachine d' t e c v) as [d2 evs]
  end.
  cbn [fst] in *. split; [reflexivity|].
  apply (f_equal sourceNode) in K. cbn in K. cbn. now symmetry.
Qed.

Lemma execs_request ops : forall d,
  analyser d <> None -> Forall inSession ops ->
  animationFrame (fst (execs d ops)) =
    last (map (fun tk => Some (requestId tk)) (opTicks ops)) (animationFrame d)
  /\ sourceNode (fst (execs d ops)) = sourceNode d.
Proof.
  induction ops as [|op ops IH]; intros d Han Hops; [split; reflexivity|].
  inversion Hops as [|? ? Hop Hrest]; subst.
  rewrite opTicks_cons. cbn [execs].
  destruct op as [tk|cb tk|p|]; cbn [exec] in *; try contradiction.
  - destruct (detect_request d tk Han) as [R1 R2].
    destruct (detect_keeps d tk Han) as (K1 & _).
    destruct (detect d tk) as [d1 ev1]. cbn [fst] in *.
    destruct (IH d1 K1 Hrest) as [I1 I2].
    destruct (execs d1 ops) as [d2 ev2]. cbn [fst] in *.
    split; [|congruence].
    rewrite I1, R1. change (opTicks [Poll tk]) with [tk]. cbn [app map].
    now rewrite last_cons.
  - destruct (IH (updateConfig d p) Han Hrest) as [I1 I2].
    destruct (execs (updateConfig d p) ops) as [d2 ev2]. cbn [fst] in *.
    split; [exact I1 | exact I2].
Qed.

(** X20: [stop] releases what [init] acquired.  After [init], runs of
    [detect] and configuration updates, [stop] cancels the frame request
    of the last run (a non-zero handle), then disconnects the source,
    then closes the audio context, and makes no other host call. *)
Theorem stop_releases_what_init_acquired
    (d : Detector) (onActivity : bool) (tk : Tick) (ops : list Op) :
  Forall inSession ops ->
  let id := requestId (last (opTicks ops) tk) in
  id <> 0 ->
  snd (stop (fst (execs d (Init onActivity tk :: ops)))) =
  [CancelAnimationFrame id; DisconnectSource; CloseAudioContext].
Proof.
  intros Hops. cbv zeta. intros Hid.
  assert (Hrun : execs d (Init onActivity tk :: ops) =
                 execs (connect d onActivity) (Poll tk :: ops)) by reflexivity.
  rewrite Hrun.
  assert (Hall : Forall inSession (Poll tk :: ops))
    by (constructor; [exact I | exact Hops]).
  assert (Han : analyser (connect d onActivity) <> None) by (cbn; congruence).
  destruct (execs_request (Poll tk :: ops) _ Han Hall) as [R1 R2].
  destruct (execs_resources (Poll tk :: ops) (connect d onActivity) Hall) as [_ R3].
  rewrite opTicks_cons in R1. change (opTicks [Poll tk]) with [tk] in R1.
  cbn [app map] in R1. rewrite last_cons in R1.
  assert (Hlast : forall l x,
            last (map (fun tk => Some (requestId tk)) l) (Some (requestId x)) =
            Some (requestId (last l x))).
  { induction l as [|y l IHl]; intros x; [reflexivity|].
    cbn [map]. now rewrite !last_cons. }
  rewrite Hlast in R1.
  destruct (fst (execs (connect d onActivity) (Poll tk :: ops)))
    as [ctx an src af cfg sp sst lst silst hist cb].
  cbn in R1, R2, R3. subst af src ctx.
  unfold stop, scheduled; cbn.
  destruct (requestId (last (opTicks ops) tk) =? 0) eqn:E;
    [apply Z.eqb_eq in E; contradiction | reflexivity].
Qed.

Lemma stop_releases_what_init_acquired_witness :
  let ops := [Poll (mkTick 1016 (repeat 128 frameLength) (repeat 0 frameLength) 7);
              UpdateConfig noChange] in
  Forall inSession ops
  /\ snd (stop (fst (execs (newDetector noChange)
                       (Init true (voicedTick 1000) :: ops)))) =
     [CancelAnimationFrame 7; DisconnectSource; CloseAudioContext].
Proof.
  cbv zeta.
  assert (H : Forall inSession
                [Poll (mkTick 1016 (repeat 128 frameLength) (repeat 0 frameLength) 7);
                 UpdateConfig noChange])
    by (repeat constructor).
  split; [exact H|].
  apply (stop_releases_what_init_acquired (newDetector noChange) true
           (voicedTick 1000) _ H).
  discriminate.
Defined.
